(** * Trading ledger of the stock-portfolio application (aap.py)

    A shallow embedding of the wallet / portfolio / transaction-log logic of
    [src/CodeAlpha_Stock-portfolio/aap.py]:

    - money is a Python [float] (IEEE-754 binary64), embedded as Rocq's
      primitive [float]; every arithmetic operation rounds as the source's does;
    - quantities are Python [int]s, embedded as [Z]; their conversion to float
      and their binding to SQLite's 64-bit INTEGER can raise, and do so here;
    - text is a Python [str], embedded as the bytes of its UTF-8 encoding (the
      form it has in the request and in a TEXT column); [str.strip] and
      [str.upper] work on its code points, with the white space and the case
      mappings of Unicode 14.0 (CPython 3.11);
    - the SQLite database is a record of finite maps (tables [wallet],
      [portfolio]) and a list (table [transactions], in rowid order);
    - a connection works on a private copy of the database; only [commit]
      publishes it, and an exception drops the uncommitted writes;
    - yfinance and the clock are inputs of each request. *)

From Stdlib Require Import ZArith Uint63 Floats QArith Lia Bool Ascii String List
  DecimalString.
From stdpp Require Import base option gmap strings.

Set Default Proof Using "Type".
Local Open Scope Z_scope.

(* ================================================================== *)
(** * Python values *)

(** Exceptions that escape a route (Flask answers 500 and nothing is
    committed). *)
Variant exn := OverflowError | ZeroDivisionError | IntegrityError.

(** Results of code that can raise. *)
Definition result (A : Type) : Type := exn + A.

Definition ok {A} (a : A) : result A := inr a.
Definition raise {A} (e : exn) : result A := inl e.
Definition bind {A B} (r : result A) (k : A -> result B) : result B :=
  match r with
  | inl e => inl e
  | inr a => k a
  end.

Declare Scope py_scope.
Delimit Scope py_scope with py.
Notation "x <~ e ;; k" := (bind e (fun x => k))
  (at level 100, e at next level, k at level 200, right associativity) : py_scope.

(** ** str *)

(** A Python [str] is embedded as the bytes of its UTF-8 encoding, the form
    it has in the request and in SQLite's TEXT columns; [str.strip] and
    [str.upper] work on its code points. *)

Definition utf8_cont (n : N) : bool := ((128 <=? n) && (n <? 192))%N.

(** The code points of a byte string; a byte that is not part of a
    well-formed sequence stands for itself. *)
Fixpoint utf8_decode (bs : list ascii) : list N :=
  match bs with
  | [] => []
  | b1 :: rest1 =>
      let n1 := N_of_ascii b1 in
      let alone := n1 :: utf8_decode rest1 in
      if (n1 <? 192)%N then alone
      else
        match rest1 with
        | [] => alone
        | b2 :: rest2 =>
            let n2 := N_of_ascii b2 in
            if negb (utf8_cont n2) then alone
            else if (n1 <? 224)%N
            then ((n1 - 192) * 64 + (n2 - 128))%N :: utf8_decode rest2
            else
              match rest2 with
              | [] => alone
              | b3 :: rest3 =>
                  let n3 := N_of_ascii b3 in
                  if negb (utf8_cont n3) then alone
                  else if (n1 <? 240)%N
                  then ((n1 - 224) * 4096 + (n2 - 128) * 64 + (n3 - 128))%N
                       :: utf8_decode rest3
                  else
                    match rest3 with
                    | [] => alone
                    | b4 :: rest4 =>
                        let n4 := N_of_ascii b4 in
                        if negb (utf8_cont n4) || (248 <=? n1)%N then alone
                        else ((n1 - 240) * 262144 + (n2 - 128) * 4096
                              + (n3 - 128) * 64 + (n4 - 128))%N
                             :: utf8_decode rest4
                    end
              end
        end
  end.

Definition utf8_encode_char (c : N) : list ascii :=
  if (c <? 128)%N then [ascii_of_N c]
  else if (c <? 2048)%N
  then [ascii_of_N (192 + c / 64); ascii_of_N (128 + c mod 64)]
  else if (c <? 65536)%N
  then [ascii_of_N (224 + c / 4096); ascii_of_N (128 + (c / 64) mod 64);
        ascii_of_N (128 + c mod 64)]
  else [ascii_of_N (240 + c / 262144); ascii_of_N (128 + (c / 4096) mod 64);
        ascii_of_N (128 + (c / 64) mod 64); ascii_of_N (128 + c mod 64)].

Definition utf8_encode (s : list N) : list ascii := flat_map utf8_encode_char s.

(** The code points of a [str], and the [str] of code points. *)
Definition codepoints (s : string) : list N := utf8_decode (list_ascii_of_string s).
Definition of_codepoints (s : list N) : string := string_of_list_ascii (utf8_encode s).

(** The characters [str.isspace] accepts, which are those [str.strip]
    removes. *)
Definition SPACES : list N :=
  [9; 10; 11; 12; 13; 28; 29; 30; 31; 32; 133; 160; 5760; 8192; 8193; 8194;
   8195; 8196; 8197; 8198; 8199; 8200; 8201; 8202; 8232; 8233; 8239; 8287;
   12288]%N.

(** [str.upper], character by character. The characters that go to one
    character, as runs [(first, last, step, image of first)]: every
    [step]-th character from [first] to [last] goes to the character at the
    same distance from the image of [first]. *)
Definition UPPER_RUNS : list (N * N * N * N) :=
  [(97, 122, 1, 65); (181, 181, 1, 924); (224, 246, 1, 192); (248, 254, 1,
   216); (255, 255, 1, 376); (257, 303, 2, 256); (305, 305, 1, 73); (307, 311,
   2, 306); (314, 328, 2, 313); (331, 375, 2, 330); (378, 382, 2, 377); (383,
   383, 1, 83); (384, 384, 1, 579); (387, 389, 2, 386); (392, 392, 1, 391);
   (396, 396, 1, 395); (402, 402, 1, 401); (405, 405, 1, 502); (409, 409, 1,
   408); (410, 410, 1, 573); (414, 414, 1, 544); (417, 421, 2, 416); (424,
   424, 1, 423); (429, 429, 1, 428); (432, 432, 1, 431); (436, 438, 2, 435);
   (441, 441, 1, 440); (445, 445, 1, 444); (447, 447, 1, 503); (453, 453, 1,
   452); (454, 454, 1, 452); (456, 456, 1, 455); (457, 457, 1, 455); (459,
   459, 1, 458); (460, 460, 1, 458); (462, 476, 2, 461); (477, 477, 1, 398);
   (479, 495, 2, 478); (498, 498, 1, 497); (499, 499, 1, 497); (501, 501, 1,
   500); (505, 543, 2, 504); (547, 563, 2, 546); (572, 572, 1, 571); (575,
   576, 1, 11390); (578, 578, 1, 577); (583, 591, 2, 582); (592, 592, 1,
   11375); (593, 593, 1, 11373); (594, 594, 1, 11376); (595, 595, 1, 385);
   (596, 596, 1, 390); (598, 599, 1, 393); (601, 601, 1, 399); (603, 603, 1,
   400); (604, 604, 1, 42923); (608, 608, 1, 403); (609, 609, 1, 42924); (611,
   611, 1, 404); (613, 613, 1, 42893); (614, 614, 1, 42922); (616, 616, 1,
   407); (617, 617, 1, 406); (618, 618, 1, 42926); (619, 619, 1, 11362); (620,
   620, 1, 42925); (623, 623, 1, 412); (625, 625, 1, 11374); (626, 626, 1,
   413); (629, 629, 1, 415); (637, 637, 1, 11364); (640, 640, 1, 422); (642,
   642, 1, 42949); (643, 643, 1, 425); (647, 647, 1, 42929); (648, 648, 1,
   430); (649, 649, 1, 580); (650, 651, 1, 433); (652, 652, 1, 581); (658,
   658, 1, 439); (669, 669, 1, 42930); (670, 670, 1, 42928); (837, 837, 1,
   921); (881, 883, 2, 880); (887, 887, 1, 886); (891, 893, 1, 1021); (940,
   940, 1, 902); (941, 943, 1, 904); (945, 961, 1, 913); (962, 962, 1, 931);
   (963, 971, 1, 931); (972, 972, 1, 908); (973, 974, 1, 910); (976, 976, 1,
   914); (977, 977, 1, 920); (981, 981, 1, 934); (982, 982, 1, 928); (983,
   983, 1, 975); (985, 1007, 2, 984); (1008, 1008, 1, 922); (1009, 1009, 1,
   929); (1010, 1010, 1, 1017); (1011, 1011, 1, 895); (1013, 1013, 1, 917);
   (1016, 1016, 1, 1015); (1019, 1019, 1, 1018); (1072, 1103, 1, 1040); (1104,
   1119, 1, 1024); (1121, 1153, 2, 1120); (1163, 1215, 2, 1162); (1218, 1230,
   2, 1217); (1231, 1231, 1, 1216); (1233, 1327, 2, 1232); (1377, 1414, 1,
   1329); (4304, 4346, 1, 7312); (4349, 4351, 1, 7357); (5112, 5117, 1, 5104);
   (7296, 7296, 1, 1042); (7297, 7297, 1, 1044); (7298, 7298, 1, 1054); (7299,
   7300, 1, 1057); (7301, 7301, 1, 1058); (7302, 7302, 1, 1066); (7303, 7303,
   1, 1122); (7304, 7304, 1, 42570); (7545, 7545, 1, 42877); (7549, 7549, 1,
   11363); (7566, 7566, 1, 42950); (7681, 7829, 2, 7680); (7835, 7835, 1,
   7776); (7841, 7935, 2, 7840); (7936, 7943, 1, 7944); (7952, 7957, 1, 7960);
   (7968, 7975, 1, 7976); (7984, 7991, 1, 7992); (8000, 8005, 1, 8008); (8017,
   8023, 2, 8025); (8032, 8039, 1, 8040); (8048, 8049, 1, 8122); (8050, 8053,
   1, 8136); (8054, 8055, 1, 8154); (8056, 8057, 1, 8184); (8058, 8059, 1,
   8170); (8060, 8061, 1, 8186); (8112, 8113, 1, 8120); (8126, 8126, 1, 921);
   (8144, 8145, 1, 8152); (8160, 8161, 1, 8168); (8165, 8165, 1, 8172); (8526,
   8526, 1, 8498); (8560, 8575, 1, 8544); (8580, 8580, 1, 8579); (9424, 9449,
   1, 9398); (11312, 11359, 1, 11264); (11361, 11361, 1, 11360); (11365,
   11365, 1, 570); (11366, 11366, 1, 574); (11368, 11372, 2, 11367); (11379,
   11379, 1, 11378); (11382, 11382, 1, 11381); (11393, 11491, 2, 11392);
   (11500, 11502, 2, 11499); (11507, 11507, 1, 11506); (11520, 11557, 1,
   4256); (11559, 11559, 1, 4295); (11565, 11565, 1, 4301); (42561, 42605, 2,
   42560); (42625, 42651, 2, 42624); (42787, 42799, 2, 42786); (42803, 42863,
   2, 42802); (42874, 42876, 2, 42873); (42879, 42887, 2, 42878); (42892,
   42892, 1, 42891); (42897, 42899, 2, 42896); (42900, 42900, 1, 42948);
   (42903, 42921, 2, 42902); (42933, 42947, 2, 42932); (42952, 42954, 2,
   42951); (42961, 42961, 1, 42960); (42967, 42969, 2, 42966); (42998, 42998,
   1, 42997); (43859, 43859, 1, 42931); (43888, 43967, 1, 5024); (65345,
   65370, 1, 65313); (66600, 66639, 1, 66560); (66776, 66811, 1, 66736);
   (66967, 66977, 1, 66928); (66979, 66993, 1, 66940); (66995, 67001, 1,
   66956); (67003, 67004, 1, 66964); (68800, 68850, 1, 68736); (71872, 71903,
   1, 71840); (93792, 93823, 1, 93760); (125218, 125251, 1, 125184)]%N.

(** The characters whose upper case is several characters. *)
Definition UPPER_SPECIAL : list (N * list N) :=
  [(223, [83; 83]); (329, [700; 78]); (496, [74; 780]); (912, [921; 776;
   769]); (944, [933; 776; 769]); (1415, [1333; 1362]); (7830, [72; 817]);
   (7831, [84; 776]); (7832, [87; 778]); (7833, [89; 778]); (7834, [65; 702]);
   (8016, [933; 787]); (8018, [933; 787; 768]); (8020, [933; 787; 769]);
   (8022, [933; 787; 834]); (8064, [7944; 921]); (8065, [7945; 921]); (8066,
   [7946; 921]); (8067, [7947; 921]); (8068, [7948; 921]); (8069, [7949;
   921]); (8070, [7950; 921]); (8071, [7951; 921]); (8072, [7944; 921]);
   (8073, [7945; 921]); (8074, [7946; 921]); (8075, [7947; 921]); (8076,
   [7948; 921]); (8077, [7949; 921]); (8078, [7950; 921]); (8079, [7951;
   921]); (8080, [7976; 921]); (8081, [7977; 921]); (8082, [7978; 921]);
   (8083, [7979; 921]); (8084, [7980; 921]); (8085, [7981; 921]); (8086,
   [7982; 921]); (8087, [7983; 921]); (8088, [7976; 921]); (8089, [7977;
   921]); (8090, [7978; 921]); (8091, [7979; 921]); (8092, [7980; 921]);
   (8093, [7981; 921]); (8094, [7982; 921]); (8095, [7983; 921]); (8096,
   [8040; 921]); (8097, [8041; 921]); (8098, [8042; 921]); (8099, [8043;
   921]); (8100, [8044; 921]); (8101, [8045; 921]); (8102, [8046; 921]);
   (8103, [8047; 921]); (8104, [8040; 921]); (8105, [8041; 921]); (8106,
   [8042; 921]); (8107, [8043; 921]); (8108, [8044; 921]); (8109, [8045;
   921]); (8110, [8046; 921]); (8111, [8047; 921]); (8114, [8122; 921]);
   (8115, [913; 921]); (8116, [902; 921]); (8118, [913; 834]); (8119, [913;
   834; 921]); (8124, [913; 921]); (8130, [8138; 921]); (8131, [919; 921]);
   (8132, [905; 921]); (8134, [919; 834]); (8135, [919; 834; 921]); (8140,
   [919; 921]); (8146, [921; 776; 768]); (8147, [921; 776; 769]); (8150, [921;
   834]); (8151, [921; 776; 834]); (8162, [933; 776; 768]); (8163, [933; 776;
   769]); (8164, [929; 787]); (8166, [933; 834]); (8167, [933; 776; 834]);
   (8178, [8186; 921]); (8179, [937; 921]); (8180, [911; 921]); (8182, [937;
   834]); (8183, [937; 834; 921]); (8188, [937; 921]); (64256, [70; 70]);
   (64257, [70; 73]); (64258, [70; 76]); (64259, [70; 70; 73]); (64260, [70;
   70; 76]); (64261, [83; 84]); (64262, [83; 84]); (64275, [1348; 1350]);
   (64276, [1348; 1333]); (64277, [1348; 1339]); (64278, [1358; 1350]);
   (64279, [1348; 1341])]%N.

Definition py_isspace (c : N) : bool := existsb (N.eqb c) SPACES.

Definition in_run (c : N) (r : N * N * N * N) : bool :=
  let '(first, last, step, _) := r in
  ((first <=? c) && (c <=? last) && ((c - first) mod step =? 0))%N.

Definition upper_char (c : N) : list N :=
  match List.find (fun e : N * list N => (e.1 =? c)%N) UPPER_SPECIAL with
  | Some e => e.2
  | None =>
      match List.find (in_run c) UPPER_RUNS with
      | Some (first, _, _, image) => [(image + (c - first))%N]
      | None => [c]
      end
  end.

Fixpoint lstrip (s : list N) : list N :=
  match s with
  | c :: s' => if py_isspace c then lstrip s' else s
  | [] => []
  end.

Definition rstrip (s : list N) : list N := rev (lstrip (rev s)).

Definition strip (s : list N) : list N := rstrip (lstrip s).

Definition upper (s : list N) : list N := flat_map upper_char s.

Definition py_strip (s : string) : string := of_codepoints (strip (codepoints s)).

Definition py_upper (s : string) : string := of_codepoints (upper (codepoints s)).

(** [symbol.strip().upper()], the normalisation every route applies. *)
Definition normalize (s : string) : string := py_upper (py_strip s).


(** The pairs the two tables stand for. *)
Definition run_points (r : N * N * N * N) : list N :=
  let '(first, last, step, _) := r in
  map (fun i => (first + step * N.of_nat i)%N)
      (seq 0 (S (N.to_nat ((last - first) / step)))).

Definition UPPER_PAIRS : list (N * list N) :=
  UPPER_SPECIAL
  ++ flat_map (fun r => map (fun c => (c, [(r.2 + (c - r.1.1.1))%N])) (run_points r))
              UPPER_RUNS.

(** Four bytes of UTF-8 hold 21 bits. *)
Definition code_limit : N := 2097152.

(** What every upper case in the tables satisfies: it is not empty, has no
    white space, and is its own upper case. *)
Definition upper_ok (l : list N) : bool :=
  negb (bool_decide (l = []))
  && forallb (fun c => negb (py_isspace c) && (c <? code_limit)%N) l
  && bool_decide (flat_map upper_char l = l).

(** [core] is [s] without the white space around it. *)
Definition trimmed (s core : list N) : Prop :=
  exists pre post,
    s = pre ++ core ++ post /\
    forallb py_isspace pre = true /\ forallb py_isspace post = true /\
    (forall c, head core = Some c -> py_isspace c = false) /\
    (forall c, last core = Some c -> py_isspace c = false).

(** The same letter in either case: equal, or one the upper case of the
    other. *)
Definition same_letter (a b : N) : Prop :=
  a = b \/ upper_char a = [b] \/ upper_char b = [a].

(** Two form values that differ only in letter case and in surrounding
    white space. *)
Definition same_ticker (s t : string) : Prop :=
  exists pre post pre' post' c c',
    codepoints s = pre ++ c ++ post /\
    codepoints t = pre' ++ c' ++ post' /\
    forallb py_isspace pre = true /\ forallb py_isspace post = true /\
    forallb py_isspace pre' = true /\ forallb py_isspace post' = true /\
    Forall2 same_letter c c'.

(** ** float *)

(** [float(n)] for a Python int, and the implicit conversion in [x * n] and
    [x / n]: correctly rounded to nearest-even, OverflowError when the result
    does not fit a double. *)
Definition round_int (n : Z) : float :=
  SF2Prim (binary_normalize prec emax n 0 false).

Definition py_float_of_int (n : Z) : result float :=
  let f := round_int n in
  if is_infinity f then raise OverflowError else ok f.

(** [x * n] with [x] a float and [n] an int. *)
Definition mul_float_int (x : float) (n : Z) : result float :=
  (f <~ py_float_of_int n ;; ok (x * f)%float)%py.

(** [n * x] with [n] an int and [x] a float. *)
Definition mul_int_float (n : Z) (x : float) : result float :=
  (f <~ py_float_of_int n ;; ok (f * x)%float)%py.

(** [x / n] with [x] a float and [n] an int: ZeroDivisionError on [n = 0]. *)
Definition div_float_int (x : float) (n : Z) : result float :=
  (f <~ py_float_of_int n ;;
   if (f =? 0)%float then raise ZeroDivisionError else ok (x / f)%float)%py.

(** The literal [1e-9] of the sufficiency check, as the double Python reads. *)
Definition tolerance : float := 0x1.12e0be826d695p-30%float.

(** ** Two decimals *)

(** The integer nearest to [num / den], a tie going to the even one. *)
Definition round_half_even (num den : Z) : Z :=
  let n := num / den in
  match 2 * (num mod den) ?= den with
  | Lt => n
  | Gt => n + 1
  | Eq => if Z.even n then n else n + 1
  end.

(** The magnitude of a finite double in hundredths, correctly rounded. *)
Definition hundredths (x : float) : Z :=
  match Prim2SF x with
  | S754_finite _ m e =>
      if 0 <=? e then 100 * Zpos m * 2 ^ e
      else round_half_even (100 * Zpos m) (2 ^ (- e))
  | _ => 0
  end.

Definition decimal (n : Z) : string := NilZero.string_of_uint (N.to_uint (Z.to_N n)).

Definition digit (n : Z) : ascii := ascii_of_N (48 + Z.to_N n).

(** The format specification [.2f]. *)
Definition py_format_2f (x : float) : string :=
  if is_nan x then "nan"
  else if is_infinity x then (if get_sign x then "-inf" else "inf")
  else
    let h := hundredths x in
    ((if get_sign x then "-" else "") ++ decimal (h / 100) ++ "."
     ++ String (digit (h mod 100 / 10)) (String (digit (h mod 10)) ""))%string.

(** The builtin [round(x, 2)]: the double nearest to the decimal with two
    places nearest to [x]. Below 2^53 hundredths that decimal is the quotient
    of two doubles, which the division rounds correctly; from there on the
    doubles are more than 0.01 apart and the nearest one is [x] itself. *)
Definition py_round2 (x : float) : float :=
  if is_nan x || is_infinity x then x
  else
    let h := hundredths x in
    let r := if h <? 2 ^ 53 then (round_int h / 100)%float else abs x in
    if get_sign x then (- r)%float else r.

(* ================================================================== *)
(** * The SQLite database *)

Variant tx_type := deposit | buy_tx | sell_tx.

(** A row of [transactions]; NULL columns are [None]. *)
Record transaction := Transaction {
  tx_user : Z;
  tx_kind : tx_type;
  tx_symbol : option string;
  tx_qty : option Z;
  tx_price : option float;
  tx_timestamp : string
}.

(** A row of [portfolio] without its key [(user_id, symbol)]. *)
Record position := Position {
  qty : Z;
  avg_price : float
}.

Record db := Db {
  wallet : gmap Z float;                      (* user_id -> balance *)
  portfolio : gmap (Z * string) position;     (* UNIQUE(user_id, symbol) *)
  transactions : list transaction             (* oldest first *)
}.

(** What a REAL column gives back for a double stored in it: a double that
    is a whole number is kept as that integer, so [-0.0] comes back as [0.0];
    every other double comes back as it is. *)
Definition real_column (x : float) : float :=
  if (x =? 0)%float then 0%float else x.

(** SQLite has no NaN: a NaN parameter binds as NULL and a NaN result of
    arithmetic is NULL. *)
Definition sql_real (x : float) : option float :=
  if is_nan x then None else Some (real_column x).

(** A value for a [REAL NOT NULL] column. *)
Definition real_not_null (x : float) : result float :=
  match sql_real x with
  | Some y => ok y
  | None => raise IntegrityError
  end.

Definition in_int64 (n : Z) : bool :=
  (- 2 ^ 63 <=? n) && (n <? 2 ^ 63).

(** sqlite3 binds a Python int to a 64-bit INTEGER or raises. *)
Definition sql_int (n : Z) : result Z :=
  if in_int64 n then ok n else raise OverflowError.

(** [UPDATE wallet SET balance = balance + ? WHERE user_id = ?] *)
Definition wallet_credit (uid : Z) (amount : float) (d : db) : result db :=
  match wallet d !! uid with
  | None => ok d
  | Some b =>
      (b' <~ real_not_null (b + amount)%float ;;
       ok (Db (<[uid := b']> (wallet d)) (portfolio d) (transactions d)))%py
  end.

(** [UPDATE wallet SET balance = balance - ? WHERE user_id = ?] *)
Definition wallet_debit (uid : Z) (amount : float) (d : db) : result db :=
  match wallet d !! uid with
  | None => ok d
  | Some b =>
      (b' <~ real_not_null (b - amount)%float ;;
       ok (Db (<[uid := b']> (wallet d)) (portfolio d) (transactions d)))%py
  end.

(** [SELECT qty, avg_price FROM portfolio WHERE user_id = ? AND symbol = ?] *)
Definition select_position (uid : Z) (symbol : string) (d : db) : option position :=
  portfolio d !! (uid, symbol).

(** [UPDATE portfolio SET qty = ?, avg_price = ? WHERE user_id = ? AND symbol = ?]
    and [INSERT INTO portfolio (user_id,symbol,qty,avg_price) VALUES (?,?,?,?)];
    each is only run where the row is present, respectively absent. *)
Definition put_position (uid : Z) (symbol : string) (q : Z) (avg : float)
    (d : db) : result db :=
  (q' <~ sql_int q ;;
   avg' <~ real_not_null avg ;;
   ok (Db (wallet d) (<[(uid, symbol) := Position q' avg']> (portfolio d))
          (transactions d)))%py.

(** [UPDATE portfolio SET qty = ? WHERE user_id = ? AND symbol = ?] *)
Definition set_position_qty (uid : Z) (symbol : string) (q : Z) (d : db) : result db :=
  (q' <~ sql_int q ;;
   ok (Db (wallet d)
          (alter (fun p => Position q' (avg_price p)) (uid, symbol) (portfolio d))
          (transactions d)))%py.

(** [DELETE FROM portfolio WHERE user_id = ? AND symbol = ?] *)
Definition delete_position (uid : Z) (symbol : string) (d : db) : db :=
  Db (wallet d) (delete (uid, symbol) (portfolio d)) (transactions d).

(** [INSERT INTO transactions (user_id,type,symbol,qty,price,timestamp)
    VALUES (?,?,?,?,?,?)] *)
Definition insert_transaction (uid : Z) (kind : tx_type) (symbol : option string)
    (q : option Z) (price : float) (ts : string) (d : db) : result db :=
  (q' <~ match q with
         | Some n => (n' <~ sql_int n ;; ok (Some n'))
         | None => ok None
         end ;;
   ok (Db (wallet d) (portfolio d)
          (transactions d ++ [Transaction uid kind symbol q' (sql_real price) ts])))%py.

(** ** Connections and commits *)

(** The durable database and every snapshot that was ever committed, oldest
    first. *)
Record world := World {
  current : db;
  commits : list db
}.

(** [get_db()]: a connection starts from the durable state. *)
Definition get_db (w : world) : db := current w.

(** [conn.commit()] *)
Definition commit (conn : db) (w : world) : world :=
  World conn (commits w ++ [conn]).

(* ================================================================== *)
(** * Utilities of the application *)

Definition FALLBACK_PRICES : gmap string float :=
  list_to_map
    [("AAPL"%string, 180%float); ("TSLA"%string, 250%float);
     ("GOOGL"%string, 140%float); ("AMZN"%string, 155%float);
     ("MSFT"%string, 320%float); ("META"%string, 220%float)].

(** [float(FALLBACK_PRICES.get(symbol, 0.0))] *)
Definition fallback_price (symbol : string) : float :=
  default 0%float (FALLBACK_PRICES !! symbol).

(** What the [try] block of [get_live_price] meets in yfinance. *)
Variant yf_outcome :=
  | YfHistory (close : float)       (* history is not empty: its last Close *)
  | YfFastInfo (last_price : float) (* history empty, fast_info has last_price *)
  | YfNoData                        (* neither *)
  | YfRaised.                       (* any exception, swallowed *)

Definition yfinance := string -> yf_outcome.

Definition get_live_price (yf : yfinance) (symbol : string) : float :=
  let symbol := normalize symbol in
  match yf symbol with
  | YfHistory close => close
  | YfFastInfo last_price => last_price
  | YfNoData | YfRaised => fallback_price symbol
  end.

(** [record_transaction]: its own connection and its own commit. *)
Definition record_transaction (uid : Z) (kind : tx_type) (symbol : option string)
    (q : option Z) (price : float) (ts : string) (w : world) : result world :=
  (conn <~ insert_transaction uid kind symbol q price ts (get_db w) ;;
   ok (commit conn w))%py.

Definition get_wallet_balance (uid : Z) (w : world) : float :=
  default 0%float (wallet (get_db w) !! uid).

(* ================================================================== *)
(** * Routes *)

(** What the caller sees: the flashed message, or the escaped exception. *)
Variant response :=
  | InvalidAmount        (* "Enter positive amount" / "Invalid amount" *)
  | Deposited            (* "Added ... to wallet" *)
  | InvalidQuantity      (* "Enter positive integer quantity" *)
  | InsufficientFunds    (* "Insufficient wallet balance ..." *)
  | Bought               (* "Bought ..." *)
  | NoSuchPosition       (* "You do not own this stock" *)
  | InsufficientShares   (* "You don't have that many shares" *)
  | Sold                 (* "Sold ..." *)
  | InternalError (e : exn).

(** The request environment: the logged-in user, yfinance, the clock. *)
Record env := Env {
  current_user : Z;
  yf : yfinance;
  utcnow : string
}.

(** A route that ends by an exception leaves the world as the last commit
    left it: the writes of the connection it abandons are never committed.
    (SQLite rolls them back, and frees the write lock, when that connection
    is closed, which CPython does once nothing refers to it any more; the
    requests modelled here come after that.) *)
Definition finish (w : world) (r : result (response * world)) : response * world :=
  match r with
  | inr rw => rw
  | inl e => (InternalError e, w)
  end.

(** [wallet_add]; [amount] is [float(request.form.get("amount","0"))], [None]
    when that raises. *)
Definition wallet_add (E : env) (amount : option float) (w : world) : response * world :=
  match amount with
  | None => (InvalidAmount, w)
  | Some amount =>
      if (amount <=? 0)%float then (InvalidAmount, w)
      else
        match wallet_credit (current_user E) amount (get_db w) with
        | inl e => (InternalError e, w)
        | inr conn =>
            let w1 := commit conn w in
            finish w1
              (w2 <~ record_transaction (current_user E) deposit None None amount
                       (utcnow E) w1 ;;
               ok (Deposited, w2))%py
        end
  end.

(** The price [buy] resolves for an already normalised symbol. *)
Definition buy_price (E : env) (symbol source : string) : float :=
  if bool_decide (source = "auto"%string \/ source = "live"%string)
  then get_live_price (yf E) symbol
  else fallback_price symbol.

(** The statements [buy] runs on its connection before the commit. *)
Definition buy_statements (E : env) (symbol : string) (q : Z) (price cost : float)
    (conn : db) : result db :=
  let uid := current_user E in
  (conn <~ wallet_debit uid cost conn ;;
   conn <~ match select_position uid symbol conn with
           | Some row =>
               let existing_qty := qty row in
               let existing_avg := avg_price row in
               let new_qty := existing_qty + q in
               (a <~ mul_int_float existing_qty existing_avg ;;
                b <~ mul_int_float q price ;;
                new_avg <~ div_float_int (a + b)%float new_qty ;;
                put_position uid symbol new_qty new_avg conn)
           | None => put_position uid symbol q price conn
           end ;;
   insert_transaction uid buy_tx (Some symbol) (Some q) price (utcnow E) conn)%py.

(** The row a committed buy leaves for its symbol, given the row it found. *)
Definition bought_row (found : option position) (q : Z) (price : float)
    (pos : position) : Prop :=
  match found with
  | None => pos = Position q (real_column price)
  | Some row =>
      exists a b new_avg,
        mul_int_float (qty row) (avg_price row) = inr a /\
        mul_int_float q price = inr b /\
        div_float_int (a + b)%float (qty row + q) = inr new_avg /\
        pos = Position (qty row + q) (real_column new_avg)
  end.

(** [buy]; [q] is [int(request.form.get("qty","0"))], [None] when that
    raises. *)
Definition buy (E : env) (symbol : string) (q : option Z) (source : string)
    (w : world) : response * world :=
  let symbol := normalize symbol in
  match q with
  | None => (InvalidQuantity, w)
  | Some q =>
      if q <=? 0 then (InvalidQuantity, w)
      else
        let price := buy_price E symbol source in
        finish w
          (cost <~ mul_float_int price q ;;
           let balance := get_wallet_balance (current_user E) w in
           if (balance + tolerance <? cost)%float then ok (InsufficientFunds, w)
           else
             (conn <~ buy_statements E symbol q price cost (get_db w) ;;
              ok (Bought, commit conn w)))%py
  end.

(** The statements [sell] runs once the row passed both checks. *)
Definition sell_statements (E : env) (symbol : string) (q : Z) (row : position)
    (price proceeds : float) (conn : db) : result db :=
  let uid := current_user E in
  let remaining := qty row - q in
  (conn <~ (if remaining =? 0 then ok (delete_position uid symbol conn)
            else set_position_qty uid symbol remaining conn) ;;
   conn <~ wallet_credit uid proceeds conn ;;
   insert_transaction uid sell_tx (Some symbol) (Some q) price (utcnow E) conn)%py.

(** [sell] *)
Definition sell (E : env) (symbol : string) (q : option Z) (w : world)
    : response * world :=
  let symbol := normalize symbol in
  match q with
  | None => (InvalidQuantity, w)
  | Some q =>
      if q <=? 0 then (InvalidQuantity, w)
      else
        let conn := get_db w in
        match select_position (current_user E) symbol conn with
        | None => (NoSuchPosition, w)
        | Some row =>
            if qty row <? q then (InsufficientShares, w)
            else
              let price := get_live_price (yf E) symbol in
              finish w
                (proceeds <~ mul_float_int price q ;;
                 conn <~ sell_statements E symbol q row price proceeds conn ;;
                 ok (Sold, commit conn w))%py
        end
  end.

(* ================================================================== *)
(** * Read-only views *)

(** The order of TEXT values (collation BINARY): byte by byte, a prefix
    first. *)
Fixpoint text_le (s t : string) : bool :=
  match s, t with
  | EmptyString, _ => true
  | String _ _, EmptyString => false
  | String a s', String b t' =>
      (N_of_ascii a <? N_of_ascii b)%N
      || (N_of_ascii a =? N_of_ascii b)%N && text_le s' t'
  end.

Fixpoint insert_by_symbol (r : string * position) (rows : list (string * position))
    : list (string * position) :=
  match rows with
  | [] => [r]
  | r' :: rest =>
      if text_le r.1 r'.1 then r :: rows else r' :: insert_by_symbol r rest
  end.

(** The rows in the order of their symbols. *)
Definition by_symbol (rows : list (string * position)) : list (string * position) :=
  fold_right insert_by_symbol [] rows.

(** [SELECT symbol,qty,avg_price FROM portfolio WHERE user_id = ?]: SQLite
    finds the rows through the index of UNIQUE(user_id, symbol), so they come
    in the order of their symbols. *)
Definition select_positions (uid : Z) (d : db) : list (string * position) :=
  by_symbol
    (omap (fun kp : Z * string * position =>
             if decide (kp.1.1 = uid) then Some (kp.1.2, kp.2) else None)
          (map_to_list (portfolio d))).

(** Every held quantity converts to a double (as every 64-bit integer does). *)
Definition rows_convert (rows : list (string * position)) : bool :=
  forallb (fun r => negb (is_infinity (round_int (qty r.2)))) rows.

(** The profit/loss of one row as [portfolio] computes it:
    [value = price * qty; cost = avg * qty; pl = value - cost]. *)
Definition portfolio_pl (price : float) (q : Z) (avg : float) : result float :=
  (value <~ mul_float_int price q ;;
   cost <~ mul_float_int avg q ;;
   ok (value - cost)%float)%py.

(** The profit/loss of one row as [api_profit] computes it:
    [pl = (price - avg) * qty]. *)
Definition profit_pl (price : float) (q : Z) (avg : float) : result float :=
  mul_float_int (price - avg)%float q.

Section Views.

(** The format specification [.2f] and the builtin [round(x, 2)]. *)
Variable format_2f : float -> string.
Variable round2 : float -> float.

(** An entry of [items]. *)
Record item := Item {
  item_symbol : string;
  item_qty : Z;
  item_avg : string;
  item_price : string;
  item_value : string;
  item_pl : string
}.

Record portfolio_page := PortfolioPage {
  page_items : list item;
  page_wallet : float;
  page_total_value : string;
  page_total_cost : string
}.

(** The body of the [for r in rows] loop of [portfolio]. *)
Fixpoint portfolio_loop (E : env) (rows : list (string * position))
    (items : list item) (total_value total_cost : float)
    : result (list item * float * float) :=
  match rows with
  | [] => ok (items, total_value, total_cost)
  | r :: rows' =>
      let symbol := r.1 in
      let q := qty r.2 in
      let avg := avg_price r.2 in
      let price := get_live_price (yf E) symbol in
      (value <~ mul_float_int price q ;;
       cost <~ mul_float_int avg q ;;
       let pl := (value - cost)%float in
       portfolio_loop E rows'
         (items ++ [Item symbol q (format_2f avg) (format_2f price)
                         (format_2f value) (format_2f pl)])
         (total_value + value)%float (total_cost + cost)%float)%py
  end.

Definition portfolio_view (E : env) (w : world) : result portfolio_page :=
  let rows := select_positions (current_user E) (get_db w) in
  (r <~ portfolio_loop E rows [] 0%float 0%float ;;
   let '(items, total_value, total_cost) := r in
   ok (PortfolioPage items (get_wallet_balance (current_user E) w)
                     (format_2f total_value) (format_2f total_cost)))%py.

(** The body of the [for r in rows] loop of [api_profit]. *)
Fixpoint api_profit_loop (E : env) (rows : list (string * position))
    (labels : list string) (data : list float)
    : result (list string * list float) :=
  match rows with
  | [] => ok (labels, data)
  | r :: rows' =>
      let symbol := r.1 in
      let q := qty r.2 in
      let avg := avg_price r.2 in
      let price := get_live_price (yf E) symbol in
      (pl <~ mul_float_int (price - avg)%float q ;;
       api_profit_loop E rows' (labels ++ [symbol]) (data ++ [round2 pl]))%py
  end.

Definition api_profit (E : env) (w : world) : result (list string * list float) :=
  api_profit_loop E (select_positions (current_user E) (get_db w)) [] [].

(** The entry [portfolio] appends for a row whose quantity converts. *)
Definition portfolio_item (E : env) (r : string * position) : item :=
  let price := get_live_price (yf E) r.1 in
  let f := round_int (qty r.2) in
  let avg := avg_price r.2 in
  Item r.1 (qty r.2) (format_2f avg) (format_2f price)
       (format_2f (price * f)) (format_2f (price * f - avg * f)).

(** The point [api_profit] appends for a row whose quantity converts. *)
Definition profit_point (E : env) (r : string * position) : float :=
  round2 ((get_live_price (yf E) r.1 - avg_price r.2) * round_int (qty r.2)).

End Views.

(* ================================================================== *)
(** * Sequences of requests *)

Variant request :=
  | Deposit (amount : option float)
  | Buy (symbol : string) (q : option Z) (source : string)
  | Sell (symbol : string) (q : option Z).

Definition handle (E : env) (r : request) (w : world) : response * world :=
  match r with
  | Deposit amount => wallet_add E amount w
  | Buy symbol q source => buy E symbol q source w
  | Sell symbol q => sell E symbol q w
  end.

Fixpoint run (reqs : list (env * request)) (w : world) : world :=
  match reqs with
  | [] => w
  | (E, r) :: reqs' => run reqs' (snd (handle E r w))
  end.

(** A balance the comparison [0 <= b] accepts. *)
Definition nonneg (b : float) : Prop := (0 <=? b)%float = true.

Definition nonneg_wallets (d : db) : Prop :=
  forall uid b, wallet d !! uid = Some b -> nonneg b.

(** Every balance that was ever durable is non-negative. *)
Definition never_negative (w : world) : Prop :=
  nonneg_wallets (current w) /\ Forall nonneg_wallets (commits w).

(** The request is a buy whose cost falls in the tolerance of the check:
    above the balance it is checked against, yet not above that balance plus
    [1e-9]. *)
Definition in_tolerance_zone (E : env) (r : request) (w : world) : bool :=
  match r with
  | Buy symbol (Some q) source =>
      match mul_float_int (buy_price E (normalize symbol) source) q with
      | inr cost =>
          let balance := get_wallet_balance (current_user E) w in
          (balance <? cost)%float && negb (balance + tolerance <? cost)%float
      | inl _ => false
      end
  | _ => false
  end.

(** No request of the sequence is one, in the world it is made in. *)
Fixpoint none_in_tolerance_zone (reqs : list (env * request)) (w : world) : bool :=
  match reqs with
  | [] => true
  | (E, r) :: reqs' =>
      negb (in_tolerance_zone E r w)
      && none_in_tolerance_zone reqs' (snd (handle E r w))
  end.

(** yfinance quotes no negative price and no NaN. *)
Definition quotes_nonneg (E : env) : Prop :=
  forall symbol, nonneg (get_live_price (yf E) symbol).

(** ** Exact values *)

(** The rational a finite double stands for (0 for infinities and NaN). *)
Definition Q_of_float (x : float) : Q :=
  match Prim2SF x with
  | S754_finite s m e =>
      let v := if (0 <=? e)%Z then inject_Z (Zpos m * 2 ^ e) else Zpos m # (2 ^ Z.to_pos (- e)) in
      if s then Qopp v else v
  | _ => 0%Q
  end.

(** ** Signs of specified floats *)

(** Zeros of either sign, positive finite numbers and [+inf]. *)
Definition sf_nonneg (x : spec_float) : bool :=
  match x with
  | S754_zero _ => true
  | S754_infinity s => negb s
  | S754_nan => false
  | S754_finite s _ _ => negb s
  end.

Definition sf_is_nan (x : spec_float) : bool :=
  match x with
  | S754_nan => true
  | _ => false
  end.

Definition sf_is_inf (x : spec_float) : bool :=
  match x with
  | S754_infinity _ => true
  | _ => false
  end.

(* ================================================================== *)
(** * The other routes and helpers of the ledger *)

(** [ensure_wallet]: [INSERT OR IGNORE INTO wallet (user_id,balance)
    VALUES (?,0.0)], then commit. *)
Definition ensure_wallet (uid : Z) (w : world) : world :=
  let conn := get_db w in
  commit (match wallet conn !! uid with
          | Some _ => conn
          | None => Db (<[uid := 0%float]> (wallet conn)) (portfolio conn)
                       (transactions conn)
          end) w.

(** A row of [SELECT type,symbol,qty,price,timestamp FROM transactions]. *)
Definition tx_row (t : transaction)
    : tx_type * option string * option Z * option float * string :=
  (tx_kind t, tx_symbol t, tx_qty t, tx_price t, tx_timestamp t).

(** The rows the route [transactions] hands to its template:
    [... WHERE user_id = ? ORDER BY id DESC]. *)
Definition transactions_view (E : env) (w : world)
    : list (tx_type * option string * option Z * option float * string) :=
  map tx_row
      (rev (filter (fun t => tx_user t = current_user E) (transactions (get_db w)))).

(** [list(FALLBACK_PRICES.keys())]: the keys in the order of the literal. *)
Definition FALLBACK_KEYS : list string :=
  ["AAPL"; "TSLA"; "GOOGL"; "AMZN"; "MSFT"; "META"]%string.

(** The loop [for sym in user_symbols: if sym not in popular:
    popular.append(sym)] of [home]. *)
Fixpoint add_user_symbols (user_symbols popular : list string) : list string :=
  match user_symbols with
  | [] => popular
  | sym :: rest =>
      add_user_symbols rest
        (if bool_decide (sym ∈ popular) then popular else popular ++ [sym])
  end.

(** The symbols [home] quotes: the fallback keys, then the user's other
    symbols, cut to 12. *)
Definition home_popular (uid : Z) (d : db) : list string :=
  take 12 (add_user_symbols (map fst (select_positions uid d)) FALLBACK_KEYS).

Section Home.

(** The format [f"${x:,.2f}"]. *)
Variable format_money : float -> string.

(** [home]: the quoted symbols and the wallet balance given to the
    template. *)
Definition home (E : env) (w : world) : list (string * string) * float :=
  (map (fun s => (s, format_money (get_live_price (yf E) s)))
       (home_popular (current_user E) (get_db w)),
   get_wallet_balance (current_user E) w).

End Home.

(** ** Accounts: the table [users] and the session *)

(** A row of [users]. *)
Record user := User {
  user_id : Z;
  username : string;
  password_hash : string
}.

(** The whole application state: the table [users] in rowid order, the
    largest id AUTOINCREMENT ever gave ([sqlite_sequence]), the id flask-login
    keeps in the session, and the three ledger tables with their commits. *)
Record site := Site {
  users : list user;
  users_seq : Z;
  session : option Z;
  ledger : world
}.

(** [SELECT ... FROM users WHERE username = ?] *)
Definition find_user (name : string) (us : list user) : option user :=
  List.find (fun u => bool_decide (username u = name)) us.

(** [SELECT ... FROM users WHERE id = ?] *)
Definition user_by_id (uid : Z) (us : list user) : option user :=
  List.find (fun u => bool_decide (user_id u = uid)) us.

Definition max_id (us : list user) : Z :=
  fold_right (fun u m => Z.max (user_id u) m) 0 us.

(** The largest rowid that ever existed in [users]. *)
Definition largest_id (s : site) : Z := Z.max (users_seq s) (max_id (users s)).

Variant auth_response :=
  | FieldsRequired       (* "username & password required" *)
  | Registered           (* "Registered ..." *)
  | UsernameTaken        (* "Username taken" / "Username already taken" *)
  | TableFull            (* SQLITE_FULL escapes: no rowid is left *)
  | Welcome              (* "Welcome, ..." *)
  | InvalidCredentials   (* "Invalid credentials" *)
  | LoggedOut            (* "Logged out" *)
  | LoginRequired        (* login_required sends the visitor to the login page *)
  | Renamed              (* "Username updated ..." *)
  | ProfilePage (taken : bool) (name balance : string)
                         (* the profile page, after the flash "already taken" or not *)
  | ProfileError.        (* TypeError while rendering the profile page *)

(** [register] on POST; [pw_hash] is what [generate_password_hash(password)]
    returned. *)
Definition register (pw_hash form_username form_password : string) (s : site)
    : auth_response * site :=
  let name := py_strip form_username in
  if bool_decide (name = ""%string) || bool_decide (form_password = ""%string)
  then (FieldsRequired, s)
  else if 2 ^ 63 - 1 <=? largest_id s then (TableFull, s)
  else
    match find_user name (users s) with
    | Some _ => (UsernameTaken, s)
    | None =>
        let uid := largest_id s + 1 in
        let w1 := commit (get_db (ledger s)) (ledger s) in
        let s1 := Site (users s ++ [User uid name pw_hash]) uid (session s) w1 in
        match wallet (get_db w1) !! uid with
        | Some _ => (UsernameTaken, s1)
        | None =>
            (Registered,
             Site (users s1) uid (session s)
                  (commit (Db (<[uid := 0%float]> (wallet (get_db w1)))
                              (portfolio (get_db w1)) (transactions (get_db w1)))
                          w1))
        end
    end.

Section Login.

(** werkzeug's [check_password_hash(pwhash, password)]. *)
Variable check_password_hash : string -> string -> bool.

(** [login] on POST. *)
Definition login (form_username form_password : string) (s : site)
    : auth_response * site :=
  let name := py_strip form_username in
  match find_user name (users s) with
  | Some row =>
      if check_password_hash (password_hash row) form_password
      then (Welcome,
            Site (users s) (users_seq s) (Some (user_id row))
                 (ensure_wallet (user_id row) (ledger s)))
      else (InvalidCredentials, s)
  | None => (InvalidCredentials, s)
  end.

End Login.

(** [load_user]: the user flask-login rebuilds from the id in the session,
    [None] when no row has that id. *)
Definition load_user (uid : Z) (s : site) : option user :=
  user_by_id uid (users s).

(** [current_user.id] where [login_required] lets the request through. *)
Definition logged_in (s : site) : option Z :=
  match session s with
  | Some uid => option_map user_id (load_user uid s)
  | None => None
  end.

(** [logout] *)
Definition logout (s : site) : auth_response * site :=
  match logged_in s with
  | None => (LoginRequired, s)
  | Some _ => (LoggedOut, Site (users s) (users_seq s) None (ledger s))
  end.

(** [UPDATE users SET username = ? WHERE id = ?]: [None] is the
    IntegrityError of the UNIQUE constraint. *)
Definition rename_user (uid : Z) (newname : string) (us : list user)
    : option (list user) :=
  if existsb (fun u => bool_decide (username u = newname) &&
                       negb (bool_decide (user_id u = uid))) us &&
     existsb (fun u => bool_decide (user_id u = uid)) us
  then None
  else Some (map (fun u => if bool_decide (user_id u = uid)
                           then User (user_id u) newname (password_hash u)
                           else u) us).

Section Profile.

Variable format_2f : float -> string.

(** The page of [profile]: [SELECT u.username, w.balance FROM users u LEFT
    JOIN wallet w ...]; formatting a missing row or a NULL balance raises. *)
Definition profile_page (taken : bool) (uid : Z) (s : site) : auth_response :=
  match user_by_id uid (users s), wallet (get_db (ledger s)) !! uid with
  | Some row, Some balance => ProfilePage taken (username row) (format_2f balance)
  | _, _ => ProfileError
  end.

(** [profile]; [form_username] is [None] on GET. *)
Definition profile (form_username : option string) (s : site)
    : auth_response * site :=
  match logged_in s with
  | None => (LoginRequired, s)
  | Some uid =>
      match form_username with
      | None => (profile_page false uid s, s)
      | Some form_username =>
          let newname := py_strip form_username in
          if bool_decide (newname = ""%string) then (profile_page false uid s, s)
          else
            match rename_user uid newname (users s) with
            | Some us =>
                (Renamed,
                 Site us (users_seq s) None
                      (commit (get_db (ledger s)) (ledger s)))
            | None => (profile_page true uid s, s)
            end
      end
  end.

End Profile.

(** ** The application as one state machine *)

Variant site_request :=
  | Register (pw_hash form_username form_password : string)
  | Login (form_username form_password : string)
  | Logout
  | Profile (form_username : option string)
  | Ledger (quotes : yfinance) (now : string) (r : request).

Section Site.

Variable check_password_hash : string -> string -> bool.
Variable format_2f : float -> string.

(** One request; the ledger routes are behind [login_required] and act for
    the logged-in user. *)
Definition site_step (q : site_request) (s : site) : site :=
  match q with
  | Register pw_hash u p => snd (register pw_hash u p s)
  | Login u p => snd (login check_password_hash u p s)
  | Logout => snd (logout s)
  | Profile u => snd (profile format_2f u s)
  | Ledger quotes now r =>
      match logged_in s with
      | Some uid =>
          Site (users s) (users_seq s) (session s)
               (snd (handle (Env uid quotes now) r (ledger s)))
      | None => s
      end
  end.

Definition site_run (qs : list site_request) (s : site) : site :=
  fold_left (fun s q => site_step q s) qs s.

End Site.

(** Accounts as the application keeps them: distinct ids not above the
    sequence, distinct user names, and no wallet without a user. *)
Definition site_ok (s : site) : Prop :=
  NoDup (map user_id (users s)) /\
  NoDup (map username (users s)) /\
  (forall u, u ∈ users s -> user_id u <= users_seq s) /\
  (forall uid, is_Some (wallet (current (ledger s)) !! uid) ->
               uid ∈ map user_id (users s)).

(** ** Answers over a sequence of requests *)

Fixpoint responses (reqs : list (env * request)) (w : world) : list response :=
  match reqs with
  | [] => []
  | (E, r) :: reqs' => fst (handle E r w) :: responses reqs' (snd (handle E r w))
  end.

(** The answers of a request that was carried out. *)
Definition succeeded (r : response) : bool :=
  match r with
  | Deposited | Bought | Sold => true
  | _ => false
  end.

(** The record a request logs when it is carried out. *)
Definition logged (E : env) (r : request) : transaction :=
  let uid := current_user E in
  match r with
  | Deposit amount =>
      Transaction uid deposit None None (amount ≫= sql_real) (utcnow E)
  | Buy symbol q source =>
      Transaction uid buy_tx (Some (normalize symbol)) q
        (sql_real (buy_price E (normalize symbol) source)) (utcnow E)
  | Sell symbol q =>
      Transaction uid sell_tx (Some (normalize symbol)) q
        (sql_real (get_live_price (yf E) (normalize symbol))) (utcnow E)
  end.

(** ** Well-formed ledgers *)

(** A position as the data model has it: a positive 64-bit quantity, a
    non-negative average cost, under a normalised symbol. *)
Definition position_ok (k : Z * string) (p : position) : Prop :=
  0 < qty p /\ in_int64 (qty p) = true /\ nonneg (avg_price p) /\
  normalize k.2 = k.2.

Definition positions_ok (d : db) : Prop :=
  forall k p, portfolio d !! k = Some p -> position_ok k p.

(** Every snapshot that was ever durable satisfies [P]. *)
Definition always (P : db -> Prop) (w : world) : Prop :=
  P (current w) /\ Forall P (commits w).

(** NaN or not negative: what products, sums and quotients of non-negative
    doubles are. *)
Definition sf_nan_or_nonneg (x : spec_float) : bool := sf_is_nan x || sf_nonneg x.

(** A zero, a finite number or an infinity with the sign bit clear. *)
Definition sf_plus (x : spec_float) : bool :=
  match x with
  | S754_zero s | S754_infinity s | S754_finite s _ _ => negb s
  | S754_nan => false
  end.

(* ================================================================== *)
(** * Reference values used by the examples *)

Module Examples.

(** A registered user with an empty wallet and nothing else. *)
Definition fresh : world := World (Db (<[1 := 0%float]> ∅) ∅ []) [].

(** yfinance unreachable: every quote comes from the fallback table. *)
Definition offline : env := Env 1 (fun _ => YfRaised) "2024-01-01T00:00:00".

(** yfinance answering one price for every symbol. *)
Definition quoting (p : float) : env :=
  Env 1 (fun _ => YfHistory p) "2024-01-02T00:00:00".

(** [fresh] after a deposit of [amount]. *)
Definition funded (amount : float) : world :=
  snd (wallet_add offline (Some amount) fresh).

(** The double Python reads for [179.9999999995]. *)
Definition just_below_180 : float := 0x1.67fffffffbb48p+7%float.

(** [funded 1000] after buying 5 AAPL at the fallback price 180. *)
Definition holding5 : world :=
  snd (buy offline "AAPL" (Some 5) "fixed" (funded 1000)).

(** [funded 1000] after buying 1 AAPL quoted 180 and then 2 quoted 181. *)
Definition averaged : world :=
  snd (buy (quoting 181) "AAPL" (Some 2) "auto"
           (snd (buy (quoting 180) "AAPL" (Some 1) "auto" (funded 1000)))).

(** The average cost [averaged] holds: the double next below 542/3. *)
Definition avg_542_3 : float := 0x1.6955555555555p+7%float.

End Examples.

Module Cases.

(** Two users: user 1 with 100 in the wallet, user 2 with 50 and one TSLA
    share bought at 250. *)
Definition two_users : world :=
  World (Db (<[1 := 100%float]> (<[2 := 50%float]> ∅))
            (<[(2, "TSLA"%string) := Position 1 250]> ∅)
            [Transaction 2 deposit None None (Some 300%float) "2024-01-01T00:00:00";
             Transaction 2 buy_tx (Some "TSLA"%string) (Some 1) (Some 250%float)
                         "2024-01-01T00:00:01"])
        [].

(** A logged-in user whose wallet row is missing. *)
Definition no_wallet : world := World (Db ∅ ∅ []) [].

(** User 1 holding AAPL and eight symbols outside the fallback table. *)
Definition many_symbols : db :=
  Db (<[1 := 0%float]> ∅)
     (list_to_map
        (map (fun s : string => ((1, s), Position 1 10))
             ["IBM"; "ORCL"; "NFLX"; "NVDA"; "INTC"; "AMD"; "CSCO"; "ADBE"; "AAPL"]%string))
     [].

(** The application before anyone registered. *)
Definition empty_site : site := Site [] 0 None (World (Db ∅ ∅ []) []).

(** A password check that accepts the hash "h:" followed by the password. *)
Definition toy_check (pwhash password : string) : bool :=
  bool_decide (pwhash = ("h:" ++ password)%string).

(** [empty_site] after "ann" and "bob" registered. *)
Definition two_accounts : site :=
  snd (register "h:pw2" "bob" "pw2" (snd (register "h:pw1" " ann " "pw1" empty_site))).

End Cases.

(* ================================================================== *)
(** * Basic facts about results and statements *)

Lemma bind_ok {A B} (r : result A) (k : A -> result B) (b : B) :
  bind r k = inr b -> exists a, r = inr a /\ k a = inr b.
Proof. destruct r as [e|a]; simpl; [discriminate | eauto]. Qed.

Lemma real_not_null_ok (x y : float) :
  real_not_null x = inr y <-> is_nan x = false /\ y = real_column x.
Proof.
  unfold real_not_null, sql_real. destruct (is_nan x); simpl; split.
  - discriminate.
  - intros [? _]; discriminate.
  - intros [= <-]; auto.
  - intros [_ ->]; reflexivity.
Qed.

Lemma sql_int_ok (n m : Z) : sql_int n = inr m <-> in_int64 n = true /\ m = n.
Proof.
  unfold sql_int. destruct (in_int64 n); simpl; split.
  - intros [= <-]; auto.
  - intros [_ ->]; reflexivity.
  - discriminate.
  - intros [? _]; discriminate.
Qed.

Lemma py_float_of_int_ok (n : Z) (f : float) :
  py_float_of_int n = inr f -> f = round_int n.
Proof.
  unfold py_float_of_int. destruct (is_infinity (round_int n)); [discriminate|].
  now intros [= <-].
Qed.

(** ** UTF-8 *)

Lemma utf8_byte (n : N) : (n < 256)%N -> N_of_ascii (ascii_of_N n) = n.
Proof. apply N_ascii_embedding. Qed.

Lemma utf8_decode_encode_char (c : N) (rest : list ascii) :
  (c < code_limit)%N ->
  utf8_decode (utf8_encode_char c ++ rest) = c :: utf8_decode rest.
Proof.
  unfold code_limit. intros Hc. unfold utf8_encode_char.
  replace (c / 262144)%N with (c / 64 / 64 / 64)%N by (now rewrite !N.Div0.div_div).
  replace (c / 4096)%N with (c / 64 / 64)%N by (now rewrite N.Div0.div_div).
  pose proof (N.div_mod' c 64) as H1. pose proof (N.mod_lt c 64 ltac:(discriminate)) as M1.
  pose proof (N.div_mod' (c / 64) 64) as H2.
  pose proof (N.mod_lt (c / 64) 64 ltac:(discriminate)) as M2.
  pose proof (N.div_mod' (c / 64 / 64) 64) as H3.
  pose proof (N.mod_lt (c / 64 / 64) 64 ltac:(discriminate)) as M3.
  generalize dependent ((c / 64 / 64) mod 64)%N. intros m3.
  generalize dependent (c / 64 / 64 / 64)%N. intros d3.
  generalize dependent ((c / 64) mod 64)%N. intros m2.
  generalize dependent (c / 64 / 64)%N. intros d2.
  generalize dependent (c mod 64)%N. intros m1.
  generalize dependent (c / 64)%N. intros d1. intros.
  destruct (N.ltb_spec c 128); [|destruct (N.ltb_spec c 2048); [|destruct (N.ltb_spec c 65536)]];
    cbn [app utf8_decode]; rewrite !utf8_byte by lia; unfold utf8_cont;
    repeat match goal with
           | |- context [N.ltb ?a ?b] => destruct (N.ltb_spec a b); try (exfalso; lia)
           | |- context [N.leb ?a ?b] => destruct (N.leb_spec a b); try (exfalso; lia)
           end;
    cbn [negb andb orb]; f_equal; lia.
Qed.

Lemma utf8_decode_encode (s : list N) :
  Forall (fun c => (c < code_limit)%N) s -> utf8_decode (utf8_encode s) = s.
Proof.
  induction 1 as [|c s Hc _ IH]; [reflexivity|].
  unfold utf8_encode. simpl. fold (utf8_encode s).
  now rewrite utf8_decode_encode_char, IH.
Qed.

Lemma utf8_decode_bound (bs : list ascii) :
  Forall (fun c => (c < code_limit)%N) (utf8_decode bs).
Proof.
  unfold code_limit.
  assert (H : forall n bs, (length bs <= n)%nat ->
                           Forall (fun c => (c < 2097152)%N) (utf8_decode bs)).
  { clear bs. induction n as [|n IH]; intros bs Hn.
    { destruct bs; [constructor | simpl in Hn; lia]. }
    destruct bs as [|b1 rest1]; [constructor|]. simpl in Hn.
    cbn [utf8_decode]. unfold utf8_cont.
    pose proof (N_ascii_bounded b1) as B1.
    assert (Halone : Forall (fun c => (c < 2097152)%N)
                       (N_of_ascii b1 :: utf8_decode rest1)).
    { constructor; [lia | apply IH; lia]. }
    generalize dependent (N_of_ascii b1 :: utf8_decode rest1). intros alone Halone.
    destruct (N.ltb_spec (N_of_ascii b1) 192); [exact Halone|].
    destruct rest1 as [|b2 rest2]; [exact Halone|]. simpl in Hn.
    pose proof (N_ascii_bounded b2) as B2.
    destruct (N.leb_spec 128 (N_of_ascii b2)); [|exact Halone].
    destruct (N.ltb_spec (N_of_ascii b2) 192); [|exact Halone]. cbn [andb negb].
    destruct (N.ltb_spec (N_of_ascii b1) 224).
    { constructor; [lia | apply IH; lia]. }
    destruct rest2 as [|b3 rest3]; [exact Halone|]. simpl in Hn.
    pose proof (N_ascii_bounded b3) as B3.
    destruct (N.leb_spec 128 (N_of_ascii b3)); [|exact Halone].
    destruct (N.ltb_spec (N_of_ascii b3) 192); [|exact Halone]. cbn [andb negb].
    destruct (N.ltb_spec (N_of_ascii b1) 240).
    { constructor; [lia | apply IH; lia]. }
    destruct rest3 as [|b4 rest4]; [exact Halone|]. simpl in Hn.
    pose proof (N_ascii_bounded b4) as B4.
    destruct (N.leb_spec 128 (N_of_ascii b4)); [|exact Halone].
    destruct (N.ltb_spec (N_of_ascii b4) 192); [|exact Halone]. cbn [andb negb orb].
    destruct (N.leb_spec 248 (N_of_ascii b1)); [exact Halone|].
    constructor; [lia | apply IH; lia]. }
  now apply (H (length bs)).
Qed.

Lemma codepoints_of_codepoints (s : list N) :
  Forall (fun c => (c < code_limit)%N) s -> codepoints (of_codepoints s) = s.
Proof.
  intros H. unfold codepoints, of_codepoints.
  now rewrite list_ascii_of_string_of_list_ascii, utf8_decode_encode.
Qed.

Lemma codepoints_bound (s : string) :
  Forall (fun c => (c < code_limit)%N) (codepoints s).
Proof. apply utf8_decode_bound. Qed.

(** ** The case-mapping table *)

Lemma in_run_points (c : N) (r : N * N * N * N) :
  r.1.2 <> 0%N -> in_run c r = true -> In c (run_points r).
Proof.
  destruct r as [[[first last] step] image]. unfold in_run, run_points.
  cbn [fst snd]. intros Hstep.
  intros [[H1 H2]%andb_prop H3]%andb_prop.
  apply N.leb_le in H1, H2. apply N.eqb_eq in H3.
  pose proof (N.div_mod' (c - first) step) as Hd. rewrite H3, N.add_0_r in Hd.
  assert (Hle : ((c - first) / step <= (last - first) / step)%N)
    by (apply N.Div0.div_le_mono; lia).
  apply in_map_iff. exists (N.to_nat ((c - first) / step)). split.
  - rewrite N2Nat.id, <- Hd. lia.
  - apply in_seq.
    generalize dependent ((c - first) / step)%N. intros d _ Hd.
    generalize dependent ((last - first) / step)%N. intros e He. lia.
Qed.

Lemma upper_char_cases (c : N) :
  upper_char c = [c] \/ In (c, upper_char c) UPPER_PAIRS.
Proof.
  unfold upper_char, UPPER_PAIRS.
  destruct (List.find _ UPPER_SPECIAL) as [[c' l]|] eqn:Hs.
  - right. apply find_some in Hs as [Hin Hc]. simpl in Hc.
    apply N.eqb_eq in Hc. subst c'. apply in_or_app. now left.
  - destruct (List.find (in_run c) UPPER_RUNS) as [[[[first last] step] image]|] eqn:Hr;
      [|now left].
    right. apply find_some in Hr as [Hin Hc]. apply in_or_app. right.
    apply in_flat_map. eexists. split; [exact Hin|].
    apply in_map_iff. exists c. split; [reflexivity|].
    apply in_run_points; [|exact Hc].
    assert (Hall : forallb (fun r : N * N * N * N => negb (r.1.2 =? 0)%N) UPPER_RUNS = true)
      by (vm_compute; reflexivity).
    rewrite forallb_forall in Hall. apply Hall in Hin.
    apply negb_true_iff, N.eqb_neq in Hin. exact Hin.
Qed.

Lemma upper_pairs_ok : forallb (fun p => upper_ok p.2) UPPER_PAIRS = true.
Proof. vm_compute. reflexivity. Qed.

Lemma spaces_keep : forallb (fun c => bool_decide (upper_char c = [c])) SPACES = true.
Proof. vm_compute. reflexivity. Qed.

(** A white-space character has no upper case of its own. *)
Lemma upper_char_space (c : N) : py_isspace c = true -> upper_char c = [c].
Proof.
  unfold py_isspace. intros (c' & Hin & ->%N.eqb_eq)%existsb_exists.
  pose proof spaces_keep as H. rewrite forallb_forall in H.
  apply H in Hin. now apply bool_decide_eq_true in Hin.
Qed.

Lemma upper_pair_ok (c : N) (l : list N) :
  In (c, l) UPPER_PAIRS ->
  l <> [] /\ Forall (fun c' => py_isspace c' = false /\ (c' < code_limit)%N) l /\
  flat_map upper_char l = l.
Proof.
  intros Hin. pose proof upper_pairs_ok as H. rewrite forallb_forall in H.
  apply H in Hin. unfold upper_ok in Hin. simpl in Hin.
  apply andb_prop in Hin as [[H1 H2]%andb_prop H3].
  apply negb_true_iff, bool_decide_eq_false in H1. apply bool_decide_eq_true in H3.
  repeat split; try assumption.
  apply Forall_forall. intros c' Hc'. rewrite forallb_forall in H2.
  apply list_elem_of_In, H2 in Hc'. apply andb_prop in Hc' as [Hs Hl].
  apply negb_true_iff in Hs. apply N.ltb_lt in Hl. auto.
Qed.

(** Upper-casing a character twice is upper-casing it once. *)
Lemma upper_char_idem (c : N) : flat_map upper_char (upper_char c) = upper_char c.
Proof.
  destruct (upper_char_cases c) as [H | Hin].
  - rewrite H. simpl. now rewrite H.
  - now apply upper_pair_ok in Hin.
Qed.

(** The upper case of a character that is not white space: at least one
    character, none of them white space. *)
Lemma upper_char_nonspace (c : N) :
  py_isspace c = false ->
  upper_char c <> [] /\ Forall (fun c' => py_isspace c' = false) (upper_char c).
Proof.
  intros Hc. destruct (upper_char_cases c) as [H | Hin].
  - rewrite H. split; [discriminate | now repeat constructor].
  - apply upper_pair_ok in Hin as (H1 & H2 & _). split; [exact H1|].
    eapply Forall_impl; [exact H2|]. now intros c' [? _].
Qed.

Lemma upper_char_bound (c : N) :
  (c < code_limit)%N -> Forall (fun c' => (c' < code_limit)%N) (upper_char c).
Proof.
  intros Hc. destruct (upper_char_cases c) as [H | Hin].
  - rewrite H. now repeat constructor.
  - apply upper_pair_ok in Hin as (_ & H2 & _).
    eapply Forall_impl; [exact H2|]. now intros c' [_ ?].
Qed.

(** ** strip and upper *)

Lemma upper_app (s t : list N) : upper (s ++ t) = upper s ++ upper t.
Proof. apply flat_map_app. Qed.

Lemma upper_idem (s : list N) : upper (upper s) = upper s.
Proof.
  induction s as [|c s IH]; [reflexivity|].
  change (upper (c :: s)) with (upper_char c ++ upper s).
  rewrite upper_app, IH. f_equal. apply upper_char_idem.
Qed.

Lemma upper_bound (s : list N) :
  Forall (fun c => (c < code_limit)%N) s -> Forall (fun c => (c < code_limit)%N) (upper s).
Proof.
  induction 1 as [|c s Hc _ IH]; [constructor|].
  change (upper (c :: s)) with (upper_char c ++ upper s).
  apply Forall_app. split; [now apply upper_char_bound | exact IH].
Qed.

Lemma lstrip_head (s : list N) :
  lstrip s = [] \/ exists c t, lstrip s = c :: t /\ py_isspace c = false.
Proof.
  induction s as [|c s IH]; simpl; [now left|].
  destruct (py_isspace c) eqn:Hc; [exact IH | right; eauto].
Qed.

Lemma lstrip_nonspace (c : N) (s : list N) :
  py_isspace c = false -> lstrip (c :: s) = c :: s.
Proof. intros H. simpl. now rewrite H. Qed.

Lemma lstrip_upper (s : list N) : lstrip (upper s) = upper (lstrip s).
Proof.
  induction s as [|c s IH]; [reflexivity|].
  change (upper (c :: s)) with (upper_char c ++ upper s).
  destruct (py_isspace c) eqn:Hc.
  - rewrite (upper_char_space c Hc). simpl. now rewrite Hc.
  - rewrite (lstrip_nonspace c s Hc).
    change (upper (c :: s)) with (upper_char c ++ upper s).
    destruct (upper_char_nonspace c Hc) as [Hne Hall].
    destruct (upper_char c) as [|c' l]; [now elim Hne|].
    apply Forall_cons in Hall as [Hc' _]. simpl. now rewrite Hc'.
Qed.

Lemma lstrip_spaces_app (pre s : list N) :
  forallb py_isspace pre = true -> lstrip (pre ++ s) = lstrip s.
Proof.
  induction pre as [|c pre IH]; simpl; [reflexivity|].
  intros [Hc Hpre]%andb_prop. rewrite Hc. auto.
Qed.

Lemma lstrip_spaces (s : list N) : forallb py_isspace s = true -> lstrip s = [].
Proof.
  intros H. rewrite <- (app_nil_r s), lstrip_spaces_app by assumption. reflexivity.
Qed.

Lemma lstrip_app_cases (s post : list N) :
  lstrip (s ++ post) = lstrip s ++ post \/
  (lstrip s = [] /\ lstrip (s ++ post) = lstrip post).
Proof.
  induction s as [|c s IH]; simpl.
  - right; auto.
  - destruct (py_isspace c); [exact IH | left; reflexivity].
Qed.

Lemma rstrip_snoc (s : list N) (c : N) :
  rstrip (s ++ [c]) = if py_isspace c then rstrip s else s ++ [c].
Proof.
  unfold rstrip. rewrite rev_app_distr. simpl.
  destruct (py_isspace c); [reflexivity|]. simpl. now rewrite rev_involutive.
Qed.

Lemma rstrip_app_nonspace (s t : list N) (c : N) :
  py_isspace c = false -> rstrip (s ++ t ++ [c]) = s ++ t ++ [c].
Proof. intros H. now rewrite app_assoc, rstrip_snoc, H. Qed.

Lemma rstrip_app_spaces (s post : list N) :
  forallb py_isspace post = true -> rstrip (s ++ post) = rstrip s.
Proof.
  intros H. unfold rstrip. rewrite rev_app_distr, lstrip_spaces_app; [reflexivity|].
  rewrite forallb_forall in *. intros c Hc. apply H. now apply in_rev.
Qed.

Lemma rstrip_upper (s : list N) : rstrip (upper s) = upper (rstrip s).
Proof.
  induction s as [|c s IH] using rev_ind; [reflexivity|].
  rewrite upper_app, rstrip_snoc. simpl. rewrite app_nil_r.
  destruct (py_isspace c) eqn:Hc.
  - rewrite (upper_char_space c Hc), rstrip_snoc, Hc. exact IH.
  - rewrite upper_app. simpl. rewrite app_nil_r.
    destruct (upper_char_nonspace c Hc) as [Hne Hall].
    destruct (exists_last Hne) as (l & c' & Hl). rewrite Hl in *.
    apply Forall_app in Hall as [_ Hc']. apply Forall_cons in Hc' as [Hc' _].
    now apply rstrip_app_nonspace.
Qed.

Lemma strip_upper (s : list N) : strip (upper s) = upper (strip s).
Proof. unfold strip. now rewrite lstrip_upper, rstrip_upper. Qed.

Lemma strip_padding (pre s post : list N) :
  forallb py_isspace pre = true -> forallb py_isspace post = true ->
  strip (pre ++ s ++ post) = strip s.
Proof.
  intros Hpre Hpost. unfold strip.
  rewrite lstrip_spaces_app by assumption.
  destruct (lstrip_app_cases s post) as [-> | [Hs ->]].
  - now apply rstrip_app_spaces.
  - rewrite Hs, lstrip_spaces by assumption. reflexivity.
Qed.

Lemma lstrip_idem (s : list N) : lstrip (lstrip s) = lstrip s.
Proof.
  destruct (lstrip_head s) as [-> | (c & t & -> & Hc)]; [reflexivity|].
  simpl. now rewrite Hc.
Qed.

Lemma rstrip_cons (c : N) (t : list N) :
  py_isspace c = false -> rstrip (c :: t) = c :: rstrip t.
Proof.
  intros Hc. unfold rstrip. simpl rev.
  assert (H : lstrip (rev t ++ [c]) = lstrip (rev t) ++ [c]).
  { destruct (lstrip_app_cases (rev t) [c]) as [H | [H0 H]]; [exact H|].
    rewrite H, H0. simpl. now rewrite Hc. }
  rewrite H, rev_app_distr. reflexivity.
Qed.

Lemma rstrip_idem (s : list N) : rstrip (rstrip s) = rstrip s.
Proof. unfold rstrip. now rewrite rev_involutive, lstrip_idem. Qed.

Lemma strip_idem (s : list N) : strip (strip s) = strip s.
Proof.
  unfold strip.
  destruct (lstrip_head s) as [-> | (c & t & -> & Hc)]; [reflexivity|].
  rewrite (rstrip_cons c t Hc). simpl lstrip. rewrite Hc.
  rewrite <- (rstrip_cons c t Hc). apply rstrip_idem.
Qed.

Lemma lstrip_sublist (s : list N) : forall c, In c (lstrip s) -> In c s.
Proof.
  induction s as [|a s IH]; simpl; [tauto|].
  destruct (py_isspace a); [intros c Hc; right; now apply IH | tauto].
Qed.

Lemma strip_bound (s : list N) :
  Forall (fun c => (c < code_limit)%N) s -> Forall (fun c => (c < code_limit)%N) (strip s).
Proof.
  rewrite !Forall_forall. intros H c Hc. apply list_elem_of_In in Hc.
  unfold strip, rstrip in Hc. apply in_rev, lstrip_sublist, in_rev, lstrip_sublist in Hc.
  apply H. now apply list_elem_of_In.
Qed.

(** The code points of a normalised symbol. *)
Lemma codepoints_normalize (s : string) :
  codepoints (normalize s) = upper (strip (codepoints s)).
Proof.
  unfold normalize, py_upper, py_strip.
  rewrite (codepoints_of_codepoints (strip (codepoints s)))
    by apply strip_bound, codepoints_bound.
  apply codepoints_of_codepoints, upper_bound, strip_bound, codepoints_bound.
Qed.

Lemma normalize_unfold (s : string) :
  normalize s = of_codepoints (upper (strip (codepoints s))).
Proof.
  unfold normalize, py_upper, py_strip.
  rewrite codepoints_of_codepoints; [reflexivity|].
  apply strip_bound, codepoints_bound.
Qed.

Lemma normalize_idem (s : string) : normalize (normalize s) = normalize s.
Proof.
  rewrite (normalize_unfold (normalize s)), codepoints_normalize.
  rewrite strip_upper, upper_idem, strip_idem. symmetry. apply normalize_unfold.
Qed.

(** ** What strip removes *)

Lemma lstrip_split (s : list N) :
  exists pre, s = pre ++ lstrip s /\ forallb py_isspace pre = true.
Proof.
  induction s as [|c s (pre & Hs & Hpre)]; [now exists []|]. simpl.
  destruct (py_isspace c) eqn:Hc.
  - exists (c :: pre). simpl. rewrite Hc, Hpre. split; [now rewrite <- Hs | reflexivity].
  - now exists [].
Qed.

Lemma rstrip_split (s : list N) :
  exists post, s = rstrip s ++ post /\ forallb py_isspace post = true.
Proof.
  unfold rstrip. destruct (lstrip_split (rev s)) as (pre & Hs & Hpre).
  exists (rev pre). split.
  - rewrite <- rev_app_distr, <- Hs. now rewrite rev_involutive.
  - rewrite forallb_forall in *. intros c Hc. apply Hpre. now apply in_rev.
Qed.

Lemma lstrip_fixed (s : list N) :
  (forall c, head s = Some c -> py_isspace c = false) -> lstrip s = s.
Proof.
  destruct s as [|c s]; [reflexivity|]. intros H. simpl. now rewrite (H c).
Qed.

Lemma rstrip_fixed (s : list N) :
  (forall c, last s = Some c -> py_isspace c = false) -> rstrip s = s.
Proof.
  destruct s as [|c s _] using rev_ind; [reflexivity|].
  intros H. rewrite rstrip_snoc, (H c); [reflexivity|]. apply last_snoc.
Qed.

Lemma strip_trimmed (s : list N) : trimmed s (strip s).
Proof.
  unfold strip.
  destruct (lstrip_split s) as (pre & Hs & Hpre).
  destruct (rstrip_split (lstrip s)) as (post & Ht & Hpost).
  exists pre, post. split; [now rewrite <- Ht|]. split; [exact Hpre|]. split; [exact Hpost|].
  split.
  - destruct (lstrip_head s) as [-> | (c & t & -> & Hc)]; [discriminate|].
    rewrite (rstrip_cons c t Hc). now intros c' [= <-].
  - unfold rstrip.
    destruct (lstrip_head (rev (lstrip s))) as [-> | (c & t & -> & Hc)]; [discriminate|].
    simpl. rewrite last_snoc. now intros c' [= <-].
Qed.

Lemma trimmed_strip (s core : list N) : trimmed s core -> strip s = core.
Proof.
  intros (pre & post & -> & Hpre & Hpost & Hh & Hl).
  rewrite strip_padding by assumption. unfold strip.
  rewrite (lstrip_fixed core Hh). now apply rstrip_fixed.
Qed.

Lemma same_letter_upper (a b : N) : same_letter a b -> upper_char a = upper_char b.
Proof.
  intros [-> | [H | H]]; [reflexivity | |].
  - pose proof (upper_char_idem a) as Hi. rewrite H in Hi. simpl in Hi.
    rewrite app_nil_r in Hi. now rewrite Hi.
  - pose proof (upper_char_idem b) as Hi. rewrite H in Hi. simpl in Hi.
    rewrite app_nil_r in Hi. now rewrite Hi.
Qed.

Lemma same_letters_upper (c c' : list N) : Forall2 same_letter c c' -> upper c = upper c'.
Proof.
  induction 1 as [|a b c c' Hab _ IH]; [reflexivity|].
  change (upper_char a ++ upper c = upper_char b ++ upper c').
  now rewrite (same_letter_upper a b Hab), IH.
Qed.

Lemma normalize_same_ticker (s t : string) :
  same_ticker s t -> normalize s = normalize t.
Proof.
  intros (pre & post & pre' & post' & c & c' & Hs & Ht & H1 & H2 & H3 & H4 & Hc).
  rewrite !normalize_unfold, Hs, Ht, !strip_padding by assumption.
  now rewrite <- !strip_upper, (same_letters_upper c c' Hc).
Qed.

(* ================================================================== *)
(** * Signs in double arithmetic *)

Section Signs.

Local Abbreviation sf_round_aux := (binary_round_aux prec emax).

Lemma shr_1_nonneg (mrs : shr_record) : 0 <= shr_m mrs -> 0 <= shr_m (shr_1 mrs).
Proof. destruct mrs as [[|[p|p|]|p] r s]; simpl; lia. Qed.

Lemma iter_shr_1_nonneg (p : positive) (mrs : shr_record) :
  0 <= shr_m mrs -> 0 <= shr_m (SpecFloat.iter_pos shr_1 p mrs).
Proof.
  revert mrs. induction p as [p IH | p IH |]; intros mrs H; simpl.
  - apply IH, IH, shr_1_nonneg, H.
  - apply IH, IH, H.
  - apply shr_1_nonneg, H.
Qed.

Lemma shr_fexp_nonneg (m e : Z) (l : location) :
  0 <= m -> 0 <= shr_m (fst (shr_fexp prec emax m e l)).
Proof.
  intros Hm. unfold shr_fexp, shr.
  assert (H0 : 0 <= shr_m (shr_record_of_loc m l)).
  { destruct l as [|[]]; simpl; exact Hm. }
  destruct (fexp prec emax (Zdigits2 m + e) - e); simpl; try exact H0.
  now apply iter_shr_1_nonneg.
Qed.

Lemma round_nearest_even_nonneg (m : Z) (l : location) :
  0 <= m -> 0 <= round_nearest_even m l.
Proof.
  intros Hm. destruct l as [|[]]; simpl; try lia. destruct (Z.even m); lia.
Qed.

(** Rounding a non-negative mantissa never gives a negative double. *)
Lemma binary_round_aux_nonneg (m e : Z) (l : location) :
  0 <= m -> sf_nonneg (sf_round_aux false m e l) = true.
Proof.
  intros Hm. unfold binary_round_aux.
  pose proof (shr_fexp_nonneg m e l Hm) as H1.
  destruct (shr_fexp prec emax m e l) as [mrs' e']. simpl in H1.
  pose proof (shr_fexp_nonneg _ e' loc_Exact
                (round_nearest_even_nonneg _ (loc_of_shr_record mrs') H1)) as H2.
  destruct (shr_fexp prec emax _ e' loc_Exact) as [mrs'' e'']. simpl in H2.
  destruct (shr_m mrs'') as [|p|p]; [reflexivity | | lia].
  destruct (e'' <=? emax - prec); reflexivity.
Qed.

Lemma binary_round_nonneg (m : positive) (e : Z) :
  sf_nonneg (binary_round prec emax false m e) = true.
Proof.
  unfold binary_round. destruct (shl_align m e _) as [mz ez].
  now apply binary_round_aux_nonneg.
Qed.

Lemma binary_normalize_nonneg (m e : Z) :
  0 <= m -> sf_nonneg (binary_normalize prec emax m e false) = true.
Proof.
  intros Hm. destruct m as [|p|p]; simpl; [reflexivity | | lia].
  apply binary_round_nonneg.
Qed.

Lemma SFadd_nonneg (x y : spec_float) :
  sf_nonneg x = true -> sf_nonneg y = true -> sf_nonneg (SF64add x y) = true.
Proof.
  intros Hx Hy.
  destruct x as [sx|[]| |[] mx ex], y as [sy|[]| |[] my ey];
    try discriminate Hx; try discriminate Hy; try reflexivity.
  - destruct sx, sy; reflexivity.
  - unfold SF64add, SFadd. apply binary_normalize_nonneg. simpl. lia.
Qed.

Lemma SFmul_nonneg (x y : spec_float) :
  sf_nonneg x = true -> sf_nonneg y = true ->
  sf_is_nan (SF64mul x y) || sf_nonneg (SF64mul x y) = true.
Proof.
  intros Hx Hy.
  destruct x as [sx|[]| |[] mx ex], y as [sy|[]| |[] my ey];
    try discriminate Hx; try discriminate Hy; try reflexivity.
  unfold SF64mul, SFmul, xorb.
  rewrite binary_round_aux_nonneg by lia. apply orb_true_r.
Qed.

(** ** Comparison of valid doubles *)

Lemma digits2_pos_bounds (m : positive) :
  2 ^ (Zpos (digits2_pos m) - 1) <= Zpos m < 2 ^ Zpos (digits2_pos m).
Proof.
  induction m as [m IH | m IH |]; simpl digits2_pos.
  - rewrite Pos2Z.inj_succ, Z.pow_succ_r by lia.
    replace (Z.succ (Zpos (digits2_pos m)) - 1) with (Z.succ (Zpos (digits2_pos m) - 1)) by lia.
    rewrite Z.pow_succ_r by lia. lia.
  - rewrite Pos2Z.inj_succ, Z.pow_succ_r by lia.
    replace (Z.succ (Zpos (digits2_pos m)) - 1) with (Z.succ (Zpos (digits2_pos m) - 1)) by lia.
    rewrite Z.pow_succ_r by lia. lia.
  - simpl. lia.
Qed.

Lemma iter_xO_ge (m d : positive) : 2 * Zpos m <= Zpos (Pos.iter xO m d).
Proof.
  induction d as [|d IH] using Pos.peano_ind.
  - simpl. lia.
  - rewrite Pos.iter_succ. lia.
Qed.

Lemma bounded_digits (m : positive) (e : Z) :
  bounded prec emax m e = true ->
  Zpos (digits2_pos m) <= 53 /\ -1074 <= e /\
  (-1074 < e -> Zpos (digits2_pos m) = 53).
Proof.
  unfold bounded, canonical_mantissa, fexp, SpecFloat.emin, prec, emax.
  intros [H _]%andb_prop. apply Z.eqb_eq in H. lia.
Qed.

(** Two valid positive doubles, the first not below the second: aligned on
    the smaller exponent, the first mantissa is not below the second. *)
Lemma aligned_mantissa_le (mb : positive) (eb : Z) (mc : positive) (ec : Z) :
  bounded prec emax mb eb = true -> bounded prec emax mc ec = true ->
  SFltb (S754_finite false mb eb) (S754_finite false mc ec) = false ->
  Zpos (fst (shl_align mc ec (Z.min eb ec))) <= Zpos (fst (shl_align mb eb (Z.min eb ec))).
Proof.
  intros (Hdb & Heb & Hnb)%bounded_digits (Hdc & Hec & Hnc)%bounded_digits.
  unfold SFltb, SFcompare, shl_align.
  destruct (Z.compare_spec eb ec) as [-> | Hlt | Hgt]; try discriminate.
  - rewrite Z.min_id, Z.sub_diag. simpl.
    rewrite Pos.compare_cont_spec. simpl.
    destruct (Pos.compare_spec mb mc); try discriminate; intros _; lia.
  - intros _. rewrite Z.min_r by lia. rewrite Z.sub_diag. simpl.
    destruct (ec - eb) as [|d|d] eqn:Hd; try lia. simpl.
    pose proof (iter_xO_ge mb d) as Hge.
    pose proof (digits2_pos_bounds mb) as Hb.
    pose proof (digits2_pos_bounds mc) as Hc.
    rewrite Hnb in Hb by lia.
    assert (2 ^ Zpos (digits2_pos mc) <= 2 ^ 53) by (apply Z.pow_le_mono_r; lia).
    change (2 ^ (53 - 1)) with 4503599627370496 in Hb.
    change (2 ^ 53) with 9007199254740992 in *. lia.
Qed.

(** [b - c] for a non-negative [b] that is not below [c]. *)
Lemma SFsub_nonneg (b c : spec_float) :
  valid_binary b = true -> valid_binary c = true ->
  sf_nonneg b = true -> SFltb b c = false ->
  sf_is_nan (SF64sub b c) || sf_nonneg (SF64sub b c) = true.
Proof.
  intros Hvb Hvc Hb Hlt.
  destruct b as [sb|[]| |[] mb eb], c as [sc|[]| |[] mc ec];
    try discriminate Hb; try discriminate Hlt; try reflexivity.
  - destruct sb, sc; reflexivity.
  - unfold SF64sub, SFsub.
    rewrite binary_normalize_nonneg; [apply orb_true_r | simpl; lia].
  - pose proof (aligned_mantissa_le mb eb mc ec Hvb Hvc Hlt).
    unfold SF64sub, SFsub.
    rewrite binary_normalize_nonneg; [apply orb_true_r | simpl; lia].
Qed.

(** ** Magnitude of a rounded 63-bit integer *)

Lemma shr_1_le (mrs : shr_record) : 0 <= shr_m mrs -> shr_m (shr_1 mrs) <= shr_m mrs.
Proof. destruct mrs as [[|[p|p|]|p] r s]; simpl; lia. Qed.

Lemma iter_shr_1_le (p : positive) (mrs : shr_record) :
  0 <= shr_m mrs -> shr_m (SpecFloat.iter_pos shr_1 p mrs) <= shr_m mrs.
Proof.
  revert mrs. induction p as [p IH | p IH |]; intros mrs H; simpl.
  - pose proof (shr_1_nonneg mrs H) as H1. pose proof (shr_1_le mrs H).
    pose proof (iter_shr_1_nonneg p _ H1) as H2. pose proof (IH _ H1).
    pose proof (IH _ H2). lia.
  - pose proof (iter_shr_1_nonneg p _ H) as H1. pose proof (IH _ H).
    pose proof (IH _ H1). lia.
  - now apply shr_1_le.
Qed.

Lemma shr_fexp_le (m e : Z) (l : location) :
  0 <= m -> shr_m (fst (shr_fexp prec emax m e l)) <= m.
Proof.
  intros Hm. unfold shr_fexp, shr.
  assert (H0 : shr_m (shr_record_of_loc m l) = m) by (destruct l as [|[]]; reflexivity).
  destruct (fexp prec emax (Zdigits2 m + e) - e); simpl; try lia.
  rewrite <- H0 at 2. apply iter_shr_1_le. lia.
Qed.

Lemma shr_fexp_exp (m e : Z) (l : location) :
  snd (shr_fexp prec emax m e l) = Z.max e (fexp prec emax (Zdigits2 m + e)).
Proof.
  unfold shr_fexp, shr.
  destruct (fexp prec emax (Zdigits2 m + e) - e) eqn:H; simpl; lia.
Qed.

Lemma round_nearest_even_le (m : Z) (l : location) : round_nearest_even m l <= m + 1.
Proof. destruct l as [|[]]; simpl; try lia. destruct (Z.even m); lia. Qed.

Lemma Zdigits2_le (z d : Z) : 0 <= d -> 0 <= z < 2 ^ d -> Zdigits2 z <= d.
Proof.
  intros Hd [Hz Hlt]. destruct z as [|p|p]; simpl; try lia.
  pose proof (digits2_pos_bounds p) as [Hlo _].
  destruct (Z_le_gt_dec (Zpos (digits2_pos p)) d) as [|Hgt]; [assumption|].
  assert (2 ^ d <= 2 ^ (Zpos (digits2_pos p) - 1)) by (apply Z.pow_le_mono_r; lia).
  lia.
Qed.

Lemma fexp_le (k : Z) : fexp prec emax k <= Z.max (k - 53) (-1074).
Proof. unfold fexp, SpecFloat.emin, prec, emax. lia. Qed.

(** Rounding a mantissa below 2^63 at a non-positive exponent stays finite. *)
Lemma binary_round_aux_finite (s : bool) (m e : Z) :
  0 <= m < 2 ^ 63 -> e <= 0 ->
  sf_is_inf (binary_round_aux prec emax s m e loc_Exact) = false.
Proof.
  intros Hm He. unfold binary_round_aux.
  pose proof (shr_fexp_le m e loc_Exact (proj1 Hm)) as Hle1.
  pose proof (shr_fexp_nonneg m e loc_Exact (proj1 Hm)) as Hge1.
  pose proof (shr_fexp_exp m e loc_Exact) as He1.
  destruct (shr_fexp prec emax m e loc_Exact) as [mrs' e']. simpl in *.
  set (m2 := round_nearest_even (shr_m mrs') (loc_of_shr_record mrs')).
  assert (Hm2 : 0 <= m2 < 2 ^ 64).
  { pose proof (round_nearest_even_le (shr_m mrs') (loc_of_shr_record mrs')).
    pose proof (round_nearest_even_nonneg _ (loc_of_shr_record mrs') Hge1).
    change (2 ^ 63) with 9223372036854775808 in Hm.
    change (2 ^ 64) with 18446744073709551616. subst m2. lia. }
  pose proof (shr_fexp_exp m2 e' loc_Exact) as He2.
  destruct (shr_fexp prec emax m2 e' loc_Exact) as [mrs'' e'']. simpl in *.
  destruct (shr_m mrs''); try reflexivity.
  assert (Hd1 : Zdigits2 m <= 63) by (apply Zdigits2_le; lia).
  assert (Hd2 : Zdigits2 m2 <= 64) by (apply Zdigits2_le; lia).
  pose proof (fexp_le (Zdigits2 m + e)). pose proof (fexp_le (Zdigits2 m2 + e')).
  destruct (Z.leb_spec e'' (emax - prec)) as [|Hgt]; [reflexivity|].
  unfold emax, prec in Hgt. lia.
Qed.

Lemma iter_xO_pow (m d : positive) : Zpos (Pos.iter xO m d) = Zpos m * 2 ^ Zpos d.
Proof.
  induction d as [|d IH] using Pos.peano_ind.
  - simpl. lia.
  - rewrite Pos.iter_succ, Pos2Z.inj_succ, Z.pow_succ_r by lia.
    rewrite Pos2Z.inj_xO, IH. lia.
Qed.

Lemma binary_round_finite (s : bool) (m : positive) :
  Zpos m < 2 ^ 63 -> sf_is_inf (binary_round prec emax s m 0) = false.
Proof.
  intros Hm. unfold binary_round, shl_align.
  pose proof (digits2_pos_bounds m) as [_ Hd].
  destruct (fexp prec emax (Zpos (digits2_pos m) + 0) - 0) as [|d|d] eqn:Hf;
    try (apply binary_round_aux_finite; lia).
  assert (Hk : Zpos (digits2_pos m) + Zpos d = 53).
  { unfold fexp, SpecFloat.emin, prec, emax in Hf. lia. }
  apply binary_round_aux_finite.
  - rewrite iter_xO_pow. split; [lia|].
    apply Z.lt_trans with (2 ^ Zpos (digits2_pos m) * 2 ^ Zpos d).
    + apply Z.mul_lt_mono_pos_r; [apply Z.pow_pos_nonneg; lia | exact Hd].
    + rewrite <- Z.pow_add_r, Hk by lia. reflexivity.
  - unfold fexp, SpecFloat.emin, prec, emax in *. lia.
Qed.

(** [float(n)] of a non-negative 63-bit integer is not an infinity. *)
Lemma binary_normalize_finite (n : Z) :
  0 <= n < 2 ^ 63 -> sf_is_inf (binary_normalize prec emax n 0 false) = false.
Proof.
  intros Hn. destruct n as [|m|m]; simpl; [reflexivity | | lia].
  apply binary_round_finite. lia.
Qed.


End Signs.

Section PrimSigns.

Local Open Scope float_scope.

Lemma nonneg_spec (x : float) : nonneg x <-> sf_nonneg (Prim2SF x) = true.
Proof.
  unfold nonneg. rewrite FloatAxioms.leb_spec.
  change (Prim2SF 0) with (S754_zero false).
  destruct (Prim2SF x) as [s|[]| |[] m e]; simpl; intuition congruence.
Qed.

Lemma is_nan_spec (x : float) : is_nan x = sf_is_nan (Prim2SF x).
Proof.
  unfold Prim2SF. destruct (is_nan x); [reflexivity|].
  destruct (is_zero x); [reflexivity|].
  destruct (is_infinity x); [reflexivity|].
  destruct (FloatOps.Z.frexp x) as [r ex].
  destruct (shr_fexp _ _ _ _ _) as [mrs e'].
  destruct (shr_m mrs); reflexivity.
Qed.

Lemma nan_or_nonneg (x : float) :
  sf_is_nan (Prim2SF x) || sf_nonneg (Prim2SF x) = true ->
  is_nan x = false -> nonneg x.
Proof.
  rewrite is_nan_spec, nonneg_spec. intros H Hn. now rewrite Hn in H.
Qed.

(** What passes the check [amount <= 0] of [wallet_add] and SQLite. *)
Lemma deposit_nonneg (b a : float) :
  nonneg b -> (a <=? 0) = false -> is_nan (b + a) = false -> nonneg (b + a).
Proof.
  intros Hb Ha Hn. apply nan_or_nonneg; [|exact Hn].
  apply nonneg_spec in Hb. rewrite FloatAxioms.leb_spec in Ha.
  change (Prim2SF 0) with (S754_zero false) in Ha.
  rewrite add_spec.
  destruct (Prim2SF a) as [s|[]| |[] m e] eqn:Hpa; try discriminate Ha.
  - rewrite (SFadd_nonneg (Prim2SF b) (S754_infinity false) Hb eq_refl).
    apply orb_true_r.
  - destruct (Prim2SF b) as [?|?| |? ? ?]; reflexivity.
  - rewrite (SFadd_nonneg (Prim2SF b) (S754_finite false m e) Hb eq_refl).
    apply orb_true_r.
Qed.

(** The balance after a debit that does not exceed it. *)
Lemma sub_nonneg (b c : float) :
  nonneg b -> (b <? c) = false -> is_nan (b - c) = false -> nonneg (b - c).
Proof.
  intros Hb Hlt Hn. apply nan_or_nonneg; [|exact Hn].
  rewrite sub_spec. apply SFsub_nonneg; try apply Prim2SF_valid.
  - now apply nonneg_spec.
  - now rewrite <- FloatAxioms.ltb_spec.
Qed.

Lemma SFldexp_nonneg (x : spec_float) (e : Z) :
  sf_nonneg x = true -> sf_nonneg (SFldexp prec emax x e) = true.
Proof.
  destruct x as [s|[]| |[] m ex]; try discriminate; intros _; try reflexivity.
  apply binary_round_nonneg.
Qed.

Lemma SF2Prim_nonneg (x : spec_float) : sf_nonneg x = true -> nonneg (SF2Prim x).
Proof.
  destruct x as [[]|[]| |[] m e]; try discriminate; intros _; try reflexivity.
  unfold SF2Prim. apply nonneg_spec.
  rewrite Z_ldexp_spec, of_uint63_spec.
  apply SFldexp_nonneg, binary_normalize_nonneg, Uint63.to_Z_bounded.
Qed.

(** [float(q)] of a non-negative quantity is non-negative. *)
Lemma round_int_nonneg (q : Z) : (0 <= q)%Z -> nonneg (round_int q).
Proof. intros Hq. now apply SF2Prim_nonneg, binary_normalize_nonneg. Qed.

(** The balance after the credit of a sale at a non-negative price. *)
Lemma proceeds_nonneg (b p : float) (q : Z) (f : float) :
  nonneg b -> nonneg p -> (0 < q)%Z -> py_float_of_int q = inr f ->
  is_nan (b + p * f) = false -> nonneg (b + p * f).
Proof.
  intros Hb Hp Hq ->%py_float_of_int_ok Hn.
  assert (Hf : nonneg (round_int q)) by (apply round_int_nonneg; lia).
  apply nan_or_nonneg; [|exact Hn].
  apply nonneg_spec in Hb, Hp, Hf.
  rewrite add_spec, mul_spec.
  pose proof (SFmul_nonneg _ _ Hp Hf) as Hm.
  destruct (sf_is_nan (SF64mul (Prim2SF p) (Prim2SF (round_int q)))) eqn:Hnan.
  - destruct (SF64mul _ _); try discriminate Hnan.
    destruct (Prim2SF b) as [?|?| |? ? ?]; reflexivity.
  - simpl in Hm. rewrite (SFadd_nonneg _ _ Hb Hm). apply orb_true_r.
Qed.

(** A 64-bit quantity that is not negative converts without OverflowError. *)
Lemma py_float_of_int_int64 (n : Z) :
  (0 <= n)%Z -> in_int64 n = true -> py_float_of_int n = inr (round_int n).
Proof.
  intros H0 H64. unfold py_float_of_int.
  assert (Hn : (0 <= n < 2 ^ 63)%Z).
  { unfold in_int64 in H64. apply andb_prop in H64 as [_ H]. lia. }
  assert (Hr : Prim2SF (round_int n) = binary_normalize prec emax n 0 false).
  { pose proof (of_uint63_spec (Uint63.of_Z n)) as Hs.
    rewrite Uint63.of_Z_spec, Z.mod_small in Hs by exact Hn.
    unfold round_int. now rewrite <- Hs, SF2Prim_Prim2SF. }
  pose proof (binary_normalize_finite n Hn) as Hfin. rewrite <- Hr in Hfin.
  assert (Hinf : is_infinity (round_int n) = false).
  { unfold is_infinity. rewrite FloatAxioms.eqb_spec, abs_spec.
    change (Prim2SF infinity) with (S754_infinity false).
    destruct (Prim2SF (round_int n)) as [?|?| |? ? ?]; try reflexivity.
    discriminate Hfin. }
  now rewrite Hinf.
Qed.


(** ** What a REAL column gives back *)

Lemma real_column_cases (x : float) :
  (real_column x = x /\ (x =? 0) = false) \/
  (real_column x = 0 /\ (x =? 0) = true /\ is_nan x = false /\ nonneg x).
Proof.
  unfold real_column. destruct (x =? 0) eqn:Hz; [right | now left].
  repeat split; try reflexivity.
  - rewrite is_nan_spec. rewrite FloatAxioms.eqb_spec in Hz.
    change (Prim2SF 0) with (S754_zero false) in Hz.
    now destruct (Prim2SF x) as [[]|[]| |[] ? ?].
  - apply nonneg_spec. rewrite FloatAxioms.eqb_spec in Hz.
    change (Prim2SF 0) with (S754_zero false) in Hz.
    now destruct (Prim2SF x) as [[]|[]| |[] ? ?].
Qed.

Lemma real_column_nonneg (x : float) : nonneg x -> nonneg (real_column x).
Proof.
  intros H. destruct (real_column_cases x) as [[-> _] | [-> _]]; [exact H | reflexivity].
Qed.

Lemma real_column_not_nan (x : float) : is_nan x = false -> is_nan (real_column x) = false.
Proof.
  intros H. destruct (real_column_cases x) as [[-> _] | [-> _]]; [exact H | reflexivity].
Qed.

(** A double that is not zero comes back as it is. *)
Lemma real_column_positive (a : float) : (a <=? 0) = false -> real_column a = a.
Proof.
  intros Ha. destruct (real_column_cases a) as [[H _] | (_ & Hz & _)]; [exact H|].
  rewrite FloatAxioms.leb_spec in Ha. rewrite FloatAxioms.eqb_spec in Hz.
  change (Prim2SF 0) with (S754_zero false) in *.
  destruct (Prim2SF a) as [[]|[]| |[] ? ?]; discriminate.
Qed.

End PrimSigns.

(* ================================================================== *)
(** * The price lookup *)

Lemma fallback_price_unknown (symbol : string) :
  FALLBACK_PRICES !! symbol = None -> fallback_price symbol = 0%float.
Proof. unfold fallback_price. now intros ->. Qed.

(** C7. When yfinance raises or has no data for the (normalised) symbol,
    [get_live_price] returns the fallback table's price for that symbol, and
    0.0 when the table does not know the symbol either; it never fails. *)
Theorem get_live_price_falls_back (yf : yfinance) (symbol : string) :
  yf (normalize symbol) = YfNoData \/ yf (normalize symbol) = YfRaised ->
  get_live_price yf symbol = default 0%float (FALLBACK_PRICES !! normalize symbol) /\
  (FALLBACK_PRICES !! normalize symbol = None -> get_live_price yf symbol = 0%float).
Proof.
  intros H. unfold get_live_price.
  assert (Hp : match yf (normalize symbol) with
               | YfHistory close => close
               | YfFastInfo last_price => last_price
               | _ => fallback_price (normalize symbol)
               end = fallback_price (normalize symbol)).
  { destruct H as [-> | ->]; reflexivity. }
  rewrite Hp. split; [reflexivity | apply fallback_price_unknown].
Qed.

Lemma get_live_price_falls_back_witness :
  get_live_price (yf Examples.offline) " aapl " = 180%float /\
  get_live_price (yf Examples.offline) "XYZ" = 0%float.
Proof.
  split.
  - destruct (get_live_price_falls_back (yf Examples.offline) " aapl ") as [H _].
    + right; reflexivity.
    + rewrite H. vm_compute. reflexivity.
  - destruct (get_live_price_falls_back (yf Examples.offline) "XYZ") as [_ H].
    + right; reflexivity.
    + apply H. vm_compute. reflexivity.
Defined.

(* ================================================================== *)
(** * buy: the sufficiency check *)

(** C1, as the code has it. A buy of a valid quantity whose cost exceeds the
    balance by more than the tolerance, [cost > balance + 1e-9] in double
    arithmetic, answers InsufficientFunds and commits nothing: the world,
    hence the balance and every position, is the one before the call. *)
Theorem buy_insufficient_funds (E : env) (symbol source : string) (q : Z)
    (w : world) (cost : float) :
  0 < q ->
  mul_float_int (buy_price E (normalize symbol) source) q = inr cost ->
  (get_wallet_balance (current_user E) w + tolerance <? cost)%float = true ->
  buy E symbol (Some q) source w = (InsufficientFunds, w).
Proof.
  intros Hq Hcost Hlt. unfold buy.
  destruct (Z.leb_spec q 0) as [Hle | _]; [lia|].
  rewrite Hcost. simpl. now rewrite Hlt.
Qed.

Lemma buy_insufficient_funds_witness :
  buy Examples.offline "AAPL" (Some 1) "fixed" (Examples.funded 100)
  = (InsufficientFunds, Examples.funded 100).
Proof.
  apply (buy_insufficient_funds Examples.offline "AAPL" "fixed" 1
           (Examples.funded 100) 180%float).
  - lia.
  - vm_compute. reflexivity.
  - vm_compute. reflexivity.
Defined.

(** C1 as stated fails: with balance 179.9999999995 a buy of one AAPL at the
    fallback price costs 180 > balance, yet it is within the tolerance, so it
    commits and the balance changes (to a negative amount). *)
Lemma buy_above_balance_commits :
  let w := Examples.funded Examples.just_below_180 in
  let r := buy Examples.offline "AAPL" (Some 1) "fixed" w in
  mul_float_int (buy_price Examples.offline (normalize "AAPL") "fixed") 1 = inr 180%float /\
  (get_wallet_balance 1 w <? 180)%float = true /\
  fst r = Bought /\
  get_wallet_balance 1 w = Examples.just_below_180 /\
  get_wallet_balance 1 (snd r) = (Examples.just_below_180 - 180)%float /\
  get_wallet_balance 1 (snd r) <> get_wallet_balance 1 w /\
  select_position 1 "AAPL" (current w) = None /\
  select_position 1 "AAPL" (current (snd r)) = Some (Position 1 180).
Proof. vm_compute. repeat split; discriminate. Qed.

(* ================================================================== *)
(** * sell *)

(** C6. For a valid quantity, [sell] answers NoSuchPosition when the user has
    no row for the (normalised) symbol and InsufficientShares when the
    quantity exceeds the row's; in both cases nothing is committed: balance,
    positions and transactions are those before the call. *)
Theorem sell_rejections (E : env) (symbol : string) (q : Z) (w : world) :
  0 < q ->
  (select_position (current_user E) (normalize symbol) (current w) = None ->
   sell E symbol (Some q) w = (NoSuchPosition, w)) /\
  (forall row,
     select_position (current_user E) (normalize symbol) (current w) = Some row ->
     qty row < q ->
     sell E symbol (Some q) w = (InsufficientShares, w)).
Proof.
  intros Hq. unfold sell, get_db.
  destruct (Z.leb_spec q 0) as [Hle | _]; [lia|].
  split.
  - now intros ->.
  - intros row -> Hlt. destruct (Z.ltb_spec (qty row) q) as [_ | Hge]; [reflexivity | lia].
Qed.

Lemma sell_rejections_witness :
  sell Examples.offline "tsla" (Some 1) Examples.holding5
    = (NoSuchPosition, Examples.holding5) /\
  sell Examples.offline "aapl" (Some 6) Examples.holding5
    = (InsufficientShares, Examples.holding5).
Proof.
  split.
  - apply (sell_rejections Examples.offline "tsla" 1 Examples.holding5); [lia|].
    vm_compute. reflexivity.
  - refine (proj2 (sell_rejections Examples.offline "aapl" 6 Examples.holding5 _)
              (Position 5 180) _ _).
    + lia.
    + vm_compute. reflexivity.
    + simpl. lia.
Defined.

(** What a sell that passed both checks does. *)
Lemma sell_accepted (E : env) (symbol : string) (q : Z) (w : world)
    (row : position) :
  0 < q -> q <= qty row -> in_int64 q = true -> in_int64 (qty row - q) = true ->
  select_position (current_user E) (normalize symbol) (current w) = Some row ->
  is_nan (get_wallet_balance (current_user E) w
          + get_live_price (yf E) (normalize symbol) * round_int q)%float = false ->
  exists conn,
    sell E symbol (Some q) w = (Sold, commit conn w) /\
    portfolio conn =
      (if qty row - q =? 0
       then delete (current_user E, normalize symbol) (portfolio (current w))
       else <[(current_user E, normalize symbol) := Position (qty row - q) (avg_price row)]>
              (portfolio (current w))).
Proof.
  intros Hq Hle Hq64 Hr64 Hrow Hnan. unfold sell, get_db.
  assert (Hf : py_float_of_int q = inr (round_int q))
    by (apply py_float_of_int_int64; [lia | exact Hq64]).
  set (f := round_int q) in *.
  destruct (Z.leb_spec q 0) as [? | _]; [lia|].
  rewrite Hrow.
  destruct (Z.ltb_spec (qty row) q) as [? | _]; [lia|].
  unfold mul_float_int. rewrite Hf. simpl.
  set (price := get_live_price (yf E) (normalize symbol)) in *.
  unfold sell_statements.
  set (uid := current_user E) in *. set (sym := normalize symbol) in *.
  assert (Hstep1 : exists c1,
    (if qty row - q =? 0 then ok (delete_position uid sym (current w))
     else set_position_qty uid sym (qty row - q) (current w)) = inr c1 /\
    wallet c1 = wallet (current w) /\ transactions c1 = transactions (current w) /\
    portfolio c1 =
      (if qty row - q =? 0 then delete (uid, sym) (portfolio (current w))
       else <[(uid, sym) := Position (qty row - q) (avg_price row)]>
              (portfolio (current w)))).
  { destruct (qty row - q =? 0).
    - eexists; repeat split.
    - unfold set_position_qty, sql_int. rewrite Hr64. simpl.
      eexists; repeat split. simpl.
      apply map_eq. intros k. destruct (decide (k = (uid, sym))) as [-> | Hk].
      + rewrite lookup_alter_eq, lookup_insert_eq.
        unfold select_position in Hrow. now rewrite Hrow.
      + rewrite lookup_alter_ne, lookup_insert_ne by congruence. reflexivity. }
  destruct Hstep1 as (c1 & -> & Hw1 & Ht1 & Hp1). simpl.
  assert (Hstep2 : exists c2, wallet_credit uid (price * f) c1 = inr c2 /\
                              portfolio c2 = portfolio c1).
  { unfold wallet_credit. rewrite Hw1.
    unfold get_wallet_balance, get_db in Hnan.
    destruct (wallet (current w) !! uid) as [b|] eqn:Hb; simpl in *.
    - unfold real_not_null, sql_real. rewrite Hnan. simpl. eexists; split; reflexivity.
    - eexists; split; reflexivity. }
  destruct Hstep2 as (c2 & -> & Hp2). simpl.
  unfold insert_transaction. simpl. unfold sql_int. rewrite Hq64. simpl.
  eexists; split; [reflexivity|]. simpl. now rewrite Hp2, Hp1.
Qed.

(** C4. Selling exactly the held quantity deletes the position: the sell is
    committed and the user has no row for the symbol afterwards. (The row is
    one SQLite can hold, with a positive 64-bit quantity; the credit must be
    a number, else SQLite refuses it and the sell is rolled back.) *)
Theorem sell_all_deletes_position (E : env) (symbol : string) (w : world)
    (row : position) :
  select_position (current_user E) (normalize symbol) (current w) = Some row ->
  0 < qty row -> in_int64 (qty row) = true ->
  is_nan (get_wallet_balance (current_user E) w
          + get_live_price (yf E) (normalize symbol) * round_int (qty row))%float
    = false ->
  exists w',
    sell E symbol (Some (qty row)) w = (Sold, w') /\
    select_position (current_user E) (normalize symbol) (current w') = None.
Proof.
  intros Hrow Hpos H64 Hnan.
  destruct (sell_accepted E symbol (qty row) w row) as (conn & Hsell & Hp);
    try assumption; try lia.
  { now rewrite Z.sub_diag. }
  exists (commit conn w). split; [exact Hsell|].
  unfold select_position. simpl. rewrite Hp, Z.sub_diag. simpl.
  apply lookup_delete_eq.
Qed.

Lemma sell_all_deletes_position_witness :
  exists w',
    sell (Examples.quoting 190) "aapl" (Some 5) Examples.holding5 = (Sold, w') /\
    select_position 1 "AAPL" (current w') = None.
Proof.
  apply (sell_all_deletes_position (Examples.quoting 190) "aapl" Examples.holding5
           (Position 5 180)); vm_compute; reflexivity.
Defined.

(** C5. A partial sell (fewer shares than held) is committed and leaves the
    row with the quantity reduced and the average cost untouched. (Same
    provisos as for a full sell.) *)
Theorem partial_sell_keeps_avg (E : env) (symbol : string) (q : Z) (w : world)
    (row : position) :
  select_position (current_user E) (normalize symbol) (current w) = Some row ->
  0 < q -> q < qty row -> in_int64 (qty row) = true ->
  is_nan (get_wallet_balance (current_user E) w
          + get_live_price (yf E) (normalize symbol) * round_int q)%float = false ->
  exists w',
    sell E symbol (Some q) w = (Sold, w') /\
    select_position (current_user E) (normalize symbol) (current w')
      = Some (Position (qty row - q) (avg_price row)).
Proof.
  intros Hrow Hq Hlt H64 Hnan.
  assert (Hb : - 2 ^ 63 <= qty row < 2 ^ 63).
  { unfold in_int64 in H64. apply andb_prop in H64 as [H1 H2]. lia. }
  destruct (sell_accepted E symbol q w row) as (conn & Hsell & Hp);
    try assumption; try lia.
  { unfold in_int64. apply andb_true_intro. split; lia. }
  { unfold in_int64. apply andb_true_intro. split; lia. }
  exists (commit conn w). split; [exact Hsell|].
  unfold select_position. simpl. rewrite Hp.
  destruct (Z.eqb_spec (qty row - q) 0) as [? | _]; [lia|].
  apply lookup_insert_eq.
Qed.

Lemma partial_sell_keeps_avg_witness :
  exists w',
    sell (Examples.quoting 190) "AAPL" (Some 2) Examples.holding5 = (Sold, w') /\
    select_position 1 "AAPL" (current w') = Some (Position 3 180).
Proof.
  apply (partial_sell_keeps_avg (Examples.quoting 190) "AAPL" 2 Examples.holding5
           (Position 5 180)); try (vm_compute; reflexivity); simpl; lia.
Defined.

(* ================================================================== *)
(** * buy: what is committed *)

Lemma wallet_debit_ok (uid : Z) (amount : float) (d c : db) :
  wallet_debit uid amount d = inr c ->
  portfolio c = portfolio d /\ transactions c = transactions d /\
  wallet c = match wallet d !! uid with
             | Some b => <[uid := real_column (b - amount)]> (wallet d)
             | None => wallet d
             end /\
  forall b, wallet d !! uid = Some b -> is_nan (b - amount)%float = false.
Proof.
  unfold wallet_debit. destruct (wallet d !! uid) as [b|].
  - intros (b' & [Hn ->]%real_not_null_ok & [= <-])%bind_ok.
    repeat split. now intros ? [= <-].
  - intros [= <-]. repeat split. discriminate.
Qed.

Lemma wallet_credit_ok (uid : Z) (amount : float) (d c : db) :
  wallet_credit uid amount d = inr c ->
  portfolio c = portfolio d /\ transactions c = transactions d /\
  wallet c = match wallet d !! uid with
             | Some b => <[uid := real_column (b + amount)]> (wallet d)
             | None => wallet d
             end /\
  forall b, wallet d !! uid = Some b -> is_nan (b + amount)%float = false.
Proof.
  unfold wallet_credit. destruct (wallet d !! uid) as [b|].
  - intros (b' & [Hn ->]%real_not_null_ok & [= <-])%bind_ok.
    repeat split. now intros ? [= <-].
  - intros [= <-]. repeat split. discriminate.
Qed.

Lemma put_position_ok (uid : Z) (symbol : string) (q : Z) (avg : float) (d c : db) :
  put_position uid symbol q avg d = inr c ->
  in_int64 q = true /\ is_nan avg = false /\
  wallet c = wallet d /\ transactions c = transactions d /\
  portfolio c = <[(uid, symbol) := Position q (real_column avg)]> (portfolio d).
Proof.
  unfold put_position.
  intros (q' & [H64 ->]%sql_int_ok & (a' & [Hn ->]%real_not_null_ok & [= <-])%bind_ok)%bind_ok.
  auto.
Qed.

Lemma buy_statements_ok (E : env) (symbol : string) (q : Z) (price cost : float)
    (d conn : db) :
  buy_statements E symbol q price cost d = inr conn ->
  wallet conn = match wallet d !! current_user E with
                | Some b => <[current_user E := real_column (b - cost)]> (wallet d)
                | None => wallet d
                end /\
  (exists pos,
     bought_row (select_position (current_user E) symbol d) q price pos /\
     portfolio conn = <[(current_user E, symbol) := pos]> (portfolio d)) /\
  transactions conn =
    transactions d ++
      [Transaction (current_user E) buy_tx (Some symbol) (Some q) (sql_real price)
                   (utcnow E)] /\
  forall b, wallet d !! current_user E = Some b -> is_nan (b - cost)%float = false.
Proof.
  unfold buy_statements.
  intros (c1 & (Hp1 & Ht1 & Hw1 & Hn1)%wallet_debit_ok & (c2 & Hup & Hins)%bind_ok)%bind_ok.
  unfold select_position in *. rewrite Hp1 in Hup.
  assert (Hc2 : wallet c2 = wallet c1 /\ transactions c2 = transactions c1 /\
                exists pos, bought_row (portfolio d !! (current_user E, symbol)) q price pos /\
                            portfolio c2 = <[(current_user E, symbol) := pos]> (portfolio d)).
  { destruct (portfolio d !! (current_user E, symbol)) as [row|] eqn:Hrow.
    - apply bind_ok in Hup as (a & Ha & Hup).
      apply bind_ok in Hup as (b & Hb & Hup).
      apply bind_ok in Hup as (avg & Havg & Hup).
      apply put_position_ok in Hup as (H64 & _ & Hw & Ht & Hp).
      repeat split; try assumption.
      exists (Position (qty row + q) (real_column avg)). split.
      + exists a, b, avg. auto.
      + now rewrite Hp, Hp1.
    - apply put_position_ok in Hup as (H64 & _ & Hw & Ht & Hp).
      repeat split; try assumption.
      exists (Position q (real_column price)).
      split; [reflexivity | now rewrite Hp, Hp1]. }
  destruct Hc2 as (Hw2 & Ht2 & pos & Hpos & Hp2).
  unfold insert_transaction in Hins.
  apply bind_ok in Hins as (q' & Hq' & [= <-]).
  apply bind_ok in Hq' as (n' & [_ ->]%sql_int_ok & [= <-]). simpl.
  rewrite Hw2, Ht2, Hw1, Ht1. repeat split; eauto.
Qed.

Lemma buy_cases (E : env) (symbol : string) (q : option Z) (source : string)
    (w : world) :
  (exists q' cost conn,
     q = Some q' /\ 0 < q' /\
     mul_float_int (buy_price E (normalize symbol) source) q' = inr cost /\
     (get_wallet_balance (current_user E) w + tolerance <? cost)%float = false /\
     buy_statements E (normalize symbol) q' (buy_price E (normalize symbol) source)
       cost (current w) = inr conn /\
     buy E symbol q source w = (Bought, commit conn w)) \/
  (fst (buy E symbol q source w) <> Bought /\ snd (buy E symbol q source w) = w).
Proof.
  unfold buy, get_db. destruct q as [q|]; [|right; split; [discriminate | reflexivity]].
  destruct (Z.leb_spec q 0) as [Hle | Hq]; [right; split; [discriminate | reflexivity]|].
  destruct (mul_float_int _ q) as [e | cost] eqn:Hcost; simpl;
    [right; split; [discriminate | reflexivity]|].
  destruct (_ <? cost)%float eqn:Hlt; simpl;
    [right; split; [discriminate | reflexivity]|].
  destruct (buy_statements _ _ _ _ _ _) as [e | conn] eqn:Hst; simpl;
    [right; split; [discriminate | reflexivity]|].
  left. exists q, cost, conn. auto 10.
Qed.

Lemma wallet_add_cases (E : env) (amount : option float) (w : world) :
  (exists a c1,
     amount = Some a /\ (a <=? 0)%float = false /\
     wallet_credit (current_user E) a (current w) = inr c1 /\
     wallet_add E amount w =
       (Deposited,
        commit (Db (wallet c1) (portfolio c1)
                   (transactions c1 ++
                      [Transaction (current_user E) deposit None None (sql_real a)
                                   (utcnow E)]))
               (commit c1 w))) \/
  (fst (wallet_add E amount w) <> Deposited /\ snd (wallet_add E amount w) = w).
Proof.
  unfold wallet_add, get_db. destruct amount as [a|]; [|right; split; [discriminate | reflexivity]].
  destruct (a <=? 0)%float eqn:Ha; [right; split; [discriminate | reflexivity]|].
  destruct (wallet_credit _ a _) as [e | c1] eqn:Hc; [right; split; [discriminate | reflexivity]|].
  left. exists a, c1. repeat split; try assumption; reflexivity.
Qed.

(** C9. A buy either commits nothing (the world is unchanged and the answer
    is not Bought) or commits exactly once, and that one snapshot carries the
    wallet deduction, the new or re-averaged position and the transaction
    record together. A deposit that succeeds commits twice: the first
    snapshot has the new balance and the old log, the second adds the
    record. *)
Theorem buy_commits_once (E : env) (symbol : string) (q : option Z)
    (source : string) (amount : option float) (w : world) :
  let uid := current_user E in
  let sym := normalize symbol in
  let price := buy_price E sym source in
  let r := buy E symbol q source w in
  let r' := wallet_add E amount w in
  ((fst r <> Bought /\ snd r = w) \/
   (exists q' cost conn pos,
      q = Some q' /\ mul_float_int price q' = inr cost /\
      r = (Bought, World conn (commits w ++ [conn])) /\
      wallet conn = match wallet (current w) !! uid with
                    | Some b => <[uid := real_column (b - cost)]> (wallet (current w))
                    | None => wallet (current w)
                    end /\
      bought_row (select_position uid sym (current w)) q' price pos /\
      portfolio conn = <[(uid, sym) := pos]> (portfolio (current w)) /\
      transactions conn =
        transactions (current w) ++
          [Transaction uid buy_tx (Some sym) (Some q') (sql_real price) (utcnow E)]))
  /\
  ((fst r' <> Deposited /\ snd r' = w) \/
   (exists a c1 c2,
      amount = Some a /\
      r' = (Deposited, World c2 (commits w ++ [c1; c2])) /\
      wallet c1 = match wallet (current w) !! uid with
                  | Some b => <[uid := real_column (b + a)]> (wallet (current w))
                  | None => wallet (current w)
                  end /\
      transactions c1 = transactions (current w) /\
      wallet c2 = wallet c1 /\
      transactions c2 =
        transactions (current w) ++
          [Transaction uid deposit None None (sql_real a) (utcnow E)])).
Proof.
  intros uid sym price r r'. split.
  - destruct (buy_cases E symbol q source w)
      as [(q' & cost & conn & -> & Hq & Hcost & _ & Hst & Hbuy) | H]; [right | now left].
    apply buy_statements_ok in Hst as (Hw & (pos & Hpos & Hp) & Ht & _).
    exists q', cost, conn, pos. repeat split; assumption.
  - destruct (wallet_add_cases E amount w)
      as [(a & c1 & -> & Ha & Hc & Hadd) | H]; [right | now left].
    apply wallet_credit_ok in Hc as (Hp & Ht & Hw & _).
    eexists a, c1, _. split; [reflexivity|]. split.
    + subst r'. rewrite Hadd. unfold commit. simpl. rewrite <- app_assoc. reflexivity.
    + simpl. rewrite Ht. repeat split; assumption.
Qed.

(* ================================================================== *)
(** * The weighted average *)

(** C3, as the code has it. Starting without a position in the symbol, two
    committed buys of [q1] at [p1] and then [q2] at [p2] leave the row
    [(q1 + q2, ((q1 * p1) + (q2 * p2)) / (q1 + q2))] where every operation
    is the double-precision one (each product, the sum and the quotient are
    rounded, and so is the conversion of a quantity above 2^53), and where
    the REAL column holds [0.0] for a [-0.0]. *)
Theorem two_buys_weighted_average (E1 E2 : env) (symbol src1 src2 : string)
    (q1 q2 : Z) (w w1 w2 : world) :
  current_user E2 = current_user E1 ->
  select_position (current_user E1) (normalize symbol) (current w) = None ->
  buy E1 symbol (Some q1) src1 w = (Bought, w1) ->
  buy E2 symbol (Some q2) src2 w1 = (Bought, w2) ->
  let p1 := buy_price E1 (normalize symbol) src1 in
  let p2 := buy_price E2 (normalize symbol) src2 in
  select_position (current_user E1) (normalize symbol) (current w1)
  = Some (Position q1 (real_column p1)) /\
  select_position (current_user E1) (normalize symbol) (current w2)
  = Some (Position (q1 + q2)
            (real_column
               ((round_int q1 * real_column p1 + round_int q2 * p2)
                / round_int (q1 + q2)))).
Proof.
  intros Hu Hnone Hb1 Hb2 p1 p2.
  destruct (buy_cases E1 symbol (Some q1) src1 w)
    as [(q' & c & conn1 & [= <-] & _ & _ & _ & Hst1 & Hbuy1) | [Hn _]];
    [| rewrite Hb1 in Hn; now elim Hn].
  rewrite Hb1 in Hbuy1. injection Hbuy1 as ->.
  destruct (buy_cases E2 symbol (Some q2) src2 (commit conn1 w))
    as [(q' & c' & conn2 & [= <-] & _ & _ & _ & Hst2 & Hbuy2) | [Hn _]];
    [| rewrite Hb2 in Hn; now elim Hn].
  rewrite Hb2 in Hbuy2. injection Hbuy2 as ->.
  apply buy_statements_ok in Hst1 as (_ & (pos1 & Hpos1 & Hp1) & _ & _).
  apply buy_statements_ok in Hst2 as (_ & (pos2 & Hpos2 & Hp2) & _ & _).
  rewrite Hnone in Hpos1. simpl in Hpos1. subst pos1.
  simpl in Hpos2, Hp2. rewrite Hu in Hpos2, Hp2.
  unfold select_position in *. simpl.
  rewrite Hp1, lookup_insert_eq in Hpos2. simpl in Hpos2.
  destruct Hpos2 as (a & b & new_avg & Ha & Hb & Hdiv & ->).
  unfold mul_int_float in Ha, Hb.
  apply bind_ok in Ha as (f1 & ->%py_float_of_int_ok & [= <-]).
  apply bind_ok in Hb as (f2 & ->%py_float_of_int_ok & [= <-]).
  unfold div_float_int in Hdiv.
  apply bind_ok in Hdiv as (f12 & ->%py_float_of_int_ok & Hdiv).
  destruct (round_int (q1 + q2) =? 0)%float; [discriminate|].
  injection Hdiv as <-.
  split; [now rewrite Hp1, lookup_insert_eq | now rewrite Hp2, lookup_insert_eq].
Qed.

Lemma two_buys_weighted_average_witness :
  let w1 := snd (buy (Examples.quoting 180) "AAPL" (Some 1) "auto"
                     (Examples.funded 1000)) in
  let w2 := snd (buy (Examples.quoting 181) "AAPL" (Some 2) "auto" w1) in
  select_position 1 "AAPL" (current w1) = Some (Position 1 (real_column 180)) /\
  select_position 1 "AAPL" (current w2)
  = Some (Position 3 (real_column ((1 * real_column 180 + 2 * 181) / 3))).
Proof.
  apply (two_buys_weighted_average (Examples.quoting 180) (Examples.quoting 181)
           "AAPL" "auto" "auto" 1 2 (Examples.funded 1000)
           (snd (buy (Examples.quoting 180) "AAPL" (Some 1) "auto"
                     (Examples.funded 1000))));
    vm_compute; reflexivity.
Defined.

(** C3 as stated fails, at any fixed number of decimals: one share at
    9007199254740992 (2^53) and then one at 1 cost 9007199254740993 together,
    which is not a double; the sum is rounded to 2^53 and the average stored
    is 4503599627370496, half a unit below the exact 4503599627370496.5. *)
Lemma weighted_average_not_exact :
  let p1 := 9007199254740992%float in
  let p2 := 1%float in
  let w := Examples.funded 1e16 in
  let r1 := buy (Examples.quoting p1) "AAPL" (Some 1) "auto" w in
  let r2 := buy (Examples.quoting p2) "AAPL" (Some 1) "auto" (snd r1) in
  select_position 1 "AAPL" (current w) = None /\
  fst r1 = Bought /\ fst r2 = Bought /\
  select_position 1 "AAPL" (current (snd r2))
    = Some (Position 2 4503599627370496) /\
  ((1 * Q_of_float p1 + 1 * Q_of_float p2) / (1 + 1) == 9007199254740993 # 2)%Q /\
  ((1 * Q_of_float p1 + 1 * Q_of_float p2) / (1 + 1)
   - Q_of_float 4503599627370496 == 1 # 2)%Q.
Proof.
  vm_compute. repeat split.
Qed.

(* ================================================================== *)
(** * Which row a request touches *)

Lemma sell_statements_portfolio (E : env) (symbol : string) (q : Z)
    (row : position) (price proceeds : float) (d conn : db) :
  sell_statements E symbol q row price proceeds d = inr conn ->
  forall k, k <> (current_user E, symbol) -> portfolio conn !! k = portfolio d !! k.
Proof.
  unfold sell_statements.
  intros (c1 & H1 & (c2 & (Hp2 & _)%wallet_credit_ok & H3)%bind_ok)%bind_ok k Hk.
  unfold insert_transaction in H3.
  apply bind_ok in H3 as (q' & _ & [= <-]). simpl. rewrite Hp2.
  destruct (qty row - q =? 0).
  - injection H1 as <-. simpl. now rewrite lookup_delete_ne.
  - unfold set_position_qty in H1.
    apply bind_ok in H1 as (n & _ & [= <-]). simpl. now rewrite lookup_alter_ne.
Qed.

Lemma sell_frame (E : env) (symbol : string) (q : option Z) (w : world)
    (k : Z * string) :
  k <> (current_user E, normalize symbol) ->
  portfolio (current (snd (sell E symbol q w))) !! k = portfolio (current w) !! k.
Proof.
  intros Hk. unfold sell, get_db. destruct q as [q|]; [|reflexivity].
  destruct (q <=? 0); [reflexivity|].
  destruct (select_position _ _ _) as [row|]; [|reflexivity].
  destruct (qty row <? q); [reflexivity|].
  destruct (mul_float_int _ q) as [e | proceeds]; [reflexivity|]. simpl.
  destruct (sell_statements _ _ _ _ _ _ _) as [e | conn] eqn:Hst; [reflexivity|].
  simpl. eapply sell_statements_portfolio; eassumption.
Qed.

Lemma buy_frame (E : env) (symbol : string) (q : option Z) (source : string)
    (w : world) (k : Z * string) :
  k <> (current_user E, normalize symbol) ->
  portfolio (current (snd (buy E symbol q source w))) !! k = portfolio (current w) !! k.
Proof.
  intros Hk.
  destruct (buy_cases E symbol q source w)
    as [(q' & cost & conn & _ & _ & _ & _ & Hst & ->) | [_ ->]]; [|reflexivity].
  apply buy_statements_ok in Hst as (_ & (pos & _ & Hp) & _ & _).
  simpl. rewrite Hp. now rewrite lookup_insert_ne.
Qed.

Lemma buy_normalized (E : env) (s : string) (q : option Z) (source : string)
    (w : world) :
  buy E (normalize s) q source w = buy E s q source w.
Proof. unfold buy. now rewrite normalize_idem. Qed.

Lemma sell_normalized (E : env) (s : string) (q : option Z) (w : world) :
  sell E (normalize s) q w = sell E s q w.
Proof. unfold sell. now rewrite normalize_idem. Qed.

(** C10. [buy] and [sell] work on the stripped, upper-cased symbol and on
    nothing else of it. The key they use is the symbol without the white
    space around it, each character replaced by its upper case; a call with
    the raw symbol is the call with that key; the only portfolio row a call
    can change is the one under that key, where a committed buy leaves its
    position and logs it. So two calls whose symbols differ only in letter
    case and in surrounding white space give the same answer and the same
    world. *)
Theorem symbol_is_normalized (E : env) (s t : string) (core : list N)
    (q : option Z) (source : string) (w : world) :
  trimmed (codepoints s) core ->
  same_ticker s t ->
  let key := normalize s in
  codepoints key = upper core /\
  buy E s q source w = buy E key q source w /\
  sell E s q w = sell E key q w /\
  (forall k, k <> (current_user E, key) ->
     portfolio (current (snd (buy E s q source w))) !! k = portfolio (current w) !! k /\
     portfolio (current (snd (sell E s q w))) !! k = portfolio (current w) !! k) /\
  (fst (buy E s q source w) = Bought ->
   is_Some (portfolio (current (snd (buy E s q source w))) !! (current_user E, key)) /\
   exists t', last (transactions (current (snd (buy E s q source w)))) = Some t' /\
              tx_symbol t' = Some key) /\
  normalize t = key /\
  buy E t q source w = buy E s q source w /\
  sell E t q w = sell E s q w.
Proof.
  intros Hcore Hst key. apply normalize_same_ticker in Hst.
  split; [|split; [|split; [|split; [|split; [|split; [|split]]]]]].
  - subst key. rewrite codepoints_normalize. f_equal. now apply trimmed_strip.
  - symmetry. apply buy_normalized.
  - symmetry. apply sell_normalized.
  - intros k Hk. split; [now apply buy_frame | now apply sell_frame].
  - intros Hb.
    destruct (buy_cases E s q source w)
      as [(q' & cost & conn & _ & _ & _ & _ & Hstm & ->) | [Hn _]]; [|now elim Hn].
    apply buy_statements_ok in Hstm as (_ & (pos & _ & Hp) & Ht & _). simpl.
    rewrite Hp, Ht, lookup_insert_eq, last_snoc. eauto.
  - now symmetry.
  - unfold buy. now rewrite Hst.
  - unfold sell. now rewrite Hst.
Qed.

Lemma symbol_is_normalized_witness :
  let E := Examples.offline in
  let w := Examples.averaged in
  let s := "  aapl "%string in
  let t := "Aapl"%string in
  (normalize s = "AAPL"%string /\
   fst (buy E s (Some 2) "fixed" w) = Bought /\ fst (sell E s (Some 2) w) = Sold) /\
  let key := normalize s in
  codepoints key = upper (codepoints "aapl") /\
  buy E s (Some 2) "fixed" w = buy E key (Some 2) "fixed" w /\
  sell E s (Some 2) w = sell E key (Some 2) w /\
  (forall k, k <> (current_user E, key) ->
     portfolio (current (snd (buy E s (Some 2) "fixed" w))) !! k
     = portfolio (current w) !! k /\
     portfolio (current (snd (sell E s (Some 2) w))) !! k = portfolio (current w) !! k) /\
  (fst (buy E s (Some 2) "fixed" w) = Bought ->
   is_Some (portfolio (current (snd (buy E s (Some 2) "fixed" w)))
              !! (current_user E, key)) /\
   exists t', last (transactions (current (snd (buy E s (Some 2) "fixed" w))))
              = Some t' /\
              tx_symbol t' = Some key) /\
  normalize t = key /\
  buy E t (Some 2) "fixed" w = buy E s (Some 2) "fixed" w /\
  sell E t (Some 2) w = sell E s (Some 2) w.
Proof.
  intros E w s t. split; [vm_compute; repeat split|].
  apply (symbol_is_normalized E s t (codepoints "aapl") (Some 2) "fixed" w).
  - exists (codepoints "  "), (codepoints " ").
    vm_compute. repeat split; intros c [= <-]; reflexivity.
  - exists [32; 32]%N, [32]%N, [], [], [97; 97; 112; 108]%N, [65; 97; 112; 108]%N.
    split; [reflexivity|]. split; [reflexivity|]. do 4 (split; [reflexivity|]).
    repeat (constructor; [first [left; reflexivity | right; left; reflexivity]|]).
    constructor.
Defined.

(* ================================================================== *)
(** * The balance invariant *)

Lemma sell_statements_wallet (E : env) (symbol : string) (q : Z)
    (row : position) (price proceeds : float) (d conn : db) :
  sell_statements E symbol q row price proceeds d = inr conn ->
  wallet conn = match wallet d !! current_user E with
                | Some b => <[current_user E := real_column (b + proceeds)]> (wallet d)
                | None => wallet d
                end /\
  forall b, wallet d !! current_user E = Some b -> is_nan (b + proceeds)%float = false.
Proof.
  unfold sell_statements.
  intros (c1 & H1 & (c2 & (_ & _ & Hw2 & Hn2)%wallet_credit_ok & H3)%bind_ok)%bind_ok.
  unfold insert_transaction in H3.
  apply bind_ok in H3 as (q' & _ & [= <-]). simpl.
  assert (Hw1 : wallet c1 = wallet d).
  { destruct (qty row - q =? 0).
    - now injection H1 as <-.
    - unfold set_position_qty in H1. now apply bind_ok in H1 as (n & _ & [= <-]). }
  rewrite Hw1 in Hw2, Hn2. auto.
Qed.

Lemma sell_cases (E : env) (symbol : string) (q : option Z) (w : world) :
  (exists q' row f conn,
     q = Some q' /\ 0 < q' /\
     select_position (current_user E) (normalize symbol) (current w) = Some row /\
     py_float_of_int q' = inr f /\
     sell_statements E (normalize symbol) q' row
       (get_live_price (yf E) (normalize symbol))
       (get_live_price (yf E) (normalize symbol) * f)%float (current w) = inr conn /\
     sell E symbol q w = (Sold, commit conn w)) \/
  (fst (sell E symbol q w) <> Sold /\ snd (sell E symbol q w) = w).
Proof.
  unfold sell, get_db. destruct q as [q|]; [|right; split; [discriminate | reflexivity]].
  destruct (Z.leb_spec q 0) as [Hle | Hq]; [right; split; [discriminate | reflexivity]|].
  destruct (select_position _ _ _) as [row|] eqn:Hrow;
    [|right; split; [discriminate | reflexivity]].
  destruct (qty row <? q); [right; split; [discriminate | reflexivity]|].
  unfold mul_float_int.
  destruct (py_float_of_int q) as [e | f] eqn:Hf; simpl;
    [right; split; [discriminate | reflexivity]|].
  destruct (sell_statements _ _ _ _ _ _ _) as [e | conn] eqn:Hst; simpl;
    [right; split; [discriminate | reflexivity]|].
  left. exists q, row, f, conn. auto 10.
Qed.

Lemma nonneg_wallets_update (d : db) (m : gmap Z float) (uid : Z) (f : float -> float) :
  nonneg_wallets d ->
  m = match wallet d !! uid with
      | Some b => <[uid := f b]> (wallet d)
      | None => wallet d
      end ->
  (forall b, wallet d !! uid = Some b -> nonneg (f b)) ->
  forall u b, m !! u = Some b -> nonneg b.
Proof.
  intros Hd -> Hf u b. destruct (wallet d !! uid) as [b0|] eqn:Hb0; [|apply Hd].
  destruct (decide (u = uid)) as [-> | Hu].
  - rewrite lookup_insert_eq. intros [= <-]. now apply Hf.
  - rewrite lookup_insert_ne by congruence. apply Hd.
Qed.

Lemma never_negative_commit (conn : db) (w : world) :
  never_negative w -> nonneg_wallets conn -> never_negative (commit conn w).
Proof.
  intros [_ Hall] Hc. split; [exact Hc|]. simpl.
  apply Forall_app. split; [exact Hall | now constructor].
Qed.

(** One request keeps every durable balance non-negative, unless it is a buy
    let through by the tolerance: a buy the check lets through costs no more
    than the balance plus the tolerance, and outside the tolerance zone that
    is no more than the balance. *)
Lemma handle_never_negative (E : env) (r : request) (w : world) :
  never_negative w -> quotes_nonneg E -> in_tolerance_zone E r w = false ->
  never_negative (snd (handle E r w)).
Proof.
  intros Hw HE Hwb. pose proof Hw as [Hcur _]. destruct r as [amount | symbol q source | symbol q]; simpl.
  - destruct (wallet_add_cases E amount w)
      as [(a & c1 & -> & Ha & Hc & ->) | [_ ->]]; [|exact Hw].
    apply wallet_credit_ok in Hc as (_ & _ & Hw1 & Hn). simpl.
    assert (H1 : nonneg_wallets c1).
    { refine (nonneg_wallets_update (current w) (wallet c1) (current_user E)
                (fun b => real_column (b + a)) Hcur Hw1 _).
      intros b Hb. apply real_column_nonneg, deposit_nonneg; eauto. }
    apply never_negative_commit; [now apply never_negative_commit | exact H1].
  - destruct (buy_cases E symbol q source w)
      as [(q' & cost & conn & -> & Hq & Hcost & Hcheck & Hst & ->) | [_ ->]];
      [|exact Hw].
    apply buy_statements_ok in Hst as (Hwc & _ & _ & Hn). simpl.
    apply never_negative_commit; [exact Hw|].
    refine (nonneg_wallets_update (current w) (wallet conn) (current_user E)
              (fun b => real_column (b - cost)) Hcur Hwc _).
    intros b Hb. simpl in Hwb. rewrite Hcost in Hwb. cbv zeta in Hwb.
    rewrite Hcheck, andb_true_r in Hwb.
    unfold get_wallet_balance, get_db in Hwb. rewrite Hb in Hwb. simpl in Hwb.
    apply real_column_nonneg, sub_nonneg; eauto.
  - destruct (sell_cases E symbol q w)
      as [(q' & row & f & conn & -> & Hq & _ & Hf & Hst & ->) | [_ ->]]; [|exact Hw].
    apply sell_statements_wallet in Hst as (Hwc & Hn). simpl.
    apply never_negative_commit; [exact Hw|].
    refine (nonneg_wallets_update (current w) (wallet conn) (current_user E)
              (fun b => real_column (b + get_live_price (yf E) (normalize symbol) * f))
              Hcur Hwc _).
    intros b Hb. apply real_column_nonneg. eapply proceeds_nonneg; eauto.
Qed.

(** C2, as the code has it. Over any sequence of deposits, buys and sells
    priced with non-negative quotes, every balance that is ever committed is
    non-negative, unless a buy of the sequence falls in the tolerance of the
    check: [balance < cost <= balance + 1e-9] for the balance it is checked
    against. (The check rejects [cost > balance + 1e-9] only; a buy in that
    zone is committed and leaves the balance negative.) *)
Theorem balance_never_negative (reqs : list (env * request)) (w : world) :
  never_negative w ->
  Forall (fun Er => quotes_nonneg (fst Er)) reqs ->
  none_in_tolerance_zone reqs w = true ->
  never_negative (run reqs w).
Proof.
  revert w. induction reqs as [|[E r] reqs IH]; intros w Hw HE Hwb; simpl; [exact Hw|].
  simpl in Hwb. apply andb_prop in Hwb as [Hr Hrest].
  inversion HE as [|? ? HE1 HE2]; subst.
  apply IH; [|exact HE2 | exact Hrest].
  apply handle_never_negative; try assumption. now apply negb_true_iff.
Qed.

Lemma fallback_price_nonneg (symbol : string) : nonneg (fallback_price symbol).
Proof.
  unfold fallback_price, FALLBACK_PRICES. simpl.
  repeat (rewrite lookup_insert; case_decide; [reflexivity|]).
  rewrite lookup_empty. reflexivity.
Qed.

Lemma offline_quotes_nonneg : quotes_nonneg Examples.offline.
Proof. intros symbol. apply fallback_price_nonneg. Qed.

Lemma fresh_never_negative : never_negative Examples.fresh.
Proof.
  split; [|constructor]. intros uid b. simpl.
  rewrite lookup_insert. case_decide; [|now rewrite lookup_empty].
  now intros [= <-].
Qed.

Lemma balance_never_negative_witness :
  let reqs := [(Examples.offline, Deposit (Some 1000%float));
               (Examples.offline, Buy "AAPL" (Some 10) "fixed");
               (Examples.offline, Buy "AAPL" (Some 5) "fixed");
               (Examples.quoting 190, Sell "AAPL" (Some 2));
               (Examples.offline, Buy "MSFT" (Some 2) "fixed")] in
  responses reqs Examples.fresh = [Deposited; InsufficientFunds; Bought; Sold; InsufficientFunds] /\
  never_negative (run reqs Examples.fresh).
Proof.
  split; [vm_compute; reflexivity|].
  apply balance_never_negative.
  - exact fresh_never_negative.
  - constructor; [exact offline_quotes_nonneg|].
    constructor; [exact offline_quotes_nonneg|].
    constructor; [exact offline_quotes_nonneg|].
    constructor; [intros symbol; reflexivity|].
    constructor; [exact offline_quotes_nonneg | constructor].
  - vm_compute. reflexivity.
Defined.

(** C2 as stated fails: after a deposit of 179.9999999995, a buy of one AAPL
    at the fallback price 180 is in the tolerance zone: it passes the check
    and is committed, and the balance it leaves is negative. *)
Lemma balance_negative_after_buy :
  let w := Examples.funded Examples.just_below_180 in
  let r := handle Examples.offline (Buy "AAPL" (Some 1) "fixed") w in
  wallet (current w) !! 1 = Some Examples.just_below_180 /\
  in_tolerance_zone Examples.offline (Buy "AAPL" (Some 1) "fixed") w = true /\
  fst r = Bought /\
  wallet (current (snd r)) !! 1 = Some (Examples.just_below_180 - 180)%float /\
  (Examples.just_below_180 - 180 <? 0)%float = true /\
  last (commits (snd r)) = Some (current (snd r)).
Proof. vm_compute. repeat split. Qed.

(* ================================================================== *)
(** * Profit and loss *)

Lemma py_float_of_int_finite (n : Z) :
  is_infinity (round_int n) = false -> py_float_of_int n = inr (round_int n).
Proof. unfold py_float_of_int. now intros ->. Qed.

Lemma insert_by_symbol_perm (r : string * position) (rows : list (string * position)) :
  insert_by_symbol r rows ≡ₚ r :: rows.
Proof.
  induction rows as [|r' rows IH]; simpl; [reflexivity|].
  destruct (text_le r.1 r'.1); [reflexivity|].
  rewrite IH. apply Permutation_swap.
Qed.

(** The index gives the rows of the table, each once. *)
Lemma by_symbol_perm (rows : list (string * position)) : by_symbol rows ≡ₚ rows.
Proof.
  induction rows as [|r rows IH]; simpl; [reflexivity|].
  now rewrite insert_by_symbol_perm, IH.
Qed.

Lemma elem_of_select_positions (uid : Z) (d : db) (s : string) (p : position) :
  (s, p) ∈ select_positions uid d <-> portfolio d !! (uid, s) = Some p.
Proof.
  unfold select_positions. rewrite by_symbol_perm, list_elem_of_omap. split.
  - intros ([[u s'] p'] & Hin & Heq). simpl in Heq.
    destruct (decide (u = uid)) as [-> |]; [|discriminate].
    injection Heq as -> ->. now apply elem_of_map_to_list in Hin.
  - intros H. exists (uid, s, p). split; [now apply elem_of_map_to_list|].
    simpl. now rewrite decide_True.
Qed.

(** The rows SQLite can hold for a position convert. *)
Lemma rows_convert_int64 (rows : list (string * position)) :
  Forall (fun r => 0 <= qty r.2 /\ in_int64 (qty r.2) = true) rows ->
  rows_convert rows = true.
Proof.
  induction 1 as [|r rows [H0 H64] _ IH]; simpl; [reflexivity|].
  rewrite IH, andb_true_r. apply negb_true_iff.
  pose proof (py_float_of_int_int64 _ H0 H64) as H.
  unfold py_float_of_int in H.
  destruct (is_infinity (round_int (qty r.2))); [discriminate | reflexivity].
Qed.

Section ViewFacts.

Variable format_2f : float -> string.
Variable round2 : float -> float.

Lemma portfolio_loop_ok (E : env) (rows : list (string * position)) :
  rows_convert rows = true ->
  forall items tv tc, exists tv' tc',
    portfolio_loop format_2f E rows items tv tc
    = inr (items ++ map (portfolio_item format_2f E) rows, tv', tc').
Proof.
  induction rows as [|r rows IH]; intros Hc items tv tc; simpl.
  - exists tv, tc. now rewrite app_nil_r.
  - simpl in Hc. apply andb_prop in Hc as [Hr Hc]. apply negb_true_iff in Hr.
    unfold mul_float_int. rewrite (py_float_of_int_finite _ Hr). simpl.
    destruct (IH Hc (items ++ [portfolio_item format_2f E r])
                (tv + get_live_price (yf E) r.1 * round_int (qty r.2))%float
                (tc + avg_price r.2 * round_int (qty r.2))%float)
      as (tv' & tc' & Heq).
    exists tv', tc'. rewrite <- app_assoc in Heq. exact Heq.
Qed.

Lemma api_profit_loop_ok (E : env) (rows : list (string * position)) :
  rows_convert rows = true ->
  forall labels data,
    api_profit_loop round2 E rows labels data
    = inr (labels ++ map fst rows, data ++ map (profit_point round2 E) rows).
Proof.
  induction rows as [|r rows IH]; intros Hc labels data; simpl.
  - now rewrite !app_nil_r.
  - simpl in Hc. apply andb_prop in Hc as [Hr Hc]. apply negb_true_iff in Hr.
    unfold mul_float_int. rewrite (py_float_of_int_finite _ Hr). simpl.
    rewrite (IH Hc), <- !app_assoc. reflexivity.
Qed.

End ViewFacts.

(** C8, as the code has it. For a held position with quantity [q], average
    [avg] and quote [price], the portfolio page shows [price * q - avg * q]
    in the format [.2f] and the profit API returns [round((price - avg) * q,
    2)] at the position's label, each operation being the double-precision
    one and each result being brought to two decimals as Python does. *)
Theorem profit_loss_of_views (E : env) (w : world) (symbol : string)
    (pos : position) :
  select_position (current_user E) symbol (current w) = Some pos ->
  rows_convert (select_positions (current_user E) (current w)) = true ->
  let price := get_live_price (yf E) symbol in
  let f := round_int (qty pos) in
  let pl_page := (price * f - avg_price pos * f)%float in
  let pl_api := ((price - avg_price pos) * f)%float in
  portfolio_pl price (qty pos) (avg_price pos) = inr pl_page /\
  profit_pl price (qty pos) (avg_price pos) = inr pl_api /\
  (exists page it,
     portfolio_view py_format_2f E w = inr page /\
     it ∈ page_items page /\
     item_symbol it = symbol /\ item_pl it = py_format_2f pl_page) /\
  (exists labels data i,
     api_profit py_round2 E w = inr (labels, data) /\
     labels !! i = Some symbol /\ data !! i = Some (py_round2 pl_api)).
Proof.
  intros Hpos Hconv price f pl_page pl_api.
  assert (Hin : (symbol, pos) ∈ select_positions (current_user E) (current w))
    by now apply elem_of_select_positions.
  assert (Hf : is_infinity f = false).
  { unfold rows_convert in Hconv. rewrite forallb_forall in Hconv.
    apply list_elem_of_In, Hconv in Hin. now apply negb_true_iff in Hin. }
  repeat split.
  - unfold portfolio_pl, mul_float_int. now rewrite (py_float_of_int_finite _ Hf).
  - unfold profit_pl, mul_float_int. now rewrite (py_float_of_int_finite _ Hf).
  - unfold portfolio_view, get_db.
    destruct (portfolio_loop_ok py_format_2f E _ Hconv [] 0%float 0%float)
      as (tv & tc & ->).
    simpl. eexists _, (portfolio_item py_format_2f E (symbol, pos)).
    split; [reflexivity|]. simpl. split; [|split; reflexivity].
    apply list_elem_of_fmap. now exists (symbol, pos).
  - unfold api_profit, get_db. rewrite (api_profit_loop_ok py_round2 E _ Hconv). simpl.
    apply list_elem_of_lookup in Hin as [i Hi].
    eexists _, _, i. split; [reflexivity|].
    change (@map) with (@fmap list _).
    rewrite !list_lookup_fmap, Hi. split; reflexivity.
Qed.

Lemma profit_loss_of_views_witness :
  let E := Examples.quoting 181 in
  let w := Examples.averaged in
  let pl_page := (181 * 3 - Examples.avg_542_3 * 3)%float in
  let pl_api := ((181 - Examples.avg_542_3) * 3)%float in
  (py_format_2f pl_page = "1.00"%string /\ py_round2 pl_api = 1%float) /\
  portfolio_pl 181 3 Examples.avg_542_3 = inr pl_page /\
  profit_pl 181 3 Examples.avg_542_3 = inr pl_api /\
  (exists page it,
     portfolio_view py_format_2f E w = inr page /\
     it ∈ page_items page /\
     item_symbol it = "AAPL"%string /\ item_pl it = py_format_2f pl_page) /\
  (exists labels data i,
     api_profit py_round2 E w = inr (labels, data) /\
     labels !! i = Some "AAPL"%string /\ data !! i = Some (py_round2 pl_api)).
Proof.
  intros E w pl_page pl_api. split; [vm_compute; split; reflexivity|].
  apply (profit_loss_of_views E w "AAPL" (Position 3 Examples.avg_542_3));
    vm_compute; reflexivity.
Defined.

(** C8 as stated fails: for the position (3, 180.66666666666666) quoted
    181.375 the portfolio page computes 544.125 - 542 = 2.125 and shows
    "2.12", while the API computes 2.1250000000000284 and returns 2.13, which
    is what the exact (price - avg) * 3 comes to at two decimals. The value
    the page reports is neither the API's nor that of the identity. *)
Lemma profit_loss_views_differ :
  let E := Examples.quoting 181.375 in
  let w := Examples.averaged in
  let exact := ((Q_of_float 181.375 - Q_of_float Examples.avg_542_3) * 3)%Q in
  select_position 1 "AAPL" (current w) = Some (Position 3 Examples.avg_542_3) /\
  get_live_price (yf E) "AAPL" = 181.375%float /\
  portfolio_pl 181.375 3 Examples.avg_542_3 = inr 2.125%float /\
  profit_pl 181.375 3 Examples.avg_542_3 = inr 0x1.1000000000040p+1%float /\
  (exists page,
     portfolio_view py_format_2f E w = inr page /\
     map (fun it => (item_symbol it, item_pl it)) (page_items page)
     = [("AAPL", "2.12")]%string) /\
  api_profit py_round2 E w = inr (["AAPL"%string], [0x1.10a3d70a3d70ap+1%float]) /\
  py_format_2f 0x1.10a3d70a3d70ap+1 = "2.13"%string /\
  round_half_even (Qnum (exact * 100)) (Zpos (Qden (exact * 100))) = 213.
Proof.
  vm_compute. repeat split. eexists. split; reflexivity.
Qed.

(* ================================================================== *)
(** * The scenario of the specification *)

(** Deposit 1000, buy 5 AAPL at the fallback price 180, sell 2 quoted 190:
    the balance is 480, the position (3, 180.0), and the log holds the three
    records in that order; four snapshots were committed (two by the
    deposit). *)
Example ledger_scenario :
  let w := run [(Examples.offline, Deposit (Some 1000%float));
                (Examples.offline, Buy "AAPL" (Some 5) "fixed");
                (Examples.quoting 190, Sell "AAPL" (Some 2))]
               Examples.fresh in
  get_wallet_balance 1 w = 480%float /\
  select_position 1 "AAPL" (current w) = Some (Position 3 180) /\
  map (fun t => (tx_kind t, tx_symbol t, tx_qty t, tx_price t)) (transactions (current w))
    = [(deposit, None, None, Some 1000%float);
       (buy_tx, Some "AAPL"%string, Some 5, Some 180%float);
       (sell_tx, Some "AAPL"%string, Some 2, Some 190%float)] /\
  length (commits w) = 4%nat.
Proof. vm_compute. repeat split. Qed.

(* ================================================================== *)
(** * sell: what is committed *)

Lemma set_position_qty_ok (uid : Z) (symbol : string) (q : Z) (row : position)
    (d c : db) :
  portfolio d !! (uid, symbol) = Some row ->
  set_position_qty uid symbol q d = inr c ->
  in_int64 q = true /\ wallet c = wallet d /\ transactions c = transactions d /\
  portfolio c = <[(uid, symbol) := Position q (avg_price row)]> (portfolio d).
Proof.
  intros Hrow. unfold set_position_qty.
  intros (q' & [H64 ->]%sql_int_ok & [= <-])%bind_ok. simpl.
  repeat split; try assumption.
  apply map_eq. intros k. destruct (decide (k = (uid, symbol))) as [-> | Hk].
  - now rewrite lookup_alter_eq, lookup_insert_eq, Hrow.
  - now rewrite lookup_alter_ne, lookup_insert_ne by congruence.
Qed.

Lemma sell_statements_ok (E : env) (symbol : string) (q : Z) (row : position)
    (price proceeds : float) (d conn : db) :
  select_position (current_user E) symbol d = Some row ->
  sell_statements E symbol q row price proceeds d = inr conn ->
  wallet conn = match wallet d !! current_user E with
                | Some b => <[current_user E := real_column (b + proceeds)]> (wallet d)
                | None => wallet d
                end /\
  portfolio conn =
    (if qty row - q =? 0 then delete (current_user E, symbol) (portfolio d)
     else <[(current_user E, symbol) := Position (qty row - q) (avg_price row)]>
            (portfolio d)) /\
  transactions conn =
    transactions d ++
      [Transaction (current_user E) sell_tx (Some symbol) (Some q) (sql_real price)
                   (utcnow E)] /\
  in_int64 q = true /\
  (qty row - q <> 0 -> in_int64 (qty row - q) = true).
Proof.
  intros Hrow. unfold select_position in Hrow. unfold sell_statements.
  intros (c1 & H1 & (c2 & (Hp2 & Ht2 & Hw2 & _)%wallet_credit_ok & H3)%bind_ok)%bind_ok.
  unfold insert_transaction in H3.
  apply bind_ok in H3 as (q' & Hq' & [= <-]).
  apply bind_ok in Hq' as (n' & [H64 ->]%sql_int_ok & [= <-]). simpl.
  assert (Hc1 : wallet c1 = wallet d /\ transactions c1 = transactions d /\
                portfolio c1 =
                  (if qty row - q =? 0 then delete (current_user E, symbol) (portfolio d)
                   else <[(current_user E, symbol) := Position (qty row - q) (avg_price row)]>
                          (portfolio d)) /\
                (qty row - q <> 0 -> in_int64 (qty row - q) = true)).
  { destruct (Z.eqb_spec (qty row - q) 0) as [H0 | H0].
    - injection H1 as <-. repeat split. intros H. now elim H.
    - apply (set_position_qty_ok _ _ _ row) in H1 as (Hr64 & Hw & Ht & Hp);
        [|exact Hrow]. auto. }
  destruct Hc1 as (Hw1 & Ht1 & Hp1 & Hr64).
  rewrite Hw2, Hp2, Ht2, Hw1, Hp1, Ht1. auto.
Qed.

Lemma sell_sold_cases (E : env) (symbol : string) (q : option Z) (w : world) :
  (exists q' row f conn,
     q = Some q' /\ 0 < q' <= qty row /\
     select_position (current_user E) (normalize symbol) (current w) = Some row /\
     py_float_of_int q' = inr f /\
     sell_statements E (normalize symbol) q' row
       (get_live_price (yf E) (normalize symbol))
       (get_live_price (yf E) (normalize symbol) * f)%float (current w) = inr conn /\
     sell E symbol q w = (Sold, commit conn w)) \/
  (succeeded (fst (sell E symbol q w)) = false /\ snd (sell E symbol q w) = w).
Proof.
  unfold sell, get_db. destruct q as [q|]; [|right; split; reflexivity].
  destruct (Z.leb_spec q 0) as [Hle | Hq]; [right; split; reflexivity|].
  destruct (select_position _ _ _) as [row|] eqn:Hrow; [|right; split; reflexivity].
  destruct (Z.ltb_spec (qty row) q) as [Hlt | Hge]; [right; split; reflexivity|].
  unfold mul_float_int.
  destruct (py_float_of_int q) as [e | f] eqn:Hf; simpl; [right; split; reflexivity|].
  destruct (sell_statements _ _ _ _ _ _ _) as [e | conn] eqn:Hst; simpl;
    [right; split; reflexivity|].
  left. exists q, row, f, conn. repeat split; auto; lia.
Qed.

(** X1. A sell either commits nothing (the world is unchanged and the answer
    is not Sold) or commits exactly once, and that one snapshot carries the
    credit of [price * qty], the reduced or deleted position and the sell
    record together. *)
Theorem sell_commits_once (E : env) (symbol : string) (q : option Z) (w : world) :
  let uid := current_user E in
  let sym := normalize symbol in
  let price := get_live_price (yf E) sym in
  let r := sell E symbol q w in
  (succeeded (fst r) = false /\ snd r = w) \/
  (exists q' row f conn,
     q = Some q' /\ 0 < q' <= qty row /\
     select_position uid sym (current w) = Some row /\
     py_float_of_int q' = inr f /\
     r = (Sold, World conn (commits w ++ [conn])) /\
     wallet conn = match wallet (current w) !! uid with
                   | Some b => <[uid := real_column (b + price * f)]> (wallet (current w))
                   | None => wallet (current w)
                   end /\
     portfolio conn =
       (if qty row - q' =? 0 then delete (uid, sym) (portfolio (current w))
        else <[(uid, sym) := Position (qty row - q') (avg_price row)]>
               (portfolio (current w))) /\
     transactions conn =
       transactions (current w) ++
         [Transaction uid sell_tx (Some sym) (Some q') (sql_real price) (utcnow E)]).
Proof.
  intros uid sym price r.
  destruct (sell_sold_cases E symbol q w)
    as [(q' & row & f & conn & -> & Hq & Hrow & Hf & Hst & Hsell) | H]; [right | now left].
  apply (sell_statements_ok _ _ _ _ _ _ _ _ Hrow) in Hst as (Hw & Hp & Ht & _ & _).
  exists q', row, f, conn. repeat split; try assumption; lia.
Qed.

(* ================================================================== *)
(** * The transaction log *)

Lemma buy_bought_cases (E : env) (symbol : string) (q : option Z) (source : string)
    (w : world) :
  (exists q' cost conn,
     q = Some q' /\ 0 < q' /\
     mul_float_int (buy_price E (normalize symbol) source) q' = inr cost /\
     (get_wallet_balance (current_user E) w + tolerance <? cost)%float = false /\
     buy_statements E (normalize symbol) q' (buy_price E (normalize symbol) source)
       cost (current w) = inr conn /\
     buy E symbol q source w = (Bought, commit conn w)) \/
  (succeeded (fst (buy E symbol q source w)) = false /\
   snd (buy E symbol q source w) = w).
Proof.
  unfold buy, get_db. destruct q as [q|]; [|right; split; reflexivity].
  destruct (Z.leb_spec q 0) as [Hle | Hq]; [right; split; reflexivity|].
  destruct (mul_float_int _ q) as [e | cost] eqn:Hcost; simpl;
    [right; split; reflexivity|].
  destruct (_ <? cost)%float eqn:Hlt; simpl; [right; split; reflexivity|].
  destruct (buy_statements _ _ _ _ _ _) as [e | conn] eqn:Hst; simpl;
    [right; split; reflexivity|].
  left. exists q, cost, conn. auto 10.
Qed.

Lemma wallet_add_deposited_cases (E : env) (amount : option float) (w : world) :
  (exists a c1,
     amount = Some a /\ (a <=? 0)%float = false /\
     wallet_credit (current_user E) a (current w) = inr c1 /\
     wallet_add E amount w =
       (Deposited,
        commit (Db (wallet c1) (portfolio c1)
                   (transactions c1 ++
                      [Transaction (current_user E) deposit None None (sql_real a)
                                   (utcnow E)]))
               (commit c1 w))) \/
  (succeeded (fst (wallet_add E amount w)) = false /\ snd (wallet_add E amount w) = w).
Proof.
  unfold wallet_add, get_db. destruct amount as [a|]; [|right; split; reflexivity].
  destruct (a <=? 0)%float eqn:Ha; [right; split; reflexivity|].
  destruct (wallet_credit _ a _) as [e | c1] eqn:Hc; [right; split; reflexivity|].
  left. exists a, c1. repeat split; try assumption; reflexivity.
Qed.

(** What one request does to the log. *)
Lemma handle_log (E : env) (r : request) (w : world) :
  transactions (current (snd (handle E r w)))
  = transactions (current w)
    ++ (if succeeded (fst (handle E r w)) then [logged E r] else []).
Proof.
  destruct r as [amount | symbol q source | symbol q]; simpl.
  - destruct (wallet_add_deposited_cases E amount w)
      as [(a & c1 & -> & _ & Hc & ->) | [-> ->]]; [|now rewrite app_nil_r].
    apply wallet_credit_ok in Hc as (_ & -> & _). reflexivity.
  - destruct (buy_bought_cases E symbol q source w)
      as [(q' & cost & conn & -> & _ & _ & _ & Hst & ->) | [-> ->]];
      [|now rewrite app_nil_r].
    apply buy_statements_ok in Hst as (_ & _ & Ht & _). simpl. now rewrite Ht.
  - destruct (sell_sold_cases E symbol q w)
      as [(q' & row & f & conn & -> & _ & Hrow & _ & Hst & ->) | [-> ->]];
      [|now rewrite app_nil_r].
    apply (sell_statements_ok _ _ _ _ _ _ _ _ Hrow) in Hst as (_ & _ & Ht & _).
    simpl. now rewrite Ht.
Qed.

(** X2. The log is append-only, with one record per request carried out: after
    any sequence of requests it is the log before, followed by the records of
    exactly the requests answered Deposited, Bought or Sold, in the order of
    the requests; a rejected or failed request logs nothing and no record is
    ever changed or removed. *)
Theorem log_append_only (reqs : list (env * request)) (w : world) :
  transactions (current (run reqs w))
  = transactions (current w)
    ++ map (fun x => logged x.1.1 x.1.2)
           (filter (fun x => succeeded x.2 = true) (zip reqs (responses reqs w))).
Proof.
  revert w. induction reqs as [|[E r] reqs IH]; intros w; simpl.
  - now rewrite app_nil_r.
  - rewrite IH, handle_log, <- app_assoc. f_equal.
    destruct (succeeded (fst (handle E r w))) eqn:Hs.
    + now rewrite filter_cons_True by exact Hs.
    + rewrite filter_cons_False; [reflexivity|]. simpl. now rewrite Hs.
Qed.

(** X3. The route [transactions] lists a user's records newest first: a
    request that is carried out puts its record (kind, normalised symbol,
    quantity, price, time) at the head of the user's list and leaves the rows
    below as they were; any other request leaves the list unchanged. *)
Theorem transactions_newest_first (E : env) (r : request) (w : world) :
  transactions_view E (snd (handle E r w))
  = (if succeeded (fst (handle E r w)) then [tx_row (logged E r)] else [])
    ++ transactions_view E w.
Proof.
  unfold transactions_view, get_db. rewrite handle_log.
  destruct (succeeded (fst (handle E r w))); [|now rewrite app_nil_r].
  rewrite filter_app, rev_app_distr, map_app.
  rewrite filter_cons_True by (destruct r; reflexivity).
  reflexivity.
Qed.

(* ================================================================== *)
(** * Accounts do not interfere *)

Lemma logged_user (E : env) (r : request) : tx_user (logged E r) = current_user E.
Proof. destruct r; reflexivity. Qed.

(** The part of the database that belongs to user [u]. *)
Lemma handle_other_user (E : env) (r : request) (w : world) (u : Z) :
  current_user E <> u ->
  wallet (current (snd (handle E r w))) !! u = wallet (current w) !! u /\
  (forall s, portfolio (current (snd (handle E r w))) !! (u, s)
             = portfolio (current w) !! (u, s)) /\
  filter (fun t => tx_user t = u) (transactions (current (snd (handle E r w))))
  = filter (fun t => tx_user t = u) (transactions (current w)).
Proof.
  intros Hu. split; [|split].
  - destruct r as [amount | symbol q source | symbol q]; simpl.
    + destruct (wallet_add_deposited_cases E amount w)
        as [(a & c1 & -> & _ & Hc & ->) | [_ ->]]; [|reflexivity].
      apply wallet_credit_ok in Hc as (_ & _ & Hw & _). simpl.
      destruct (wallet (current w) !! current_user E) eqn:Hb; rewrite Hw;
        [now rewrite lookup_insert_ne | reflexivity].
    + destruct (buy_bought_cases E symbol q source w)
        as [(q' & cost & conn & -> & _ & _ & _ & Hst & ->) | [_ ->]]; [|reflexivity].
      apply buy_statements_ok in Hst as (Hw & _). simpl.
      destruct (wallet (current w) !! current_user E) eqn:Hb; rewrite Hw;
        [now rewrite lookup_insert_ne | reflexivity].
    + destruct (sell_sold_cases E symbol q w)
        as [(q' & row & f & conn & -> & _ & Hrow & _ & Hst & ->) | [_ ->]];
        [|reflexivity].
      apply (sell_statements_ok _ _ _ _ _ _ _ _ Hrow) in Hst as (Hw & _). simpl.
      destruct (wallet (current w) !! current_user E) eqn:Hb; rewrite Hw;
        [now rewrite lookup_insert_ne | reflexivity].
  - intros s. destruct r as [amount | symbol q source | symbol q]; simpl.
    + destruct (wallet_add_deposited_cases E amount w)
        as [(a & c1 & -> & _ & Hc & ->) | [_ ->]]; [|reflexivity].
      apply wallet_credit_ok in Hc as (Hp & _). simpl. now rewrite Hp.
    + apply buy_frame. congruence.
    + apply sell_frame. congruence.
  - rewrite handle_log, filter_app.
    destruct (succeeded _); [|now rewrite app_nil_r].
    rewrite filter_cons_False, filter_nil, app_nil_r; [reflexivity|].
    rewrite logged_user. exact Hu.
Qed.

(** X4. Requests touch the requesting account only: over any sequence of
    deposits, buys and sells made by other users, a user's wallet row, every
    one of the user's positions and the user's transaction records stay as
    they were. *)
Theorem other_accounts_untouched (reqs : list (env * request)) (w : world) (u : Z) :
  Forall (fun Er => current_user Er.1 <> u) reqs ->
  wallet (current (run reqs w)) !! u = wallet (current w) !! u /\
  (forall s, portfolio (current (run reqs w)) !! (u, s)
             = portfolio (current w) !! (u, s)) /\
  filter (fun t => tx_user t = u) (transactions (current (run reqs w)))
  = filter (fun t => tx_user t = u) (transactions (current w)).
Proof.
  revert w. induction reqs as [|[E r] reqs IH]; intros w Hall; simpl.
  - repeat split.
  - inversion Hall as [|? ? Hu Hrest]; subst. simpl in Hu.
    destruct (IH (snd (handle E r w)) Hrest) as (Hw & Hp & Ht).
    destruct (handle_other_user E r w u Hu) as (Hw1 & Hp1 & Ht1).
    rewrite Hw, Hw1, Ht, Ht1. repeat split. intros s. now rewrite Hp, Hp1.
Qed.

Lemma other_accounts_untouched_witness :
  let w := run [(Examples.offline, Deposit (Some 900%float));
                (Examples.offline, Buy "tsla" (Some 2) "fixed");
                (Examples.quoting 260, Sell "TSLA" (Some 1))] Cases.two_users in
  wallet (current w) !! 2 = wallet (current Cases.two_users) !! 2 /\
  (forall s, portfolio (current w) !! (2, s)
             = portfolio (current Cases.two_users) !! (2, s)) /\
  filter (fun t => tx_user t = 2) (transactions (current w))
  = filter (fun t => tx_user t = 2) (transactions (current Cases.two_users)).
Proof.
  apply (other_accounts_untouched
           [(Examples.offline, Deposit (Some 900%float));
            (Examples.offline, Buy "tsla" (Some 2) "fixed");
            (Examples.quoting 260, Sell "TSLA" (Some 1))] Cases.two_users 2).
  repeat constructor; simpl; lia.
Defined.

(* ================================================================== *)
(** * Wallet rows *)

(** X5. [ensure_wallet] never changes what an account holds: the balance read
    for the user is the same before and after (a created row holds 0.0, which
    is what a missing row reads as), an existing row keeps its balance, the
    other wallets, the positions and the log are untouched; afterwards the row
    exists, and a second call changes nothing more. *)
Theorem ensure_wallet_keeps_balances (uid : Z) (w : world) :
  let w' := ensure_wallet uid w in
  get_wallet_balance uid w' = get_wallet_balance uid w /\
  is_Some (wallet (current w') !! uid) /\
  (forall b, wallet (current w) !! uid = Some b -> wallet (current w') = wallet (current w)) /\
  (forall u, u <> uid -> wallet (current w') !! u = wallet (current w) !! u) /\
  portfolio (current w') = portfolio (current w) /\
  transactions (current w') = transactions (current w) /\
  current (ensure_wallet uid w') = current w'.
Proof.
  unfold ensure_wallet, get_wallet_balance, get_db. simpl.
  destruct (wallet (current w) !! uid) as [b|] eqn:Hb; simpl.
  - rewrite Hb. simpl. repeat split; eauto.
  - rewrite lookup_insert_eq. simpl. repeat split; eauto.
    + discriminate.
    + intros u Hu. now rewrite lookup_insert_ne.
Qed.

(** [0.0 + a] is [a] for what passes the check of [wallet_add]. *)
Lemma zero_plus_positive (a : float) :
  (a <=? 0)%float = false -> is_nan a = false -> (0 + a)%float = a.
Proof.
  intros Ha Hn. apply Prim2SF_inj. rewrite add_spec.
  rewrite FloatAxioms.leb_spec in Ha. rewrite is_nan_spec in Hn.
  change (Prim2SF 0) with (S754_zero false) in *.
  destruct (Prim2SF a) as [s|s| |s m e]; try discriminate; reflexivity.
Qed.

(** X6. A deposit needs a wallet row to land. For a user without one,
    [wallet_add] of a positive amount still answers Deposited and logs the
    deposit, but no balance is credited and no row is created: the balance
    read stays 0.0. Once [ensure_wallet] has run (as it does at login), the
    same deposit leaves exactly the amount. *)
Theorem deposit_needs_wallet_row (E : env) (a : float) (w : world) :
  wallet (current w) !! current_user E = None ->
  (a <=? 0)%float = false -> is_nan a = false ->
  let r := wallet_add E (Some a) w in
  fst r = Deposited /\
  wallet (current (snd r)) = wallet (current w) /\
  get_wallet_balance (current_user E) (snd r) = 0%float /\
  transactions (current (snd r))
    = transactions (current w)
      ++ [Transaction (current_user E) deposit None None (Some a) (utcnow E)] /\
  let r' := wallet_add E (Some a) (ensure_wallet (current_user E) w) in
  fst r' = Deposited /\ get_wallet_balance (current_user E) (snd r') = a.
Proof.
  intros Hnone Ha Hn.
  assert (H1 : wallet_add E (Some a) w
               = (Deposited,
                  commit (Db (wallet (current w)) (portfolio (current w))
                             (transactions (current w) ++
                                [Transaction (current_user E) deposit None None
                                             (Some a) (utcnow E)]))
                         (commit (current w) w))).
  { unfold wallet_add, get_db. rewrite Ha. unfold wallet_credit. rewrite Hnone.
    simpl. unfold sql_real. rewrite Hn, (real_column_positive a Ha). reflexivity. }
  assert (H2 : wallet_credit (current_user E) a
                 (current (ensure_wallet (current_user E) w))
               = inr (Db (<[current_user E := a]>
                            (<[current_user E := 0%float]> (wallet (current w))))
                         (portfolio (current w)) (transactions (current w)))).
  { unfold ensure_wallet, get_db, wallet_credit. rewrite Hnone. simpl.
    rewrite lookup_insert_eq. simpl. unfold real_not_null, sql_real.
    rewrite (zero_plus_positive a Ha Hn), Hn, (real_column_positive a Ha).
    reflexivity. }
  assert (H3 : exists w2,
             wallet_add E (Some a) (ensure_wallet (current_user E) w) = (Deposited, w2)
             /\ wallet (current w2) !! current_user E = Some a).
  { unfold wallet_add at 1. unfold get_db. rewrite Ha, H2. simpl.
    eexists. split; [reflexivity|]. simpl. apply lookup_insert_eq. }
  destruct H3 as (w2 & H3 & Hw2).
  rewrite H1, H3. simpl. unfold get_wallet_balance, get_db. simpl.
  rewrite Hnone, Hw2. repeat split.
Qed.

Lemma deposit_needs_wallet_row_witness :
  let r := wallet_add Examples.offline (Some 250%float) Cases.no_wallet in
  fst r = Deposited /\
  wallet (current (snd r)) = wallet (current Cases.no_wallet) /\
  get_wallet_balance 1 (snd r) = 0%float /\
  transactions (current (snd r))
    = [Transaction 1 deposit None None (Some 250%float) "2024-01-01T00:00:00"] /\
  let r' := wallet_add Examples.offline (Some 250%float)
              (ensure_wallet 1 Cases.no_wallet) in
  fst r' = Deposited /\ get_wallet_balance 1 (snd r') = 250%float.
Proof.
  apply (deposit_needs_wallet_row Examples.offline 250%float Cases.no_wallet);
    reflexivity.
Defined.

(* ================================================================== *)
(** * Normal forms of symbols *)

(** X7. A symbol is normalised once and for all: normalising a normalised
    symbol changes nothing, a normalised symbol has no whitespace left to
    strip and no letter left to upper-case, so the second normalisation that
    [get_live_price] applies inside [buy], [sell] and the views looks up the
    same key as the first. *)
Theorem normalize_idempotent (s : string) (yf : yfinance) :
  normalize (normalize s) = normalize s /\
  py_strip (normalize s) = normalize s /\
  py_upper (normalize s) = normalize s /\
  get_live_price yf (normalize s) = get_live_price yf s.
Proof.
  repeat split.
  - apply normalize_idem.
  - unfold py_strip. rewrite codepoints_normalize, strip_upper, strip_idem.
    symmetry. apply normalize_unfold.
  - unfold py_upper. rewrite codepoints_normalize, upper_idem.
    symmetry. apply normalize_unfold.
  - unfold get_live_price. now rewrite normalize_idem.
Qed.

(* ================================================================== *)
(** * More double arithmetic *)

Section Quotients.

Local Open Scope float_scope.

Lemma binary_round_aux_plus (m e : Z) (l : location) :
  (0 <= m)%Z -> sf_plus (binary_round_aux prec emax false m e l) = true.
Proof.
  intros Hm. unfold binary_round_aux.
  pose proof (shr_fexp_nonneg m e l Hm) as H1.
  destruct (shr_fexp prec emax m e l) as [mrs' e']. simpl in H1.
  pose proof (shr_fexp_nonneg _ e' loc_Exact
                (round_nearest_even_nonneg _ (loc_of_shr_record mrs') H1)) as H2.
  destruct (shr_fexp prec emax _ e' loc_Exact) as [mrs'' e'']. simpl in H2.
  destruct (shr_m mrs'') as [|p|p]; [reflexivity | | lia].
  destruct (e'' <=? emax - prec)%Z; reflexivity.
Qed.

Lemma binary_normalize_plus (n : Z) :
  (0 <= n)%Z -> sf_plus (binary_normalize prec emax n 0 false) = true.
Proof.
  intros Hn. destruct n as [|m|m]; simpl; [reflexivity | | lia].
  unfold binary_round. destruct (shl_align m 0 _) as [mz ez].
  now apply binary_round_aux_plus.
Qed.

(** The double of a non-negative 63-bit integer, as [spec_float]. *)
Lemma Prim2SF_round_int (n : Z) :
  (0 <= n < 2 ^ 63)%Z ->
  Prim2SF (round_int n) = binary_normalize prec emax n 0 false.
Proof.
  intros Hn. pose proof (of_uint63_spec (Uint63.of_Z n)) as Hs.
  rewrite Uint63.of_Z_spec, Z.mod_small in Hs by exact Hn.
  unfold round_int. now rewrite <- Hs, SF2Prim_Prim2SF.
Qed.

(** [0.0 * float(n)] is [0.0]. *)
Lemma zero_times_round_int (n : Z) :
  (0 <= n < 2 ^ 63)%Z -> 0 * round_int n = 0.
Proof.
  intros Hn. apply Prim2SF_inj. rewrite mul_spec, (Prim2SF_round_int n Hn).
  pose proof (binary_normalize_plus n (proj1 Hn)) as Hp.
  pose proof (binary_normalize_finite n Hn) as Hf.
  change (Prim2SF 0) with (S754_zero false).
  destruct (binary_normalize prec emax n 0 false) as [[]|[]| |[] m e];
    try discriminate; reflexivity.
Qed.

(** [b - 0.0] is [b]. *)
Lemma minus_zero (b : float) : b - 0 = b.
Proof.
  apply Prim2SF_inj. rewrite sub_spec.
  change (Prim2SF 0) with (S754_zero false).
  destruct (Prim2SF b) as [[]|[]| |[] m e]; reflexivity.
Qed.

(** A non-negative balance passes the check of a buy that costs nothing. *)
Lemma zero_cost_passes (b : float) : nonneg b -> (b + tolerance <? 0) = false.
Proof.
  intros Hb. apply nonneg_spec in Hb.
  rewrite FloatAxioms.ltb_spec, add_spec.
  assert (Ht : sf_nonneg (Prim2SF tolerance) = true) by reflexivity.
  pose proof (SFadd_nonneg _ _ Hb Ht) as H.
  change (Prim2SF 0) with (S754_zero false).
  destruct (SF64add (Prim2SF b) (Prim2SF tolerance)) as [[]|[]| |[] m e];
    try discriminate; reflexivity.
Qed.

Lemma nonneg_not_nan (b : float) : nonneg b -> is_nan b = false.
Proof.
  intros Hb. apply nonneg_spec in Hb. rewrite is_nan_spec.
  now destruct (Prim2SF b).
Qed.

Lemma SFmul_nan_or_nonneg (x y : spec_float) :
  sf_nan_or_nonneg x = true -> sf_nonneg y = true ->
  sf_nan_or_nonneg (SF64mul x y) = true.
Proof.
  unfold sf_nan_or_nonneg. intros Hx Hy.
  destruct (sf_is_nan x) eqn:Hn.
  - destruct x; try discriminate Hn. reflexivity.
  - simpl in Hx. now apply SFmul_nonneg.
Qed.

Lemma SFadd_nan_or_nonneg (x y : spec_float) :
  sf_nan_or_nonneg x = true -> sf_nan_or_nonneg y = true ->
  sf_nan_or_nonneg (SF64add x y) = true.
Proof.
  unfold sf_nan_or_nonneg. intros Hx Hy.
  destruct (sf_is_nan x) eqn:Hnx.
  { destruct x; try discriminate Hnx. reflexivity. }
  destruct (sf_is_nan y) eqn:Hny.
  { destruct y; try discriminate Hny. destruct x; reflexivity. }
  simpl in Hx, Hy. rewrite (SFadd_nonneg _ _ Hx Hy). apply orb_true_r.
Qed.

Lemma div_eucl_nonneg (a : Z) (b : positive) :
  (0 <= a)%Z -> (0 <= fst (Z.div_eucl a (Zpos b)))%Z.
Proof.
  intros Ha. pose proof (Z.div_pos a (Zpos b) Ha ltac:(lia)) as H.
  unfold Z.div in H. exact H.
Qed.

(** A quotient by a double that is neither negative nor zero. *)
Lemma SFdiv_nan_or_nonneg (x y : spec_float) :
  sf_nan_or_nonneg x = true -> sf_nonneg y = true ->
  SFeqb y (S754_zero false) = false ->
  sf_nan_or_nonneg (SF64div x y) = true.
Proof.
  unfold sf_nan_or_nonneg. intros Hx Hy Hz.
  destruct x as [sx|[]| |[] mx ex], y as [sy|[]| |[] my ey];
    try discriminate Hx; try discriminate Hy; try discriminate Hz; try reflexivity.
  unfold SF64div, SFdiv. simpl xorb.
  destruct (SFdiv_core_binary prec emax (Zpos mx) ex (Zpos my) ey) as [[mz ez] lz] eqn:Hcore.
  assert (Hmz : (0 <= mz)%Z).
  { unfold SFdiv_core_binary in Hcore.
    set (m' := match (ex - ey - _)%Z with
               | Zpos _ => _
               | Z0 => _
               | Zneg _ => _
               end) in Hcore.
    assert (Hm' : (0 <= m')%Z).
    { subst m'. destruct (ex - ey - _)%Z; try lia. apply Z.shiftl_nonneg. lia. }
    pose proof (div_eucl_nonneg m' my Hm') as Hq.
    destruct (Z.div_eucl m' (Zpos my)) as [q r]. simpl in Hq.
    now injection Hcore as <- _ _. }
  rewrite (binary_round_aux_nonneg mz ez lz Hmz). apply orb_true_r.
Qed.

(** The average [(n1 * a1 + n2 * p) / n] of non-negative prices, when it is
    a number. *)
Lemma weighted_average_nonneg (n1 n2 n : Z) (a1 p avg : float) :
  (0 <= n1)%Z -> (0 <= n2)%Z -> (0 <= n)%Z ->
  nonneg a1 -> nonneg p ->
  div_float_int (round_int n1 * a1 + round_int n2 * p) n = inr avg ->
  is_nan avg = false -> nonneg avg.
Proof.
  intros H1 H2 Hn Ha Hp Hdiv Hnan. unfold div_float_int in Hdiv.
  apply bind_ok in Hdiv as (d & ->%py_float_of_int_ok & Hdiv).
  destruct (round_int n =? 0) eqn:Hz; [discriminate|].
  injection Hdiv as <-.
  apply nan_or_nonneg; [|exact Hnan].
  rewrite FloatAxioms.eqb_spec in Hz. change (Prim2SF 0) with (S754_zero false) in Hz.
  rewrite div_spec, add_spec, !mul_spec.
  apply SFdiv_nan_or_nonneg; [| apply nonneg_spec, round_int_nonneg, Hn | exact Hz].
  apply SFadd_nan_or_nonneg.
  - apply SFmul_nan_or_nonneg; [|now apply nonneg_spec].
    unfold sf_nan_or_nonneg.
    rewrite (proj1 (nonneg_spec _) (round_int_nonneg n1 H1)). apply orb_true_r.
  - apply SFmul_nan_or_nonneg; [|now apply nonneg_spec].
    unfold sf_nan_or_nonneg.
    rewrite (proj1 (nonneg_spec _) (round_int_nonneg n2 H2)). apply orb_true_r.
Qed.

End Quotients.

(* ================================================================== *)
(** * Positions stay well formed *)

Lemma always_commit (P : db -> Prop) (conn : db) (w : world) :
  always P w -> P conn -> always P (commit conn w).
Proof.
  intros [_ Hall] Hc. split; [exact Hc|]. simpl.
  apply Forall_app. split; [exact Hall | now constructor].
Qed.

Lemma buy_price_nonneg (E : env) (symbol source : string) :
  quotes_nonneg E -> nonneg (buy_price E symbol source).
Proof.
  intros HE. unfold buy_price. case_bool_decide; [apply HE | apply fallback_price_nonneg].
Qed.

(** What SQLite accepted of the row a buy writes. *)
Lemma buy_statements_stored (E : env) (symbol : string) (q : Z) (price cost : float)
    (d conn : db) :
  buy_statements E symbol q price cost d = inr conn ->
  in_int64 q = true /\
  exists pos,
    portfolio conn !! (current_user E, symbol) = Some pos /\
    in_int64 (qty pos) = true /\ is_nan (avg_price pos) = false.
Proof.
  unfold buy_statements.
  intros (c1 & (Hp1 & _)%wallet_debit_ok & (c2 & Hup & Hins)%bind_ok)%bind_ok.
  unfold insert_transaction in Hins.
  apply bind_ok in Hins as (q' & Hq' & [= <-]).
  apply bind_ok in Hq' as (n' & [H64 ->]%sql_int_ok & [= <-]). simpl.
  split; [exact H64|].
  destruct (select_position (current_user E) symbol c1) as [row|].
  - apply bind_ok in Hup as (a & _ & Hup).
    apply bind_ok in Hup as (b & _ & Hup).
    apply bind_ok in Hup as (avg & _ & Hup).
    apply put_position_ok in Hup as (Hq64 & Hn & _ & _ & Hp).
    eexists. rewrite Hp, lookup_insert_eq. split; [reflexivity|].
    split; [exact Hq64 | now apply real_column_not_nan].
  - apply put_position_ok in Hup as (Hq64 & Hn & _ & _ & Hp).
    eexists. rewrite Hp, lookup_insert_eq. split; [reflexivity|].
    split; [exact Hq64 | now apply real_column_not_nan].
Qed.

Lemma positions_ok_insert (d : db) (m : gmap (Z * string) position)
    (k : Z * string) (p : position) :
  positions_ok d -> m = <[k := p]> (portfolio d) -> position_ok k p ->
  forall k' p', m !! k' = Some p' -> position_ok k' p'.
Proof.
  intros Hd -> Hp k' p'. destruct (decide (k' = k)) as [-> | Hk].
  - rewrite lookup_insert_eq. now intros [= <-].
  - rewrite lookup_insert_ne by congruence. apply Hd.
Qed.

(** One request keeps the positions well formed. *)
Lemma handle_positions_ok (E : env) (r : request) (w : world) :
  always positions_ok w -> quotes_nonneg E ->
  always positions_ok (snd (handle E r w)).
Proof.
  intros Hw HE. pose proof Hw as [Hcur _].
  destruct r as [amount | symbol q source | symbol q]; simpl.
  - destruct (wallet_add_deposited_cases E amount w)
      as [(a & c1 & -> & _ & Hc & ->) | [_ ->]]; [|exact Hw].
    apply wallet_credit_ok in Hc as (Hp & _).
    assert (H1 : positions_ok c1) by (intros k p; rewrite Hp; apply Hcur).
    apply always_commit; [now apply always_commit | exact H1].
  - destruct (buy_bought_cases E symbol q source w)
      as [(q' & cost & conn & -> & Hq & _ & _ & Hst & ->) | [_ ->]]; [|exact Hw].
    apply always_commit; [exact Hw|].
    pose proof (buy_statements_stored _ _ _ _ _ _ _ Hst) as (Hq64 & pos' & Hl & H64 & Hn).
    apply buy_statements_ok in Hst as (_ & (pos & Hpos & Hp) & _ & _).
    rewrite Hp, lookup_insert_eq in Hl. injection Hl as <-.
    refine (positions_ok_insert (current w) _ _ pos Hcur Hp _).
    pose proof (buy_price_nonneg E (normalize symbol) source HE) as Hprice.
    destruct (select_position _ _ _) as [row|] eqn:Hrow; simpl in Hpos.
    + destruct Hpos as (a & b & new_avg & Ha & Hb & Hdiv & ->).
      destruct (Hcur _ _ Hrow) as (Hr0 & _ & Hravg & _).
      unfold mul_int_float in Ha, Hb.
      apply bind_ok in Ha as (f1 & ->%py_float_of_int_ok & [= <-]).
      apply bind_ok in Hb as (f2 & ->%py_float_of_int_ok & [= <-]).
      simpl in H64, Hn.
      repeat split; try assumption; simpl; [lia | | apply normalize_idem].
      destruct (real_column_cases new_avg) as [[Heq _] | [-> _]]; [|reflexivity].
      rewrite Heq in *.
      apply (weighted_average_nonneg (qty row) q' (qty row + q')
               (avg_price row) (buy_price E (normalize symbol) source));
        try assumption; lia.
    + subst pos. repeat split; try assumption; simpl.
      * now apply real_column_nonneg.
      * apply normalize_idem.
  - destruct (sell_sold_cases E symbol q w)
      as [(q' & row & f & conn & -> & Hq & Hrow & _ & Hst & ->) | [_ ->]]; [|exact Hw].
    apply always_commit; [exact Hw|].
    apply (sell_statements_ok _ _ _ _ _ _ _ _ Hrow) in Hst as (_ & Hp & _ & _ & Hr64).
    destruct (Hcur _ _ Hrow) as (Hr0 & _ & Hravg & _).
    destruct (Z.eqb_spec (qty row - q') 0) as [H0 | H0].
    + intros k p. rewrite Hp. intros [_ Hl]%lookup_delete_Some. now apply Hcur.
    + refine (positions_ok_insert (current w) _ _ _ Hcur Hp _).
      repeat split; simpl; auto; [lia | apply normalize_idem].
Qed.

(** X8. The positions keep the shape of the data model: over any sequence of
    requests priced with non-negative quotes, every position of every
    committed snapshot has a positive quantity that fits SQLite's 64-bit
    INTEGER, a non-negative average cost (never NaN) and a key that is a
    normalised symbol; in particular a sell never leaves a row with quantity
    0 or less. *)
Theorem positions_stay_well_formed (reqs : list (env * request)) (w : world) :
  always positions_ok w ->
  Forall (fun Er => quotes_nonneg Er.1) reqs ->
  always positions_ok (run reqs w).
Proof.
  revert w. induction reqs as [|[E r] reqs IH]; intros w Hw HE; simpl; [exact Hw|].
  inversion HE as [|? ? HE1 HE2]; subst.
  apply IH; [|exact HE2]. now apply handle_positions_ok.
Qed.

Lemma fresh_positions_ok : always positions_ok Examples.fresh.
Proof. split; [|constructor]. intros k p. simpl. now rewrite lookup_empty. Qed.

Lemma positions_stay_well_formed_witness :
  always positions_ok
    (run [(Examples.offline, Deposit (Some 1000%float));
          (Examples.offline, Buy "AAPL" (Some 5) "fixed");
          (Examples.quoting 190, Sell "AAPL" (Some 2))]
         Examples.fresh).
Proof.
  apply positions_stay_well_formed.
  - exact fresh_positions_ok.
  - constructor; [exact offline_quotes_nonneg|].
    constructor; [exact offline_quotes_nonneg|].
    constructor; [intros symbol; reflexivity | constructor].
Defined.

(* ================================================================== *)
(** * Edge cases of buy and sell *)

(** X9. A price of 0.0 makes a buy free. When the resolved price is 0.0 (an
    unknown symbol while yfinance has no data, or with the fixed source), a
    buy of any valid quantity passes the sufficiency check whatever the
    (non-negative) balance, even 0: it is committed, the wallet is left as it
    was and the position is created with average cost 0.0. (The balance is
    one the REAL column can give back: not [-0.0].) *)
Theorem zero_price_buy_is_free (E : env) (symbol source : string) (q : Z)
    (w : world) :
  0 < q -> in_int64 q = true ->
  buy_price E (normalize symbol) source = 0%float ->
  select_position (current_user E) (normalize symbol) (current w) = None ->
  nonneg (get_wallet_balance (current_user E) w) ->
  real_column (get_wallet_balance (current_user E) w)
  = get_wallet_balance (current_user E) w ->
  exists w',
    buy E symbol (Some q) source w = (Bought, w') /\
    wallet (current w') = wallet (current w) /\
    select_position (current_user E) (normalize symbol) (current w')
      = Some (Position q 0).
Proof.
  intros Hq H64 Hprice Hnone Hb Hreal.
  assert (Hn : 0 <= q < 2 ^ 63).
  { unfold in_int64 in H64. apply andb_prop in H64 as [_ H]. lia. }
  unfold buy. destruct (Z.leb_spec q 0) as [? | _]; [lia|].
  rewrite Hprice. unfold mul_float_int.
  rewrite (py_float_of_int_int64 q (proj1 Hn) H64). simpl.
  rewrite (zero_times_round_int q Hn), (zero_cost_passes _ Hb).
  unfold buy_statements, get_db.
  assert (Hdebit : exists c1,
            wallet_debit (current_user E) 0 (current w) = inr c1 /\
            wallet c1 = wallet (current w) /\ portfolio c1 = portfolio (current w) /\
            transactions c1 = transactions (current w)).
  { unfold wallet_debit. unfold get_wallet_balance, get_db in Hb, Hreal.
    destruct (wallet (current w) !! current_user E) as [b|] eqn:Hw;
      simpl in Hb, Hreal.
    - unfold real_not_null, sql_real.
      rewrite minus_zero, (nonneg_not_nan b Hb), Hreal. simpl.
      eexists. split; [reflexivity|]. simpl. split; [|split; reflexivity].
      now apply insert_id.
    - eexists. split; [reflexivity|]. auto. }
  destruct Hdebit as (c1 & -> & Hw1 & Hp1 & Ht1). simpl.
  unfold select_position in *. rewrite Hp1, Hnone.
  unfold put_position, sql_int. rewrite H64. simpl.
  unfold insert_transaction, sql_int. rewrite H64. simpl.
  eexists. split; [reflexivity|]. simpl. split; [exact Hw1|].
  now rewrite lookup_insert_eq.
Qed.

Lemma zero_price_buy_is_free_witness :
  exists w',
    buy Examples.offline "xyz" (Some 1000) "auto" Examples.fresh = (Bought, w') /\
    wallet (current w') = wallet (current Examples.fresh) /\
    select_position 1 "XYZ" (current w') = Some (Position 1000 0).
Proof.
  apply (zero_price_buy_is_free Examples.offline "xyz" "auto" 1000 Examples.fresh);
    reflexivity.
Defined.

(** X10. A quantity SQLite cannot hold is never traded: for a quantity outside
    the 64-bit range no buy and no sell is carried out, whatever the price,
    the balance and the holdings; the answer is a rejection or an error and
    the world is unchanged. *)
Theorem quantity_beyond_int64_never_trades (E : env) (symbol source : string)
    (q : Z) (w : world) :
  in_int64 q = false ->
  (succeeded (fst (buy E symbol (Some q) source w)) = false /\
   snd (buy E symbol (Some q) source w) = w) /\
  (succeeded (fst (sell E symbol (Some q) w)) = false /\
   snd (sell E symbol (Some q) w) = w).
Proof.
  intros H64. split.
  - destruct (buy_bought_cases E symbol (Some q) source w)
      as [(q' & cost & conn & [= <-] & _ & _ & _ & Hst & _) | H]; [|exact H].
    apply buy_statements_stored in Hst as [Hq _]. congruence.
  - destruct (sell_sold_cases E symbol (Some q) w)
      as [(q' & row & f & conn & [= <-] & _ & Hrow & _ & Hst & _) | H]; [|exact H].
    apply (sell_statements_ok _ _ _ _ _ _ _ _ Hrow) in Hst as (_ & _ & _ & Hq & _).
    congruence.
Qed.

Lemma quantity_beyond_int64_never_trades_witness :
  (succeeded (fst (buy Examples.offline "XYZ" (Some (2 ^ 63)) "fixed" Examples.fresh))
   = false /\
   snd (buy Examples.offline "XYZ" (Some (2 ^ 63)) "fixed" Examples.fresh)
   = Examples.fresh) /\
  (succeeded (fst (sell Examples.offline "AAPL" (Some (2 ^ 63)) Examples.holding5))
   = false /\
   snd (sell Examples.offline "AAPL" (Some (2 ^ 63)) Examples.holding5)
   = Examples.holding5).
Proof.
  split.
  - apply (quantity_beyond_int64_never_trades Examples.offline "XYZ" "fixed" (2 ^ 63)
             Examples.fresh). reflexivity.
  - apply (quantity_beyond_int64_never_trades Examples.offline "AAPL" "fixed" (2 ^ 63)
             Examples.holding5). reflexivity.
Defined.

(* ================================================================== *)
(** * What the pages list *)

Lemma add_user_symbols_spec (syms : list string) :
  forall popular, exists extra,
    add_user_symbols syms popular = popular ++ extra /\
    NoDup extra /\
    (forall s, s ∈ extra -> s ∈ syms /\ s ∉ popular) /\
    (forall s, s ∈ syms -> s ∈ popular \/ s ∈ extra) /\
    (length extra <= length syms)%nat.
Proof.
  induction syms as [|sym rest IH]; intros popular; simpl.
  - exists []. rewrite app_nil_r.
    split; [reflexivity|]. split; [constructor|].
    split; [intros s Hs; now apply elem_of_nil in Hs|].
    split; [intros s Hs; now apply elem_of_nil in Hs | reflexivity].
  - case_bool_decide as Hin.
    + destruct (IH popular) as (extra & -> & Hnd & Hex & Hcov & Hlen).
      exists extra. split; [reflexivity|]. split; [exact Hnd|].
      split; [|split; [|lia]].
      * intros s Hs. destruct (Hex s Hs) as [H1 H2]. split; [|exact H2].
        apply elem_of_cons. now right.
      * intros s [-> | Hs]%elem_of_cons; [now left | now apply Hcov].
    + destruct (IH (popular ++ [sym])) as (extra & -> & Hnd & Hex & Hcov & Hlen).
      exists (sym :: extra). rewrite <- app_assoc. simpl.
      split; [reflexivity|]. split; [|split; [|split; [|lia]]].
      * apply NoDup_cons. split; [|exact Hnd]. intros Hs.
        destruct (Hex sym Hs) as [_ H2]. apply H2, elem_of_app. right.
        now apply list_elem_of_singleton.
      * intros s [-> | Hs]%elem_of_cons.
        -- split; [apply elem_of_cons; now left | exact Hin].
        -- destruct (Hex s Hs) as [H1 H2]. split; [apply elem_of_cons; now right|].
           intros H. apply H2, elem_of_app. now left.
      * intros s [-> | Hs]%elem_of_cons.
        -- right. apply elem_of_cons. now left.
        -- destruct (Hcov s Hs) as [[H | H]%elem_of_app | H].
           ++ now left.
           ++ apply list_elem_of_singleton in H as ->. right. apply elem_of_cons. now left.
           ++ right. apply elem_of_cons. now right.
Qed.

Lemma fallback_keys_table (s : string) :
  s ∈ FALLBACK_KEYS <-> is_Some (FALLBACK_PRICES !! s).
Proof.
  unfold FALLBACK_KEYS, FALLBACK_PRICES. simpl.
  rewrite !lookup_insert_is_Some, lookup_empty, is_Some_alt.
  rewrite !elem_of_cons, elem_of_nil. intuition congruence.
Qed.

Lemma fallback_keys_NoDup : NoDup FALLBACK_KEYS.
Proof.
  unfold FALLBACK_KEYS.
  repeat (apply NoDup_cons; split;
          [rewrite ?not_elem_of_cons; repeat split; try discriminate;
           apply not_elem_of_nil|]).
  constructor.
Qed.

Lemma select_positions_symbols (uid : Z) (d : db) (s : string) :
  s ∈ map fst (select_positions uid d) <-> is_Some (select_position uid s d).
Proof.
  change (@map) with (@fmap list _). rewrite list_elem_of_fmap. split.
  - intros ([s' p] & -> & Hin). apply elem_of_select_positions in Hin.
    unfold select_position. simpl. eauto.
  - intros [p Hp]. exists (s, p). split; [reflexivity|].
    now apply elem_of_select_positions.
Qed.

Lemma select_positions_NoDup (uid : Z) (d : db) :
  NoDup (map fst (select_positions uid d)).
Proof.
  unfold select_positions. change (@map) with (@fmap list _).
  rewrite by_symbol_perm.
  pose proof (NoDup_fst_map_to_list (portfolio d)) as Hnd.
  induction (map_to_list (portfolio d)) as [|[[u s] p] l IH]; simpl; [constructor|].
  apply NoDup_cons in Hnd as [Hk Hnd]. specialize (IH Hnd).
  destruct (decide (u = uid)) as [-> |]; simpl; [|exact IH].
  apply NoDup_cons. split; [|exact IH].
  rewrite list_elem_of_fmap.
  intros ([s' p'] & Hs & Hin). simpl in Hs. subst s'.
  apply list_elem_of_omap in Hin as ([[u' s''] p''] & Hin & Hf). simpl in Hf.
  destruct (decide (u' = uid)) as [-> |]; [|discriminate].
  injection Hf as -> ->. apply Hk.
  apply list_elem_of_fmap. exists (uid, s, p'). split; [reflexivity | exact Hin].
Qed.

Section HomeFacts.

Variable format_money : float -> string.

(** X11. The home page quotes at most 12 symbols, without repeats: the six
    symbols of the fallback table always come first, in the table's order,
    then symbols the user holds; nothing else is listed, and when the user
    holds at most six symbols every one of them is listed. Beyond that some
    holdings are cut off. The balance shown is the wallet balance. *)
Theorem home_quotes (E : env) (w : world) :
  let page := home format_money E w in
  let shown := map fst (fst page) in
  let uid := current_user E in
  (length shown <= 12)%nat /\
  take 6 shown = FALLBACK_KEYS /\
  NoDup shown /\
  (forall s, s ∈ shown ->
     is_Some (FALLBACK_PRICES !! s) \/ is_Some (select_position uid s (current w))) /\
  ((length (select_positions uid (current w)) <= 6)%nat ->
   forall s, is_Some (select_position uid s (current w)) -> s ∈ shown) /\
  (forall s, s ∈ shown ->
     (s, format_money (get_live_price (yf E) s)) ∈ fst page) /\
  snd page = get_wallet_balance uid w.
Proof.
  intros page shown uid.
  assert (Hshown : shown = home_popular uid (current w)).
  { subst shown page. unfold home, get_db. simpl.
    rewrite map_map. simpl. apply map_id. }
  unfold home_popular in Hshown.
  destruct (add_user_symbols_spec (map fst (select_positions uid (current w)))
              FALLBACK_KEYS) as (extra & Heq & Hnd & Hex & Hcov & Hlen).
  rewrite Heq in Hshown.
  assert (Hall : NoDup (FALLBACK_KEYS ++ extra)).
  { apply NoDup_app. split; [exact fallback_keys_NoDup|]. split; [|exact Hnd].
    intros s Hs Hs'. now destruct (Hex s Hs') as [_ H]. }
  repeat split.
  - rewrite Hshown, length_take. lia.
  - rewrite Hshown, take_take. simpl Nat.min. now rewrite take_app_le by (simpl; lia).
  - rewrite Hshown. eapply sublist_NoDup; [exact Hall | apply sublist_take].
  - intros s Hs. rewrite Hshown in Hs. apply subseteq_take in Hs.
    apply elem_of_app in Hs as [Hs | Hs].
    + left. now apply fallback_keys_table.
    + right. apply Hex in Hs as [Hs _]. now apply select_positions_symbols.
  - intros Hsix s Hs. rewrite Hshown, take_ge.
    + apply select_positions_symbols, Hcov in Hs. now apply elem_of_app.
    + rewrite List.length_app. rewrite length_map in Hlen. simpl. lia.
  - intros s Hs. subst page. unfold home. simpl fst.
    change (@map) with (@fmap list _). apply list_elem_of_fmap. exists s.
    split; [reflexivity|]. subst shown. unfold home in Hs. simpl in Hs.
    rewrite map_map in Hs. simpl in Hs. now rewrite map_id in Hs.
Qed.

End HomeFacts.

(** With nine holdings, eight of them outside the table, only six of those make
    the page. *)
Example home_cuts_at_twelve :
  home_popular 1 Cases.many_symbols
  = FALLBACK_KEYS ++ take 6 (filter (fun s => s ∉ FALLBACK_KEYS)
                               (map fst (select_positions 1 Cases.many_symbols))) /\
  length (select_positions 1 Cases.many_symbols) = 9%nat.
Proof. vm_compute. split; reflexivity. Qed.

Section PageFacts.

Variable format_2f : float -> string.
Variable round2 : float -> float.

(** X12. The portfolio page and the profit API list the same positions in
    the same order: one item, one label and one data point for each position
    the user holds (quantities being 64-bit), each held symbol exactly once;
    with no position both are empty and the totals are those of 0.0. *)
Theorem views_list_holdings (E : env) (w : world) :
  let uid := current_user E in
  let rows := select_positions uid (current w) in
  rows_convert rows = true ->
  exists page labels data,
    portfolio_view format_2f E w = inr page /\
    api_profit round2 E w = inr (labels, data) /\
    map item_symbol (page_items page) = labels /\
    length data = length labels /\
    length labels = length rows /\
    NoDup labels /\
    (forall s, s ∈ labels <-> is_Some (select_position uid s (current w))) /\
    page_wallet page = get_wallet_balance uid w /\
    (rows = [] ->
     page = PortfolioPage [] (get_wallet_balance uid w) (format_2f 0) (format_2f 0) /\
     labels = [] /\ data = []).
Proof.
  intros uid rows Hconv.
  unfold portfolio_view, api_profit, get_db. fold uid. fold rows.
  destruct (portfolio_loop_ok format_2f E rows Hconv [] 0%float 0%float)
    as (tv & tc & Hloop).
  rewrite (api_profit_loop_ok round2 E rows Hconv).
  assert (Hempty : rows = [] -> tv = 0%float /\ tc = 0%float).
  { intros Hr. rewrite Hr in Hloop. simpl in Hloop. now injection Hloop as <- <-. }
  rewrite Hloop. simpl.
  eexists _, _, _. split; [reflexivity|]. split; [reflexivity|]. simpl.
  repeat split.
  - rewrite map_map. reflexivity.
  - now rewrite !length_map.
  - now rewrite length_map.
  - apply select_positions_NoDup.
  - apply select_positions_symbols.
  - apply select_positions_symbols.
  - destruct (Hempty H) as [-> ->]. now rewrite H.
  - now rewrite H.
  - now rewrite H.
Qed.

End PageFacts.

Lemma views_list_holdings_witness :
  exists page labels data,
    portfolio_view (fun _ => ""%string) (Examples.quoting 181) Examples.averaged
      = inr page /\
    api_profit (fun x => x) (Examples.quoting 181) Examples.averaged
      = inr (labels, data) /\
    map item_symbol (page_items page) = labels /\
    length data = length labels /\
    length labels = length (select_positions 1 (current Examples.averaged)) /\
    NoDup labels /\
    (forall s, s ∈ labels <-> is_Some (select_position 1 s (current Examples.averaged))) /\
    page_wallet page = get_wallet_balance 1 Examples.averaged /\
    (select_positions 1 (current Examples.averaged) = [] ->
     page = PortfolioPage [] (get_wallet_balance 1 Examples.averaged) "" "" /\
     labels = [] /\ data = []).
Proof.
  apply (views_list_holdings (fun _ => ""%string) (fun x => x) (Examples.quoting 181)
           Examples.averaged).
  vm_compute. reflexivity.
Defined.

(* ================================================================== *)
(** * Accounts *)

Lemma find_user_Some (name : string) (us : list user) (u : user) :
  find_user name us = Some u -> u ∈ us /\ username u = name.
Proof.
  intros [Hin Hb]%find_some. split; [now apply list_elem_of_In|].
  now apply bool_decide_eq_true in Hb.
Qed.

Lemma find_user_None (name : string) (us : list user) :
  find_user name us = None <-> name ∉ map username us.
Proof.
  unfold find_user. induction us as [|u us IH]; simpl.
  - split; [intros _; apply not_elem_of_nil | reflexivity].
  - rewrite not_elem_of_cons. case_bool_decide as Hn.
    + split; [discriminate | intros [H _]; now elim H].
    + rewrite IH. split; [intros H; split; [congruence | exact H] | now intros [_ H]].
Qed.

Lemma user_by_id_Some (uid : Z) (us : list user) (u : user) :
  user_by_id uid us = Some u -> u ∈ us /\ user_id u = uid.
Proof.
  intros [Hin Hb]%find_some. split; [now apply list_elem_of_In|].
  now apply bool_decide_eq_true in Hb.
Qed.

Lemma max_id_ge (us : list user) (u : user) : u ∈ us -> user_id u <= max_id us.
Proof.
  induction us as [|v us IH]; simpl.
  - intros H. now apply elem_of_nil in H.
  - intros [-> | H]%elem_of_cons; [lia|]. specialize (IH H). lia.
Qed.

Lemma elem_of_user_ids (us : list user) (u : user) :
  u ∈ us -> user_id u ∈ map user_id us.
Proof.
  intros H. change (@map) with (@fmap list _). apply list_elem_of_fmap. eauto.
Qed.

Lemma fresh_id_not_used (s : site) : largest_id s + 1 ∉ map user_id (users s).
Proof.
  change (@map) with (@fmap list _). rewrite list_elem_of_fmap.
  intros (u & Hu & Hin). apply max_id_ge in Hin. unfold largest_id in Hu. lia.
Qed.

(** Two rows of a table with a UNIQUE column that agree on it are one row. *)
Lemma NoDup_map_eq {A B} (f : A -> B) (l : list A) (x y : A) :
  NoDup (map f l) -> x ∈ l -> y ∈ l -> f x = f y -> x = y.
Proof.
  induction l as [|a l IH]; simpl; intros Hnd Hx Hy Hf.
  - now apply elem_of_nil in Hx.
  - apply NoDup_cons in Hnd as [Ha Hnd].
    assert (Hin : forall z, z ∈ l -> f z ∈ map f l).
    { intros z Hz. change (@map) with (@fmap list _). apply list_elem_of_fmap. eauto. }
    apply elem_of_cons in Hx as [-> | Hx], Hy as [-> | Hy]; auto.
    + elim Ha. rewrite Hf. now apply Hin.
    + elim Ha. rewrite <- Hf. now apply Hin.
Qed.

(** What a registration that goes through does. *)
Lemma register_registered (pw_hash form_username form_password : string)
    (s : site) :
  site_ok s ->
  py_strip form_username <> ""%string -> form_password <> ""%string ->
  (py_strip form_username ∉ map username (users s)) ->
  largest_id s < 2 ^ 63 - 1 ->
  let r := register pw_hash form_username form_password s in
  let uid := largest_id s + 1 in
  fst r = Registered /\
  users (snd r) = users s ++ [User uid (py_strip form_username) pw_hash] /\
  (uid ∉ map user_id (users s)) /\
  session (snd r) = session s /\
  wallet (current (ledger (snd r))) = <[uid := 0%float]> (wallet (current (ledger s))) /\
  get_wallet_balance uid (ledger (snd r)) = 0%float /\
  portfolio (current (ledger (snd r))) = portfolio (current (ledger s)) /\
  transactions (current (ledger (snd r))) = transactions (current (ledger s)) /\
  site_ok (snd r).
Proof.
  intros (Hids & Hnames & Hseq & Hwal) Hname Hpw Hfree Hroom r uid.
  pose proof (fresh_id_not_used s) as Hfresh. fold uid in Hfresh.
  assert (Hnone : wallet (current (ledger s)) !! uid = None).
  { destruct (wallet (current (ledger s)) !! uid) eqn:H; [|reflexivity].
    elim Hfresh. apply Hwal. rewrite H. eauto. }
  assert (Hr : r = (Registered,
                    Site (users s ++ [User uid (py_strip form_username) pw_hash]) uid
                         (session s)
                         (commit (Db (<[uid := 0%float]> (wallet (current (ledger s))))
                                     (portfolio (current (ledger s)))
                                     (transactions (current (ledger s))))
                                 (commit (current (ledger s)) (ledger s))))).
  { subst r. unfold register.
    rewrite !bool_decide_eq_false_2 by assumption. simpl.
    destruct (Z.leb_spec (2 ^ 63 - 1) (largest_id s)) as [? | _]; [lia|].
    rewrite (proj2 (find_user_None _ _) Hfree). unfold get_db. simpl.
    fold uid. now rewrite Hnone. }
  rewrite Hr. simpl. unfold get_wallet_balance, get_db. simpl.
  rewrite lookup_insert_eq. repeat split; try assumption; simpl.
  - rewrite map_app. apply NoDup_app. split; [exact Hids|]. split; [|repeat constructor].
    + intros x Hx [-> | H]%elem_of_cons; [now elim Hfresh | now apply elem_of_nil in H].
    + apply not_elem_of_nil.
  - rewrite map_app. apply NoDup_app. split; [exact Hnames|]. split; [|repeat constructor].
    + intros x Hx [-> | H]%elem_of_cons; [now elim Hfree | now apply elem_of_nil in H].
    + apply not_elem_of_nil.
  - intros u [Hu | Hu]%elem_of_app.
    + apply max_id_ge in Hu. unfold uid, largest_id. lia.
    + apply list_elem_of_singleton in Hu as ->. simpl. lia.
  - intros x Hx. rewrite map_app. apply elem_of_app.
    apply lookup_insert_is_Some in Hx as [<- | [_ Hx]].
    + right. simpl. apply elem_of_cons. now left.
    + left. now apply Hwal.
Qed.

(** X13. Registering creates the account with an empty wallet. With a user
    name that is not blank after stripping and not taken, and a password that
    is not empty, [register] answers Registered: the new user gets an id used
    by no one else, the stripped name and the given hash; a wallet row with
    balance 0.0 is created for that id; every other user, wallet, position
    and record is as before, and nobody is logged in by it. *)
Theorem register_creates_account (pw_hash form_username form_password : string)
    (s : site) :
  site_ok s ->
  py_strip form_username <> ""%string -> form_password <> ""%string ->
  (py_strip form_username ∉ map username (users s)) ->
  largest_id s < 2 ^ 63 - 1 ->
  let r := register pw_hash form_username form_password s in
  let uid := largest_id s + 1 in
  fst r = Registered /\
  users (snd r) = users s ++ [User uid (py_strip form_username) pw_hash] /\
  (uid ∉ map user_id (users s)) /\
  session (snd r) = session s /\
  wallet (current (ledger (snd r))) = <[uid := 0%float]> (wallet (current (ledger s))) /\
  get_wallet_balance uid (ledger (snd r)) = 0%float /\
  portfolio (current (ledger (snd r))) = portfolio (current (ledger s)) /\
  transactions (current (ledger (snd r))) = transactions (current (ledger s)) /\
  site_ok (snd r).
Proof. apply register_registered. Qed.

Lemma empty_site_ok : site_ok Cases.empty_site.
Proof.
  repeat split; simpl; try constructor.
  - intros u Hu. now apply elem_of_nil in Hu.
  - intros uid [b Hb]. now rewrite lookup_empty in Hb.
Qed.

Lemma register_creates_account_witness :
  let r := register "h:pw1" " ann " "pw1" Cases.empty_site in
  fst r = Registered /\
  users (snd r) = [User 1 "ann" "h:pw1"] /\
  (1 ∉ map user_id (users Cases.empty_site)) /\
  session (snd r) = None /\
  wallet (current (ledger (snd r))) = <[1 := 0%float]> ∅ /\
  get_wallet_balance 1 (ledger (snd r)) = 0%float /\
  portfolio (current (ledger (snd r))) = ∅ /\
  transactions (current (ledger (snd r))) = [] /\
  site_ok (snd r).
Proof.
  apply (register_creates_account "h:pw1" " ann " "pw1" Cases.empty_site).
  - exact empty_site_ok.
  - discriminate.
  - discriminate.
  - apply not_elem_of_nil.
  - reflexivity.
Defined.

(** X14. A registration that cannot go through changes nothing: when the user
    name is blank after stripping, the password is empty, or the name is
    taken by a registered user, [register] answers with the rejection (or
    with the error of a full table) and no user, wallet or session is
    touched. *)
Theorem register_rejects (pw_hash form_username form_password : string) (s : site) :
  py_strip form_username = ""%string \/ form_password = ""%string \/
  py_strip form_username ∈ map username (users s) ->
  let r := register pw_hash form_username form_password s in
  snd r = s /\
  (fst r = FieldsRequired \/ fst r = UsernameTaken \/ fst r = TableFull) /\
  (fst r = FieldsRequired <->
   py_strip form_username = ""%string \/ form_password = ""%string).
Proof.
  intros H r. subst r. unfold register.
  destruct (bool_decide (py_strip form_username = ""%string)) eqn:Hn;
    [apply bool_decide_eq_true in Hn; simpl; intuition|].
  destruct (bool_decide (form_password = ""%string)) eqn:Hp;
    [apply bool_decide_eq_true in Hp; simpl; intuition|].
  apply bool_decide_eq_false in Hn, Hp. simpl.
  destruct H as [H | [H | H]]; [contradiction.. |].
  destruct (2 ^ 63 - 1 <=? largest_id s); simpl.
  { repeat split; auto; [discriminate | intros [? | ?]; contradiction]. }
  destruct (find_user (py_strip form_username) (users s)) eqn:Hf.
  - simpl. repeat split; auto; [discriminate | intros [? | ?]; contradiction].
  - apply find_user_None in Hf. contradiction.
Qed.

Lemma register_rejects_witness :
  let r := register "h" "ANN" "" Cases.two_accounts in
  let r' := register "h" " bob" "pw" Cases.two_accounts in
  (snd r = Cases.two_accounts /\ fst r = FieldsRequired) /\
  (snd r' = Cases.two_accounts /\ fst r' = UsernameTaken).
Proof.
  split.
  - destruct (register_rejects "h" "ANN" "" Cases.two_accounts) as (H1 & _ & _).
    + right; left; reflexivity.
    + split; [exact H1 | reflexivity].
  - destruct (register_rejects "h" " bob" "pw" Cases.two_accounts) as (H1 & _ & _).
    + right; right. vm_compute. apply elem_of_cons. right. apply elem_of_cons. now left.
    + split; [exact H1 | reflexivity].
Defined.

Lemma user_by_id_found (us : list user) (u : user) :
  u ∈ us -> exists u', user_by_id (user_id u) us = Some u' /\ user_id u' = user_id u.
Proof.
  unfold user_by_id. induction us as [|v us IH]; simpl.
  - intros H. now apply elem_of_nil in H.
  - intros [-> | H]%elem_of_cons.
    + rewrite bool_decide_eq_true_2 by reflexivity. eauto.
    + case_bool_decide as Hv; [eauto | now apply IH].
Qed.

Lemma logged_in_user (s : site) (uid : Z) :
  logged_in s = Some uid ->
  session s = Some uid /\ exists u, u ∈ users s /\ user_id u = uid.
Proof.
  unfold logged_in, load_user. destruct (session s) as [uid0|]; [|discriminate].
  destruct (user_by_id uid0 (users s)) as [u|] eqn:Hu; [|discriminate].
  simpl. intros [= <-]. apply user_by_id_Some in Hu as [Hin Hid].
  split; [now rewrite Hid | eauto].
Qed.

Lemma ensure_wallet_balance (uid u : Z) (w : world) :
  get_wallet_balance u (ensure_wallet uid w) = get_wallet_balance u w.
Proof.
  unfold ensure_wallet, get_wallet_balance, get_db. simpl.
  destruct (wallet (current w) !! uid) as [b|] eqn:Hb; [reflexivity|]. simpl.
  destruct (decide (u = uid)) as [-> | Hu].
  - now rewrite lookup_insert_eq, Hb.
  - now rewrite lookup_insert_ne.
Qed.

Lemma ensure_wallet_rows (uid : Z) (w : world) (u : Z) :
  is_Some (wallet (current (ensure_wallet uid w)) !! u)
  <-> u = uid \/ is_Some (wallet (current w) !! u).
Proof.
  unfold ensure_wallet, get_db. simpl.
  destruct (wallet (current w) !! uid) as [b|] eqn:Hb; simpl.
  - split; [now right | intros [-> | H]; [rewrite Hb; eauto | exact H]].
  - rewrite lookup_insert_is_Some. split.
    + intros [<- | [_ H]]; [now left | now right].
    + intros [-> | H]; [now left|]. destruct (decide (uid = u)) as [-> | Hd]; auto.
Qed.

Section LoginFacts.

Variable check_password_hash : string -> string -> bool.

(** X15. [login] lets in exactly the registered user whose stored hash
    matches: on Welcome the session holds that user's id, the user's wallet
    row exists from then on, and no balance, position, record or user row
    has changed; otherwise the answer is InvalidCredentials, nothing at all
    has changed, and no user of that (stripped) name has a matching hash. *)
Theorem login_outcome (form_username form_password : string) (s : site) :
  site_ok s ->
  let r := login check_password_hash form_username form_password s in
  let name := py_strip form_username in
  (fst r = Welcome /\
   exists row,
     row ∈ users s /\ username row = name /\
     check_password_hash (password_hash row) form_password = true /\
     session (snd r) = Some (user_id row) /\
     logged_in (snd r) = Some (user_id row) /\
     is_Some (wallet (current (ledger (snd r))) !! user_id row) /\
     (forall u, get_wallet_balance u (ledger (snd r)) = get_wallet_balance u (ledger s)) /\
     users (snd r) = users s /\
     portfolio (current (ledger (snd r))) = portfolio (current (ledger s)) /\
     transactions (current (ledger (snd r))) = transactions (current (ledger s))) \/
  (fst r = InvalidCredentials /\ snd r = s /\
   forall row, row ∈ users s -> username row = name ->
               check_password_hash (password_hash row) form_password = false).
Proof.
  intros (Hids & Hnames & _ & _) r name. subst r. unfold login. fold name.
  destruct (find_user name (users s)) as [row|] eqn:Hf.
  - apply find_user_Some in Hf as [Hin Hname].
    destruct (check_password_hash (password_hash row) form_password) eqn:Hc.
    + left. split; [reflexivity|]. exists row. simpl.
      repeat split; try assumption.
      * unfold logged_in, load_user. simpl.
        destruct (user_by_id_found _ _ Hin) as (u' & -> & Hid). simpl. now rewrite Hid.
      * apply ensure_wallet_rows. now left.
      * intros u. apply ensure_wallet_balance.
      * unfold ensure_wallet, get_db. simpl. now destruct (wallet _ !! _).
      * unfold ensure_wallet, get_db. simpl. now destruct (wallet _ !! _).
    + right. repeat split. intros row' Hin' Hname'.
      rewrite <- (NoDup_map_eq username (users s) row row' Hnames Hin Hin'); [exact Hc|].
      congruence.
  - right. repeat split. intros row Hin Hname.
    apply find_user_None in Hf. elim Hf.
    rewrite <- Hname. change (@map) with (@fmap list _). apply list_elem_of_fmap. eauto.
Qed.

End LoginFacts.

Lemma two_accounts_ok : site_ok Cases.two_accounts.
Proof.
  unfold Cases.two_accounts.
  apply register_registered; try discriminate; try reflexivity.
  - apply register_registered; try discriminate; try reflexivity.
    + exact empty_site_ok.
    + apply not_elem_of_nil.
  - vm_compute. intros [H | H]%elem_of_cons; [discriminate | now apply elem_of_nil in H].
Qed.

Lemma login_outcome_witness :
  let r := login Cases.toy_check "bob " "pw2" Cases.two_accounts in
  (fst r = Welcome /\
   exists row,
     row ∈ users Cases.two_accounts /\ username row = "bob"%string /\
     Cases.toy_check (password_hash row) "pw2" = true /\
     session (snd r) = Some (user_id row) /\
     logged_in (snd r) = Some (user_id row) /\
     is_Some (wallet (current (ledger (snd r))) !! user_id row) /\
     (forall u, get_wallet_balance u (ledger (snd r))
                = get_wallet_balance u (ledger Cases.two_accounts)) /\
     users (snd r) = users Cases.two_accounts /\
     portfolio (current (ledger (snd r)))
       = portfolio (current (ledger Cases.two_accounts)) /\
     transactions (current (ledger (snd r)))
       = transactions (current (ledger Cases.two_accounts))) \/
  (fst r = InvalidCredentials /\ snd r = Cases.two_accounts /\
   forall row, row ∈ users Cases.two_accounts -> username row = "bob"%string ->
               Cases.toy_check (password_hash row) "pw2" = false).
Proof.
  apply (login_outcome Cases.toy_check "bob " "pw2" Cases.two_accounts).
  exact two_accounts_ok.
Defined.

(* ================================================================== *)
(** * Renaming an account *)

Lemma rename_user_ids (uid : Z) (newname : string) (us : list user) :
  map user_id
      (map (fun u => if bool_decide (user_id u = uid)
                     then User (user_id u) newname (password_hash u) else u) us)
  = map user_id us.
Proof.
  rewrite map_map. apply map_ext. intros u. now case_bool_decide.
Qed.

Lemma rename_user_names (uid : Z) (newname : string) (us : list user) (x : string) :
  x ∈ map username
        (map (fun u => if bool_decide (user_id u = uid)
                       then User (user_id u) newname (password_hash u) else u) us) ->
  x ∈ map username us \/ (x = newname /\ uid ∈ map user_id us).
Proof.
  induction us as [|u us IH]; simpl.
  - intros H. now apply elem_of_nil in H.
  - intros [-> | H]%elem_of_cons.
    + case_bool_decide as Hu; simpl.
      * right. split; [reflexivity|]. rewrite <- Hu. apply elem_of_cons. now left.
      * left. apply elem_of_cons. now left.
    + destruct (IH H) as [H1 | [-> H1]].
      * left. apply elem_of_cons. now right.
      * right. split; [reflexivity|]. apply elem_of_cons. now right.
Qed.

Lemma rename_user_NoDup (uid : Z) (newname : string) (us : list user) :
  NoDup (map user_id us) -> NoDup (map username us) ->
  (forall u, u ∈ us -> username u = newname -> user_id u = uid) ->
  NoDup (map username
           (map (fun u => if bool_decide (user_id u = uid)
                          then User (user_id u) newname (password_hash u) else u) us)).
Proof.
  induction us as [|u us IH]; simpl; [constructor|].
  intros [Hid Hids]%NoDup_cons [Hname Hnames]%NoDup_cons Hfree.
  apply NoDup_cons. split.
  - intros [H | [H1 H2]]%rename_user_names.
    + case_bool_decide as Hu; simpl in H; [|now apply Hname].
      change (@map) with (@fmap list _) in H.
      apply list_elem_of_fmap in H as (v & Hv & Hin).
      apply Hid. rewrite Hu, <- (Hfree v); [|apply elem_of_cons; now right | now symmetry].
      change (@map) with (@fmap list _). apply list_elem_of_fmap. eauto.
    + case_bool_decide as Hu; simpl in H1.
      * apply Hid. now rewrite Hu.
      * apply Hu, Hfree; [apply elem_of_cons; now left | exact H1].
  - apply IH; try assumption. intros v Hv. apply Hfree, elem_of_cons. now right.
Qed.

Lemma rename_user_cases (uid : Z) (newname : string) (us : list user) :
  uid ∈ map user_id us ->
  (rename_user uid newname us = None /\
   exists u, u ∈ us /\ username u = newname /\ user_id u <> uid) \/
  (rename_user uid newname us
   = Some (map (fun u => if bool_decide (user_id u = uid)
                         then User (user_id u) newname (password_hash u) else u) us) /\
   forall u, u ∈ us -> username u = newname -> user_id u = uid).
Proof.
  intros Hin. unfold rename_user.
  assert (existsb (fun u => bool_decide (user_id u = uid)) us = true) as ->.
  { change (@map) with (@fmap list _) in Hin.
    apply list_elem_of_fmap in Hin as (u & Hu & Hin).
    apply existsb_exists. exists u. split; [now apply list_elem_of_In|].
    now apply bool_decide_eq_true_2. }
  rewrite andb_true_r.
  destruct (existsb _ us) eqn:Hex.
  - left. split; [reflexivity|].
    apply existsb_exists in Hex as (u & Hu & [H1 H2]%andb_true_iff).
    exists u. apply list_elem_of_In in Hu.
    apply bool_decide_eq_true_1 in H1. apply negb_true_iff in H2.
    apply bool_decide_eq_false_1 in H2. auto.
  - right. split; [reflexivity|]. intros u Hu Hname.
    destruct (decide (user_id u = uid)) as [Hd | Hd]; [exact Hd|].
    assert (existsb (fun u => bool_decide (username u = newname) &&
                              negb (bool_decide (user_id u = uid))) us = true) as Ht;
      [|congruence].
    apply existsb_exists. exists u. split; [now apply list_elem_of_In|].
    rewrite bool_decide_eq_true_2 by exact Hname.
    now rewrite bool_decide_eq_false_2 by exact Hd.
Qed.

Lemma profile_renamed_ok (uid : Z) (newname : string) (s : site) :
  site_ok s ->
  (forall u, u ∈ users s -> username u = newname -> user_id u = uid) ->
  site_ok (Site (map (fun u => if bool_decide (user_id u = uid)
                               then User (user_id u) newname (password_hash u)
                               else u) (users s))
                (users_seq s) None (commit (get_db (ledger s)) (ledger s))).
Proof.
  intros (Hids & Hnames & Hseq & Hrows) Hfree. repeat split; simpl.
  - now rewrite rename_user_ids.
  - now apply rename_user_NoDup.
  - intros u Hu. change (@map) with (@fmap list _) in Hu.
    apply list_elem_of_fmap in Hu as (v & -> & Hv).
    case_bool_decide; simpl; now apply Hseq.
  - intros u Hu. rewrite rename_user_ids. now apply Hrows.
Qed.

Section ProfileFacts.

Variable format_2f : float -> string.

(** X16. A logged-in user who posts a non-blank new name to [profile]: when
    another account holds the (stripped) name, nothing changes and the
    profile page comes back with "already taken"; otherwise the user's row
    alone gets the new name, ids and password hashes stay, the ledger data
    is untouched, the accounts stay well formed, and the user is logged
    out. *)
Theorem profile_rename (form_username : string) (s : site) (uid : Z) :
  site_ok s ->
  logged_in s = Some uid ->
  py_strip form_username <> ""%string ->
  let newname := py_strip form_username in
  let r := profile format_2f (Some form_username) s in
  ((exists u, u ∈ users s /\ username u = newname /\ user_id u <> uid) ->
   r = (profile_page format_2f true uid s, s)) /\
  ((forall u, u ∈ users s -> username u = newname -> user_id u = uid) ->
   fst r = Renamed /\
   users (snd r)
   = map (fun u => if bool_decide (user_id u = uid)
                   then User (user_id u) newname (password_hash u) else u) (users s) /\
   users_seq (snd r) = users_seq s /\
   current (ledger (snd r)) = current (ledger s) /\
   logged_in (snd r) = None /\
   site_ok (snd r)).
Proof.
  intros Hok Hlog Hname newname r. subst r. unfold profile. rewrite Hlog.
  fold newname. rewrite bool_decide_eq_false_2 by exact Hname.
  apply logged_in_user in Hlog as (_ & u0 & Hu0 & Hid0).
  assert (uid ∈ map user_id (users s)) as Hin.
  { rewrite <- Hid0. change (@map) with (@fmap list _). apply list_elem_of_fmap. eauto. }
  destruct (rename_user_cases uid newname (users s) Hin)
    as [[-> (u & Hu & Hn & Hd)] | [-> Hfree]].
  - split; [reflexivity|]. intros Hf. elim Hd. now apply Hf.
  - split.
    + intros (u & Hu & Hn & Hd). elim Hd. now apply Hfree.
    + intros _. simpl. do 5 (split; [reflexivity|]). now apply profile_renamed_ok.
Qed.

End ProfileFacts.

Lemma profile_rename_witness :
  let s := snd (login Cases.toy_check "bob" "pw2" Cases.two_accounts) in
  let r := profile (fun _ => ""%string) (Some " carol ") s in
  ((exists u, u ∈ users s /\ username u = "carol"%string /\ user_id u <> 2) ->
   r = (profile_page (fun _ => ""%string) true 2 s, s)) /\
  ((forall u, u ∈ users s -> username u = "carol"%string -> user_id u = 2) ->
   fst r = Renamed /\
   users (snd r)
   = map (fun u => if bool_decide (user_id u = 2)
                   then User (user_id u) "carol" (password_hash u) else u) (users s) /\
   users_seq (snd r) = users_seq s /\
   current (ledger (snd r)) = current (ledger s) /\
   logged_in (snd r) = None /\
   site_ok (snd r)).
Proof.
  apply (profile_rename (fun _ => ""%string) " carol "
           (snd (login Cases.toy_check "bob" "pw2" Cases.two_accounts)) 2).
  - destruct two_accounts_ok as (H1 & H2 & H3 & H4).
    repeat split; assumption.
  - reflexivity.
  - discriminate.
Defined.

(* ================================================================== *)
(** * The accounts stay well formed *)

Lemma updated_rows (m : gmap Z float) (uid u : Z) (f : float -> float) :
  is_Some (match m !! uid with
           | Some b => <[uid := f b]> m
           | None => m
           end !! u)
  <-> is_Some (m !! u).
Proof.
  destruct (m !! uid) as [b|] eqn:Hb; [|reflexivity].
  rewrite lookup_insert_is_Some. split.
  - intros [<- | [_ H]]; [rewrite Hb; eauto | exact H].
  - intros H. destruct (decide (uid = u)); auto.
Qed.

(** No ledger route creates or removes a wallet row. *)
Lemma handle_wallet_rows (E : env) (r : request) (w : world) (u : Z) :
  is_Some (wallet (current (snd (handle E r w))) !! u)
  <-> is_Some (wallet (current w) !! u).
Proof.
  destruct r as [amount | symbol q source | symbol q]; simpl.
  - destruct (wallet_add_deposited_cases E amount w)
      as [(a & c1 & -> & _ & Hc & ->) | [_ ->]]; [|reflexivity].
    apply wallet_credit_ok in Hc as (_ & _ & Hw & _). simpl. rewrite Hw.
    apply (updated_rows _ _ _ (fun b => real_column (b + a))).
  - destruct (buy_bought_cases E symbol q source w)
      as [(q' & cost & conn & -> & _ & _ & _ & Hst & ->) | [_ ->]]; [|reflexivity].
    apply buy_statements_ok in Hst as (Hw & _). simpl. rewrite Hw.
    apply (updated_rows _ _ _ (fun b => real_column (b - cost))).
  - destruct (sell_sold_cases E symbol q w)
      as [(q' & row & f & conn & -> & _ & Hrow & _ & Hst & ->) | [_ ->]];
      [|reflexivity].
    apply (sell_statements_ok _ _ _ _ _ _ _ _ Hrow) in Hst as (Hw & _). simpl.
    rewrite Hw.
    apply (updated_rows _ _ _
             (fun b => real_column (b + get_live_price (yf E) (normalize symbol) * f))).
Qed.

Lemma register_ok (pw_hash form_username form_password : string) (s : site) :
  site_ok s -> site_ok (snd (register pw_hash form_username form_password s)).
Proof.
  intros Hok.
  destruct (bool_decide (py_strip form_username = ""%string)
            || bool_decide (form_password = ""%string)) eqn:Hblank.
  { unfold register. now rewrite Hblank. }
  apply orb_false_iff in Hblank as [Hn Hp].
  apply bool_decide_eq_false_1 in Hn. apply bool_decide_eq_false_1 in Hp.
  destruct (2 ^ 63 - 1 <=? largest_id s) eqn:Hfull.
  { unfold register. rewrite bool_decide_eq_false_2, bool_decide_eq_false_2 by assumption.
    simpl. now rewrite Hfull. }
  apply Z.leb_gt in Hfull.
  destruct (find_user (py_strip form_username) (users s)) as [row|] eqn:Hf.
  { unfold register. rewrite bool_decide_eq_false_2, bool_decide_eq_false_2 by assumption.
    simpl. apply Z.leb_gt in Hfull. now rewrite Hfull, Hf. }
  apply find_user_None in Hf.
  now apply register_registered.
Qed.

Lemma login_cases (check : string -> string -> bool) (u p : string) (s : site) :
  (exists row,
     row ∈ users s /\
     snd (login check u p s)
     = Site (users s) (users_seq s) (Some (user_id row))
            (ensure_wallet (user_id row) (ledger s))) \/
  snd (login check u p s) = s.
Proof.
  unfold login. destruct (find_user _ _) as [row|] eqn:Hf; [|now right].
  apply find_user_Some in Hf as [Hin _].
  destruct (check _ _); [left; eauto | now right].
Qed.

Section SiteFacts.

Variable check_password_hash : string -> string -> bool.
Variable format_2f : float -> string.

Lemma site_step_ok (q : site_request) (s : site) :
  site_ok s -> site_ok (site_step check_password_hash format_2f q s).
Proof.
  intros Hok. destruct q as [pw u p | u p | | u | quotes now r]; simpl.
  - now apply register_ok.
  - destruct (login_cases check_password_hash u p s)
      as [(row & Hin & ->) | ->]; [|exact Hok].
    destruct Hok as (Hids & Hnames & Hseq & Hrows).
    repeat split; try assumption. simpl.
    intros v [-> | Hv]%ensure_wallet_rows; [|now apply Hrows].
    change (@map) with (@fmap list _). apply list_elem_of_fmap. eauto.
  - unfold logout. destruct (logged_in s); [|exact Hok].
    destruct Hok as (Hids & Hnames & Hseq & Hrows). repeat split; assumption.
  - unfold profile. destruct (logged_in s) as [uid|] eqn:Hlog; [|exact Hok].
    destruct u as [u|]; [|exact Hok].
    case_bool_decide; [exact Hok|].
    apply logged_in_user in Hlog as (_ & u0 & Hu0 & Hid0).
    assert (uid ∈ map user_id (users s)) as Hin.
    { rewrite <- Hid0. change (@map) with (@fmap list _).
      apply list_elem_of_fmap. eauto. }
    destruct (rename_user_cases uid (py_strip u) (users s) Hin)
      as [[-> _] | [-> Hfree]]; [exact Hok|].
    now apply profile_renamed_ok.
  - destruct (logged_in s) as [uid|]; [|exact Hok].
    destruct Hok as (Hids & Hnames & Hseq & Hrows).
    repeat split; try assumption. simpl.
    intros v Hv%handle_wallet_rows. now apply Hrows.
Qed.

(** X17. The accounts stay well formed whatever is requested: over any
    sequence of registrations, logins, logouts, profile posts and ledger
    requests, user ids stay distinct and not above the id sequence, user
    names stay distinct, and every wallet row belongs to a user. *)
Theorem site_stays_ok (qs : list site_request) (s : site) :
  site_ok s -> site_ok (site_run check_password_hash format_2f qs s).
Proof.
  unfold site_run. revert s.
  induction qs as [|q qs IH]; intros s Hok; [exact Hok|].
  simpl. apply IH. now apply site_step_ok.
Qed.

End SiteFacts.

Lemma site_stays_ok_witness :
  site_ok Cases.empty_site /\
  site_ok (site_run Cases.toy_check (fun _ => ""%string)
             [Register "h:pw1" "ann" "pw1"; Login "ann" "pw1";
              Ledger (fun _ => YfRaised) "t0" (Deposit (Some 1000%float));
              Ledger (fun _ => YfRaised) "t1" (Buy "aapl" (Some 2) "");
              Profile (Some "anna"); Register "h:pw2" "ann" "pw2"; Logout]
             Cases.empty_site).
Proof.
  split; [exact empty_site_ok|].
  apply (site_stays_ok Cases.toy_check (fun _ => ""%string)). exact empty_site_ok.
Defined.
